(** * YodaRT: the [@yoda/audio] volume manager and the [@yoda/util] path helpers

    A shallow embedding of [packages/@yoda/audio/index.js] and of the three
    helpers of [@yoda/util] that the unit tests exercise ([get], [pick],
    [startsWith]), together with the properties stated about them.

    JavaScript values are an inductive type; the module-level object
    [AudioBase], the property store and the calls made to the native
    backend form an explicit state that is threaded through a small
    state-and-exception monad. *)

From Stdlib Require Import ZArith QArith Qround Qabs String Ascii List Lia.
From Stdlib Require Import DecimalString DecimalZ DecimalPos.
From stdpp Require Import gmap strings.

#[local] Set Warnings "-register-all".
Local Open Scope string_scope.

(** ** JavaScript values *)

(** Numbers.  The module compares a volume with the literals [100] and [0],
    floors it and tests it with [isNaN]; all of these are exact on IEEE
    doubles, so the finite doubles are embedded in the rationals.  A number
    that comes out of a string, through [parseInt], is rounded to the
    nearest double, or to an infinity ([round_double]).  The sign of zero
    is not represented. *)
Inductive number : Type :=
  | NaN
  | PosInf
  | NegInf
  | Finite (q : Q).

Inductive value : Type :=
  | VUndefined
  | VNull
  | VBool (b : bool)
  | VNum (n : number)
  | VStr (s : string)
  | VArr (items : list value)
  | VObj (fields : list (string * value))
  | VFun (fname : string).

(** The exceptions the two modules can raise.  [EngineTypeError p] is the
    [TypeError] the engine itself raises when property [p] is read from
    [undefined] or [null]; its message is engine-defined. *)
Inductive exn : Type :=
  | TypeError (msg : string)
  | Error (msg : string)
  | RangeError (msg : string)
  | EngineTypeError (prop : string).

Definition num_of_Z (z : Z) : number := Finite (inject_Z z).

(** [typeof v] *)
Definition typeof (v : value) : string :=
  match v with
  | VUndefined => "undefined"
  | VNull => "object"
  | VBool _ => "boolean"
  | VNum _ => "number"
  | VStr _ => "string"
  | VArr _ => "object"
  | VObj _ => "object"
  | VFun _ => "function"
  end.

(** [ToBoolean]: what [if (v)], [!v] and [v && w] test. *)
Definition ToBoolean (v : value) : bool :=
  match v with
  | VUndefined | VNull => false
  | VBool b => b
  | VNum NaN => false
  | VNum (Finite q) => negb (Qeq_bool q 0)
  | VNum _ => true
  | VStr s => negb (String.eqb s "")
  | VArr _ | VObj _ | VFun _ => true
  end.

(** [a < b] on numbers; every comparison with [NaN] is false. *)
Definition number_ltb (a b : number) : bool :=
  match a, b with
  | NaN, _ | _, NaN => false
  | PosInf, _ => false
  | _, NegInf => false
  | NegInf, _ => true
  | _, PosInf => true
  | Finite x, Finite y => negb (Qle_bool y x)
  end.

Definition number_gtb (a b : number) : bool := number_ltb b a.

Definition isNaN (n : number) : bool :=
  match n with NaN => true | _ => false end.

Definition Math_floor (n : number) : number :=
  match n with
  | Finite q => num_of_Z (Qfloor q)
  | _ => n
  end.

(** [Math.max] and [Math.min] of two numbers: [NaN] if either is. *)
Definition Math_max (a b : number) : number :=
  match a, b with
  | NaN, _ | _, NaN => NaN
  | _, _ => if number_ltb a b then b else a
  end.

Definition Math_min (a b : number) : number :=
  match a, b with
  | NaN, _ | _, NaN => NaN
  | _, _ => if number_ltb b a then b else a
  end.

(** *** Integers as doubles *)

(** The double nearest to the integer [z], ties going to the even
    significand; [None] when [z] rounds past the largest double.  An
    integer below [2 ^ 53] in magnitude is a double as it stands. *)
Definition round_double (z : Z) : option Z :=
  let a := Z.abs z in
  if (a <? 2 ^ 53)%Z then Some z
  else
    let e := (Z.log2 a - 52)%Z in
    let q := (a / 2 ^ e)%Z in
    let r := (a mod 2 ^ e)%Z in
    let half := (2 ^ (e - 1))%Z in
    let m :=
      if (r <? half)%Z then q
      else if (half <? r)%Z then (q + 1)%Z
      else if Z.even q then q else (q + 1)%Z in
    if (2 ^ 1024 <=? m * 2 ^ e)%Z then None
    else Some (Z.sgn z * (m * 2 ^ e))%Z.

(** The Number value of the mathematical integer [z]. *)
Definition double_of_Z (z : Z) : number :=
  match round_double z with
  | Some r => num_of_Z r
  | None => if (z <? 0)%Z then NegInf else PosInf
  end.

Definition is_double (z : Z) : bool :=
  match round_double z with
  | Some r => (r =? z)%Z
  | None => false
  end.

Definition isFinite (n : number) : bool :=
  match n with Finite _ => true | _ => false end.

(** *** Number to string *)

Definition Z_to_string (z : Z) : string :=
  NilEmpty.string_of_int (Z.to_int z).

Definition digit_char (d : Z) : ascii := ascii_of_N (48 + Z.to_N d).

(** Decimal digits of [r / d] for [0 <= r < d], by long division. *)
Fixpoint fraction_digits (fuel : nat) (r d : Z) : string :=
  match fuel with
  | O => ""
  | S fuel' =>
      if (r =? 0)%Z then ""
      else String (digit_char (r * 10 / d))
                  (fraction_digits fuel' ((r * 10) mod d) d)
  end.

Definition is_integer (q : Q) : bool := Qeq_bool q (inject_Z (Qfloor q)).

(** [s * 10 ^ e] is read as the double [a]. *)
Definition reads_as (a s e : Z) : bool :=
  match round_double (s * 10 ^ e) with
  | Some r => (r =? a)%Z
  | None => false
  end.

(** The digits [s] and the power [e] with [s * 10 ^ e] read as the double
    [a], for [s] of [k] digits, if there are any: the candidates are [a]
    cut after its first [k] digits and the next number up, and of two that
    fit the nearer to [a] wins, the even one when they are as near.  [n] is
    the number of digits of [a]. *)
Definition shortest_at (a n k : Z) : option (Z * Z) :=
  let e := (n - k)%Z in
  let p := (10 ^ e)%Z in
  let lo := (a / p)%Z in
  let hi := (lo + 1)%Z in
  let up := if (hi =? 10 ^ k)%Z then (10 ^ (k - 1), e + 1)%Z else (hi, e) in
  match reads_as a lo e, reads_as a (fst up) (snd up) with
  | true, true =>
      if (a - lo * p <? hi * p - a)%Z then Some (lo, e)
      else if (hi * p - a <? a - lo * p)%Z then Some up
      else if Z.even lo then Some (lo, e) else Some up
  | true, false => Some (lo, e)
  | false, true => Some up
  | false, false => None
  end.

(** The fewest digits that read as [a], tried from [k] digits on; with all
    [n] digits of [a] the search ends at the latest. *)
Fixpoint shortest (fuel : nat) (a n k : Z) : Z * Z :=
  match fuel with
  | O => (a, 0%Z)
  | S fuel' =>
      match shortest_at a n k with
      | Some c => c
      | None => shortest fuel' a n (k + 1)%Z
      end
  end.

(** [d.ddde+x] for the digits [s] times [10 ^ e]. *)
Definition exponent_string (s e : Z) : string :=
  match Z_to_string s with
  | String c rest =>
      String c (match rest with
                | EmptyString => ""
                | _ => String "." rest
                end
                ++ "e+" ++ Z_to_string (e + Z.of_nat (String.length rest)))
  | EmptyString => ""
  end.

(** The string of an integer.  Below [2 ^ 53] it is the decimal digits.
    From there on it is made of the fewest digits [s] that, with a power
    of ten, read back as the same double: these digits followed by zeros
    when that makes at most 21 digits, and the exponent form otherwise.
    An integer from [2 ^ 53] on that is no double is the value of no
    JavaScript number, though the statements let stream ids range over all
    integers; it is written as the BigInt literal, which no number prints,
    so that different integers have different strings. *)
Definition integer_string (z : Z) : string :=
  let a := Z.abs z in
  if (a <? 2 ^ 53)%Z then Z_to_string z
  else if is_double a then
    let n := Z.of_nat (String.length (Z_to_string a)) in
    let '(s, e) := shortest (Z.to_nat n) a n 1 in
    if (e + Z.of_nat (String.length (Z_to_string s)) <=? 21)%Z
    then Z_to_string (Z.sgn z * (s * 10 ^ e))
    else (if (z <? 0)%Z then "-" else "") ++ exponent_string s e
  else Z_to_string z ++ "n".

(** [Number::toString].  The audio module only ever prints integers
    ([_storeVolume] floors, stream ids are integers); a fraction prints as
    sign, integer part, point and the expansion of the fractional part. *)
Definition Number_toString (n : number) : string :=
  match n with
  | NaN => "NaN"
  | PosInf => "Infinity"
  | NegInf => "-Infinity"
  | Finite q =>
      if is_integer q then integer_string (Qfloor q)
      else
        let a := Qabs q in
        let ip := Qfloor a in
        let d := Z.pos (Qden a) in
        (if Qle_bool 0 q then "" else "-")
          ++ Z_to_string ip ++ "."
          ++ fraction_digits 20 (Qnum a - ip * d) d
  end.

(** [ToString]; an array joins the strings of its elements with commas,
    [null] and [undefined] elements printing as nothing. *)
Fixpoint ToString (v : value) : string :=
  match v with
  | VUndefined => "undefined"
  | VNull => "null"
  | VBool true => "true"
  | VBool false => "false"
  | VNum n => Number_toString n
  | VStr s => s
  | VArr items =>
      (fix join (l : list value) : string :=
         match l with
         | nil => ""
         | x :: nil =>
             match x with VUndefined | VNull => "" | _ => ToString x end
         | x :: rest =>
             match x with VUndefined | VNull => "" | _ => ToString x end
               ++ "," ++ join rest
         end) items
  | VObj _ => "[object Object]"
  | VFun f => "function " ++ f ++ "() { [native code] }"
  end.

(** *** [parseInt] (no radix argument) *)

Definition is_whitespace (c : ascii) : bool :=
  let n := N_of_ascii c in
  ((9 <=? n) && (n <=? 13) || (n =? 32))%N.

Fixpoint strip_whitespace (s : string) : string :=
  match s with
  | String c s' => if is_whitespace c then strip_whitespace s' else s
  | EmptyString => s
  end.

(** Value of [c] as a digit in the given radix, if it is one. *)
Definition digit_value (radix : Z) (c : ascii) : option Z :=
  let n := Z.of_N (N_of_ascii c) in
  let d :=
    if ((48 <=? n) && (n <=? 57))%Z then Some (n - 48)%Z
    else if ((97 <=? n) && (n <=? 122))%Z then Some (n - 87)%Z
    else if ((65 <=? n) && (n <=? 90))%Z then Some (n - 55)%Z
    else None in
  match d with
  | Some k => if (k <? radix)%Z then Some k else None
  | None => None
  end.

(** Value of the longest prefix of [s] made of digits; [acc] is [None] until
    a first digit has been read. *)
Fixpoint parse_digits (radix : Z) (s : string) (acc : option Z) : option Z :=
  match s with
  | EmptyString => acc
  | String c s' =>
      match digit_value radix c with
      | Some d =>
          parse_digits radix s'
            (Some (match acc with Some a => a * radix + d | None => d end)%Z)
      | None => acc
      end
  end.

Definition strip_sign (s : string) : Z * string :=
  match s with
  | String "-" s' => ((-1)%Z, s')
  | String "+" s' => (1%Z, s')
  | _ => (1%Z, s)
  end.

Definition has_hex_prefix (s : string) : option string :=
  match s with
  | String "0" (String "x" s') => Some s'
  | String "0" (String "X" s') => Some s'
  | _ => None
  end.

(** The digits are read as a mathematical integer, and the result is the
    Number value of that integer: the nearest double, or an infinity.  All
    the digits count (an engine may take those after the twentieth for
    zeros). *)
Definition parseInt (v : value) : number :=
  let '(sign, s) := strip_sign (strip_whitespace (ToString v)) in
  let mathInt :=
    match has_hex_prefix s with
    | Some s' => parse_digits 16 s' None
    | None => parse_digits 10 s None
    end in
  match mathInt with
  | Some z => double_of_Z (sign * z)
  | None => NaN
  end.

(** *** Completions and property reads *)

(** Result of running a piece of code: a value, a thrown exception, or
    [OutOfFuel] when the recursion bound of the embedding is exhausted
    (only [setVolume_fuel] has one, and it never reaches it from the
    bound [setVolume] gives it). *)
Inductive completion (A : Type) : Type :=
  | Normal (a : A)
  | Throw (e : exn)
  | OutOfFuel.
Arguments Normal {A} a.
Arguments Throw {A} e.
Arguments OutOfFuel {A}.

Fixpoint assoc (k : string) (fields : list (string * value)) : option value :=
  match fields with
  | nil => None
  | (k', v) :: rest => if String.eqb k k' then Some v else assoc k rest
  end.

(** A string is an array index when it is the decimal form of a natural. *)
Definition array_index (seg : string) : option nat :=
  match parse_digits 10 seg None with
  | Some z => if String.eqb (Z_to_string z) seg then Some (Z.to_nat z) else None
  | None => None
  end.

(** Own data property [k] of a value, if it has one. *)
Definition own_property (node : value) (k : string) : option value :=
  match node with
  | VObj fields => assoc k fields
  | VArr items =>
      match array_index k with
      | Some i => nth_error items i
      | None => None
      end
  | _ => None
  end.

(** The read [node[k]]: the engine throws on [undefined] and [null], and a
    property that is not there reads as [undefined]. *)
Definition member (node : value) (k : string) : completion value :=
  match node with
  | VUndefined | VNull => Throw (EngineTypeError k)
  | _ => Normal (default VUndefined (own_property node k))
  end.

(** ** [@yoda/util]: [get], [pick], [startsWith] *)

Module Util.

(** ['a.b'.split('.')] *)
Fixpoint split_dot (s : string) : list string :=
  match s with
  | EmptyString => "" :: nil
  | String c s' =>
      if Ascii.eqb c "." then "" :: split_dot s'
      else
        match split_dot s' with
        | seg :: rest => String c seg :: rest
        | nil => String c "" :: nil
        end
  end.

(** A string path is cut at its dots; any other path is a single key. *)
Definition path_segments (path : value) : list string :=
  match path with
  | VStr s => split_dot s
  | _ => ToString path :: nil
  end.

(** Modelled from the spec: the body of [get] is not in the repository
    sources at hand, only its unit tests are.  The walk follows section
    4.1: it stops with [null] at a [null] node, stops with "no value" at
    an [undefined] node, and otherwise reads the next key, a scalar or an
    absent key reading as "no value". *)
Fixpoint resolve (node : value) (segs : list string) : completion value :=
  match segs with
  | nil => Normal node
  | k :: rest =>
      match node with
      | VNull => Normal VNull
      | VUndefined => Normal VUndefined
      | _ =>
          match member node k with
          | Normal v => resolve v rest
          | other => other
          end
      end
  end.

(** Modelled from the spec: [get(container, path, defaultValue)] of
    [@yoda/util], whose source is absent.  A [null] or "no value"
    container gives the default; otherwise the path is resolved and only
    "no value" is replaced by the default. *)
Definition get (container path defaults : value) : completion value :=
  match container with
  | VNull | VUndefined => Normal defaults
  | _ =>
      match resolve container (path_segments path) with
      | Normal VUndefined => Normal defaults
      | other => other
      end
  end.

Fixpoint copy_keys (container : value) (keys : list value)
  : completion (list (string * value)) :=
  match keys with
  | nil => Normal nil
  | k :: rest =>
      match member container (ToString k) with
      | Normal v =>
          match copy_keys container rest with
          | Normal fields => Normal ((ToString k, v) :: fields)
          | other => other
          end
      | Throw e => Throw e
      | OutOfFuel => OutOfFuel
      end
  end.

(** Modelled from the spec: [pick(container, keys...)] of [@yoda/util],
    whose source is absent.  A [null] or "no value" container is returned
    as it is; otherwise the listed keys are copied into a new mapping. *)
Definition pick (container : value) (keys : list value) : completion value :=
  match container with
  | VNull | VUndefined => Normal container
  | _ =>
      match copy_keys container keys with
      | Normal fields => Normal (VObj fields)
      | Throw e => Throw e
      | OutOfFuel => OutOfFuel
      end
  end.

(** Modelled from the spec: [startsWith(value, prefix)] of [@yoda/util],
    whose source is absent.  [false] for a value that is not a string,
    otherwise whether the value begins with the prefix. *)
Definition startsWith (v pre : value) : completion value :=
  match v with
  | VStr s => Normal (VBool (String.prefix (ToString pre) s))
  | _ => Normal (VBool false)
  end.

(** [walks c segs v]: every key of [segs] is present in turn, starting
    from [c], and the value reached is [v]. *)
Inductive walks : value -> list string -> value -> Prop :=
  | walks_here c : walks c nil c
  | walks_step c k c' segs v :
      own_property c k = Some c' -> walks c' segs v -> walks c (k :: segs) v.

Definition is_scalar (v : value) : bool :=
  match v with
  | VBool _ | VNum _ | VStr _ => true
  | _ => false
  end.

Definition is_container (v : value) : bool :=
  match v with
  | VObj _ | VArr _ => true
  | _ => false
  end.

End Util.

(** ** [@yoda/audio] *)

(** A stream descriptor, the object [defineStream] builds.  Its [key] is a
    getter over [name]. *)
Record Stream : Type := {
  id : Z;
  name : string;
  readonly : value
}.

Definition key (stream : Stream) : string := "audio.volume." ++ name stream.

(** What the module does to its two collaborators, in the order it does it:
    [property.set(key, val, 'persist')], [native.setStreamVolume(id, vol)]
    and [native.setCurveForVolume(index, value)]. *)
Inductive effect : Type :=
  | PropertySet (k : value) (val : number)
  | SetStreamVolume (stream_id : value) (vol : number)
  | SetCurveForVolume (index : Z) (v : value).

(** The native binding [./audio.node], which is not part of the sources:
    its seven stream constants, and the answer [setCurveForVolume] gives to
    a curve point, which may depend on everything done so far. *)
Record NativeBackend : Type := {
  STREAM_AUDIO : Z;
  STREAM_TTS : Z;
  STREAM_RING : Z;
  STREAM_VOICE_CALL : Z;
  STREAM_PLAYBACK : Z;
  STREAM_ALARM : Z;
  STREAM_SYSTEM : Z;
  setCurveForVolume_accepts : list effect -> Z -> value -> bool
}.

(** The state the module works on: the object [AudioBase] (its own property
    [DEFAULT_VOLUME], and the descriptors stored under the decimal string
    of a stream id, which is never the name [DEFAULT_VOLUME]), the content
    of the property store, and the effects performed so far. *)
Record state : Type := {
  AudioBase_DEFAULT_VOLUME : number;
  AudioBase : gmap string Stream;
  property : gmap string string;
  effects : list effect
}.

(** What [AudioBase[type]] can evaluate to besides [undefined]: a stream
    descriptor, or a value that is not one ([DEFAULT_VOLUME], or a member
    inherited from [Object.prototype]). *)
Inductive entry : Type :=
  | Descriptor (stream : Stream)
  | Plain (v : value).

Definition Object_prototype_members : list string :=
  "constructor" :: "toString" :: "toLocaleString" :: "valueOf"
    :: "hasOwnProperty" :: "isPrototypeOf" :: "propertyIsEnumerable"
    :: "__defineGetter__" :: "__defineSetter__"
    :: "__lookupGetter__" :: "__lookupSetter__" :: nil.

(** What [AudioBase] inherits: the methods of [Object.prototype], and
    under [__proto__] that object itself. *)
Definition Object_prototype (k : string) : option value :=
  if String.eqb k "__proto__" then Some (VObj nil)
  else if existsb (String.eqb k) Object_prototype_members then Some (VFun k)
  else None.

Definition stream_key (stream_id : Z) : string := ToString (VNum (num_of_Z stream_id)).

(** [AudioBase[type]]: own properties first, then the prototype. *)
Definition AudioBase_get (s : state) (type : value) : option entry :=
  let k := ToString type in
  match AudioBase s !! k with
  | Some stream => Some (Descriptor stream)
  | None =>
      if String.eqb k "DEFAULT_VOLUME"
      then Some (Plain (VNum (AudioBase_DEFAULT_VOLUME s)))
      else Plain <$> Object_prototype k
  end.

Definition entry_truthy (e : option entry) : bool :=
  match e with
  | None => false
  | Some (Descriptor _) => true
  | Some (Plain v) => ToBoolean v
  end.

(** The read [stream.f] where [stream] came out of [AudioBase]. *)
Definition field (f : string) (e : option entry) : completion value :=
  match e with
  | None => Throw (EngineTypeError f)
  | Some (Descriptor stream) =>
      Normal
        (if String.eqb f "id" then VNum (num_of_Z (id stream))
         else if String.eqb f "name" then VStr (name stream)
         else if String.eqb f "readonly" then readonly stream
         else if String.eqb f "key" then VStr (key stream)
         else VUndefined)
  | Some (Plain (VFun g)) =>
      Normal (if String.eqb f "name" then VStr g else VUndefined)
  | Some (Plain _) => Normal VUndefined
  end.

(** *** The state-and-exception monad *)

Definition M (A : Type) : Type := state -> completion A * state.

Definition ret {A} (a : A) : M A := fun s => (Normal a, s).

Definition throw {A} (e : exn) : M A := fun s => (Throw e, s).

(** A throw keeps the state reached so far: nothing is undone. *)
Definition bind {A B} (m : M A) (f : A -> M B) : M B :=
  fun s =>
    match m s with
    | (Normal a, s') => f a s'
    | (Throw e, s') => (Throw e, s')
    | (OutOfFuel, s') => (OutOfFuel, s')
    end.

Definition lift {A} (c : completion A) : M A := fun s => (c, s).

Notation "x <- m ;; k" := (bind m (fun x => k))
  (at level 100, m at next level, right associativity).
Notation "m ;;; k" := (bind m (fun _ => k))
  (at level 100, right associativity).

Definition get_state : M state := fun s => (Normal s, s).

Definition quote : string := String (ascii_of_nat 34) "".

(** Nth argument of a call; a missing argument is [undefined]. *)
Definition arg (i : nat) (args : list value) : value := nth i args VUndefined.

(** *** Collaborators *)

(** Modelled from the spec: [property.get(key, 'persist')] of
    [@yoda/property], which is not among the sources.  Section 6 makes the
    store a key/value store of strings: a read gives the stored string
    back, the empty string for a key that was never set.  Every call of the
    module passes the same namespace hint, which is left out. *)
Definition property_get (k : value) : M value :=
  fun s => (Normal (VStr (default "" (property s !! ToString k))), s).

(** Modelled from the spec: [property.set(key, val, 'persist')] of
    [@yoda/property], which is not among the sources.  The string form of
    [val] is kept under the string form of [key], and the call is recorded
    among the effects. *)
Definition property_set (k : value) (val : number) : M unit :=
  fun s =>
    (Normal tt,
     {| AudioBase_DEFAULT_VOLUME := AudioBase_DEFAULT_VOLUME s;
        AudioBase := AudioBase s;
        property := <[ToString k := Number_toString val]> (property s);
        effects := effects s ++ PropertySet k val :: nil |}).

(** Records a call to the native backend. *)
Definition perform (e : effect) : M unit :=
  fun s =>
    (Normal tt,
     {| AudioBase_DEFAULT_VOLUME := AudioBase_DEFAULT_VOLUME s;
        AudioBase := AudioBase s;
        property := property s;
        effects := effects s ++ e :: nil |}).

Definition AudioBase_set (k : string) (stream : Stream) : M unit :=
  fun s =>
    (Normal tt,
     {| AudioBase_DEFAULT_VOLUME := AudioBase_DEFAULT_VOLUME s;
        AudioBase := <[k := stream]> (AudioBase s);
        property := property s;
        effects := effects s |}).

Section AudioManager.

Variable native : NativeBackend.

(** Modelled from the spec: [native.setStreamVolume(id, vol)] of the
    binding [./audio.node], which is not among the sources; section 6 makes
    it a synchronous call, whose result the module ignores. *)
Definition native_setStreamVolume (stream_id : value) (vol : number) : M unit :=
  perform (SetStreamVolume stream_id vol).

(** Modelled from the spec: [native.setCurveForVolume(index, value)] of the
    binding [./audio.node], which is not among the sources; it reports
    whether the backend took the point. *)
Definition native_setCurveForVolume (index : Z) (v : value) : M bool :=
  fun s =>
    let '(_, s') := perform (SetCurveForVolume index v) s in
    (Normal (setCurveForVolume_accepts native (effects s) index v), s').

(** *** The module's functions *)

Definition _getNumber (k : string) (defaults : number) : M number :=
  v <- property_get (VStr k);;
  let num := parseInt v in
  ret (if isNaN num then defaults else num).

Definition _storeVolume (stream : option entry) (vol : number) : M value :=
  let vol := Math_floor vol in
  k <- lift (field "key" stream);;
  property_set k vol;;;
  i <- lift (field "id" stream);;
  native_setStreamVolume i vol;;;
  ret VUndefined.

Definition _getVolume (stream : option entry) : M value :=
  k <- lift (field "key" stream);;
  v <- property_get k;;
  let vol := parseInt v in
  if isNaN vol then ret (VBool false) else ret (VNum vol).

(** [v === false] and [v === null] *)
Definition is_false (v : value) : bool :=
  match v with VBool false => true | _ => false end.

Definition is_null (v : value) : bool :=
  match v with VNull => true | _ => false end.

Definition defineStream (stream_id : Z) (nm : string) (options : value) : M unit :=
  let options := if ToBoolean options then options else VObj nil in
  r <- lift (member options "readonly");;
  let stream :=
    {| id := stream_id; name := nm;
       readonly := if ToBoolean r then r else VUndefined |} in
  AudioBase_set (stream_key stream_id) stream;;;
  v <- _getVolume (Some (Descriptor stream));;
  if is_false v then
    s <- get_state;;
    _storeVolume (Some (Descriptor stream)) (AudioBase_DEFAULT_VOLUME s);;;
    ret tt
  else ret tt.

(** [LINEAR_RAMP(len)] for a finite [len]: the array [0, 1, ..., len]. *)
Definition LINEAR_RAMP (len : value) : value :=
  match len with
  | VNum (Finite q) =>
      VArr (map (fun i => VNum (num_of_Z (Z.of_nat i)))
                (seq 0 (Z.to_nat (Qfloor q + 1))))
  | _ => VArr nil
  end.

(** [setVolume]; [fuel] bounds the depth of its calls to itself. *)
Fixpoint setVolume_fuel (fuel : nat) (args : list value) : M value :=
  match fuel with
  | O => fun s => (OutOfFuel, s)
  | S fuel' =>
      let '(type, vol) :=
        if Nat.eqb (length args) 1 then (VNull, arg 0 args)
        else (arg 0 args, arg 1 args) in
      s <- get_state;;
      if ToBoolean type && negb (entry_truthy (AudioBase_get s type))
      then throw (TypeError "invalid stream type")
      else
        match vol with
        | VNum vol =>
            let vol :=
              if number_gtb vol (num_of_Z 100) then num_of_Z 100
              else if number_ltb vol (num_of_Z 0) then num_of_Z 0
              else vol in
            if is_null type then
              setVolume_fuel fuel'
                (VNum (num_of_Z (STREAM_AUDIO native)) :: VNum vol :: nil);;;
              setVolume_fuel fuel'
                (VNum (num_of_Z (STREAM_PLAYBACK native)) :: VNum vol :: nil);;;
              setVolume_fuel fuel'
                (VNum (num_of_Z (STREAM_TTS native)) :: VNum vol :: nil);;;
              setVolume_fuel fuel'
                (VNum (num_of_Z (STREAM_RING native)) :: VNum vol :: nil);;;
              ret VUndefined
            else
              s <- get_state;;
              let stream := AudioBase_get s type in
              r <- lift (field "readonly" stream);;
              if ToBoolean r then
                n <- lift (field "name" stream);;
                throw (Error ("stream type " ++ quote ++ ToString n
                                ++ quote ++ " is readonly"))
              else _storeVolume stream vol
        | _ => throw (TypeError "vol must be a number")
        end
  end.

Definition setVolume (args : list value) : M value := setVolume_fuel 2 args.

Definition getVolume (args : list value) : M value :=
  let stream := arg 0 args in
  s <- get_state;;
  match stream with
  | VUndefined =>
      _getVolume (AudioBase_get s (VNum (num_of_Z (STREAM_TTS native))))
  | _ =>
      if negb (entry_truthy (AudioBase_get s stream))
      then throw (TypeError "invalid stream type")
      else _getVolume (AudioBase_get s stream)
  end.

(** The loop [for (var i = i0; i <= max; i++)] of [setVolumeShaper], with
    [count] iterations left. *)
Fixpoint curve_loop (count : nat) (i : Z) (shape : list value) : M value :=
  match count with
  | O => ret (VBool true)
  | S count' =>
      ok <- native_setCurveForVolume i
              (default VUndefined (nth_error shape (Z.to_nat i)));;
      if ok then curve_loop count' (i + 1)%Z shape
      else throw (RangeError "out of range when set volume shape.")
  end.

(** [setVolumeShaper]; the shaper is a function from values to values. *)
Definition setVolumeShaper (shaper : value -> value) : M value :=
  let max := 100%Z in
  let shape := shaper (VNum (num_of_Z max)) in
  match shape with
  | VArr items => curve_loop (Z.to_nat (max + 1)) 0%Z items
  | _ =>
      throw (Error "shaper function should return an array with 100 elements.")
  end.

Definition getStreamName (type : value) : M value :=
  s <- get_state;;
  if entry_truthy (AudioBase_get s type)
  then lift (field "name" (AudioBase_get s type))
  else ret match AudioBase_get s type with
           | Some (Plain v) => v
           | _ => VUndefined
           end.

Definition init : M unit :=
  defineStream (STREAM_AUDIO native) "audio" VUndefined;;;
  defineStream (STREAM_TTS native) "tts" VUndefined;;;
  defineStream (STREAM_RING native) "ring" VUndefined;;;
  defineStream (STREAM_VOICE_CALL native) "voiceCall" VUndefined;;;
  defineStream (STREAM_PLAYBACK native) "playback" VUndefined;;;
  defineStream (STREAM_ALARM native) "alarm" VUndefined;;;
  defineStream (STREAM_SYSTEM native) "system"
    (VObj (("readonly", VBool true) :: nil)).

(** Loading the module over a property store [props], the backend having
    already seen [past]: [AudioBase] is created with its [DEFAULT_VOLUME],
    then [init] runs. *)
Definition load (props : gmap string string) (past : list effect)
  : completion unit * state :=
  let s0 := {| AudioBase_DEFAULT_VOLUME := NaN; AudioBase := ∅;
               property := props; effects := past |} in
  match _getNumber "audio.volume.default" (num_of_Z 60) s0 with
  | (Normal d, s1) =>
      init {| AudioBase_DEFAULT_VOLUME := d; AudioBase := ∅;
              property := property s1; effects := effects s1 |}
  | (Throw e, s1) => (Throw e, s1)
  | (OutOfFuel, s1) => (OutOfFuel, s1)
  end.

End AudioManager.

(** ** [getPlayingStatus] *)

Section PlayingStatus.

Variable native : NativeBackend.

(** The answer of [native.getStreamPlayingStatus(id)], a function of the
    binding [./audio.node] that is not among the sources: it may depend on
    everything the backend has been asked to do so far. *)
Variable native_getStreamPlayingStatus : list effect -> value -> value.

Definition _getPlayingStatus (stream : option entry) : M value :=
  i <- lift (field "id" stream);;
  s <- get_state;;
  ret (native_getStreamPlayingStatus (effects s) i).

Definition getPlayingStatus (args : list value) : M value :=
  let stream := arg 0 args in
  s <- get_state;;
  match stream with
  | VUndefined =>
      _getPlayingStatus (AudioBase_get s (VNum (num_of_Z (STREAM_TTS native))))
  | _ =>
      if negb (entry_truthy (AudioBase_get s stream))
      then throw (TypeError "invalid stream type")
      else _getPlayingStatus (AudioBase_get s stream)
  end.

End PlayingStatus.

(** ** Definitions used in the statements *)

Definition with_effects (s : state) (l : list effect) : state :=
  {| AudioBase_DEFAULT_VOLUME := AudioBase_DEFAULT_VOLUME s;
     AudioBase := AudioBase s;
     property := property s;
     effects := l |}.

(** [s] after [_storeVolume] has persisted and forwarded [vol] for [stream]. *)
Definition after_store (s : state) (stream : Stream) (vol : number) : state :=
  {| AudioBase_DEFAULT_VOLUME := AudioBase_DEFAULT_VOLUME s;
     AudioBase := AudioBase s;
     property := <[key stream := Number_toString vol]> (property s);
     effects := effects s
                  ++ PropertySet (VStr (key stream)) vol
                  :: SetStreamVolume (VNum (num_of_Z (id stream))) vol :: nil |}.

(** [min(100, max(0, floor(v)))] *)
Definition clamped_floor (v : number) : number :=
  Math_min (num_of_Z 100) (Math_max (num_of_Z 0) (Math_floor v)).

(** What [setVolume] makes of a volume before it floors it. *)
Definition clamp (vol : number) : number :=
  if number_gtb vol (num_of_Z 100) then num_of_Z 100
  else if number_ltb vol (num_of_Z 0) then num_of_Z 0
  else vol.

(** The character [c] does not occur in [s]. *)
Fixpoint free_of (c : ascii) (s : string) : bool :=
  match s with
  | EmptyString => true
  | String c' s' => negb (Ascii.eqb c c') && free_of c s'
  end.

(** The letters that tell the forms of [integer_string] apart, and those
    of the hexadecimal prefix. *)
Definition letter (c : ascii) : Prop :=
  c = "e"%char \/ c = "n"%char \/ c = "x"%char \/ c = "X"%char.

(** Value of a digit sequence read after [acc]. *)
Fixpoint uint_value (acc : Z) (d : Decimal.uint) : Z :=
  match d with
  | Decimal.Nil => acc
  | Decimal.D0 d' => uint_value (acc * 10 + 0) d'
  | Decimal.D1 d' => uint_value (acc * 10 + 1) d'
  | Decimal.D2 d' => uint_value (acc * 10 + 2) d'
  | Decimal.D3 d' => uint_value (acc * 10 + 3) d'
  | Decimal.D4 d' => uint_value (acc * 10 + 4) d'
  | Decimal.D5 d' => uint_value (acc * 10 + 5) d'
  | Decimal.D6 d' => uint_value (acc * 10 + 6) d'
  | Decimal.D7 d' => uint_value (acc * 10 + 7) d'
  | Decimal.D8 d' => uint_value (acc * 10 + 8) d'
  | Decimal.D9 d' => uint_value (acc * 10 + 9) d'
  end.

(** The number [_getVolume] parses out of the store for the stream [nm]. *)
Definition persisted_volume (props : gmap string string) (nm : string) : number :=
  parseInt (VStr (default "" (props !! ("audio.volume." ++ nm)))).

(** The stream [nm] has a persisted volume: a string that parses. *)
Definition has_volume (props : gmap string string) (nm : string) : Prop :=
  exists str, props !! ("audio.volume." ++ nm) = Some str
              /\ isNaN (parseInt (VStr str)) = false.

Definition stream_names : list string :=
  "audio" :: "tts" :: "ring" :: "voiceCall" :: "playback" :: "alarm"
    :: "system" :: nil.

(** [options.readonly || undefined] after [options = options || {}] *)
Definition readonly_option (options : value) : value :=
  let options := if ToBoolean options then options else VObj nil in
  let r := default VUndefined (own_property options "readonly") in
  if ToBoolean r then r else VUndefined.

Definition with_stream (s : state) (stream : Stream) : state :=
  {| AudioBase_DEFAULT_VOLUME := AudioBase_DEFAULT_VOLUME s;
     AudioBase := <[stream_key (id stream) := stream]> (AudioBase s);
     property := property s;
     effects := effects s |}.

(** [s] after [defineStream(stream_id, nm, options)]. *)
Definition defined (s : state) (stream_id : Z) (nm : string) (options : value)
  : state :=
  let stream := {| id := stream_id; name := nm;
                   readonly := readonly_option options |} in
  if isNaN (persisted_volume (property s) nm)
  then after_store (with_stream s stream) stream
         (Math_floor (AudioBase_DEFAULT_VOLUME s))
  else with_stream s stream.

Definition initialised (native : NativeBackend) (s : state) : state :=
  defined
    (defined
       (defined
          (defined
             (defined
                (defined
                   (defined s (STREAM_AUDIO native) "audio" VUndefined)
                   (STREAM_TTS native) "tts" VUndefined)
                (STREAM_RING native) "ring" VUndefined)
             (STREAM_VOICE_CALL native) "voiceCall" VUndefined)
          (STREAM_PLAYBACK native) "playback" VUndefined)
       (STREAM_ALARM native) "alarm" VUndefined)
    (STREAM_SYSTEM native) "system" (VObj (("readonly", VBool true) :: nil)).

(** The state [load] hands to [init]. *)
Definition fresh (props : gmap string string) (past : list effect) : state :=
  {| AudioBase_DEFAULT_VOLUME :=
       (let num := parseInt (VStr (default "" (props !! "audio.volume.default"))) in
        if isNaN num then num_of_Z 60 else num);
     AudioBase := ∅;
     property := props;
     effects := past |}.

Definition system_stream (native : NativeBackend) : Stream :=
  {| id := STREAM_SYSTEM native; name := "system"; readonly := VBool true |}.

(** The curve point sent for index [i] of [items]. *)
Definition curve_point (items : list value) (i : nat) : effect :=
  SetCurveForVolume (Z.of_nat i) (default VUndefined (nth_error items i)).

(** The points for the indices [from, from + 1, ..., from + count - 1]. *)
Definition curve_points (items : list value) (from count : nat) : list effect :=
  map (curve_point items) (seq from count).

(** The backend's answer to the point for index [i], after the points for
    the indices below it have been sent on top of [past]. *)
Definition point_accepted (native : NativeBackend) (past : list effect)
    (items : list value) (i : nat) : bool :=
  setCurveForVolume_accepts native (past ++ curve_points items 0 i)%list
    (Z.of_nat i) (default VUndefined (nth_error items i)).

(** First character of the string of a number: a digit, a minus sign, or
    the first letter of [NaN] or [Infinity]. *)
Definition numeric_head (str : string) : bool :=
  match str with
  | String c _ =>
      let n := N_of_ascii c in
      ((48 <=? n) && (n <=? 57) || (n =? 45) || (n =? 78) || (n =? 73))%N
  | EmptyString => false
  end.

Definition stream_ids (native : NativeBackend) : list Z :=
  STREAM_AUDIO native :: STREAM_TTS native :: STREAM_RING native
    :: STREAM_VOICE_CALL native :: STREAM_PLAYBACK native
    :: STREAM_ALARM native :: STREAM_SYSTEM native :: nil.

(** What [getVolume] returns for the stream named [nm]. *)
Definition reading (props : gmap string string) (nm : string) : value :=
  let vol := persisted_volume props nm in
  if isNaN vol then VBool false else VNum vol.

(** The seven descriptors [init] builds. *)
Definition catalog (native : NativeBackend) : list Stream :=
  {| id := STREAM_AUDIO native; name := "audio"; readonly := VUndefined |}
    :: {| id := STREAM_TTS native; name := "tts"; readonly := VUndefined |}
    :: {| id := STREAM_RING native; name := "ring"; readonly := VUndefined |}
    :: {| id := STREAM_VOICE_CALL native; name := "voiceCall";
          readonly := VUndefined |}
    :: {| id := STREAM_PLAYBACK native; name := "playback";
          readonly := VUndefined |}
    :: {| id := STREAM_ALARM native; name := "alarm"; readonly := VUndefined |}
    :: {| id := STREAM_SYSTEM native; name := "system";
          readonly := VBool true |} :: nil.

(** Runs the calls one after the other, giving up at the first throw. *)
Definition sequence_ (calls : list (M value)) : M value :=
  fold_right (fun m k => m;;; k) (ret VUndefined) calls.

(** The four calls [setVolume] makes to itself when the stream is omitted. *)
Definition sub_calls (native : NativeBackend) (vol : number) : list (M value) :=
  map (fun stream_id =>
         setVolume native (VNum (num_of_Z stream_id) :: VNum vol :: nil))
    (STREAM_AUDIO native :: STREAM_PLAYBACK native :: STREAM_TTS native
       :: STREAM_RING native :: nil).

Definition nullish (v : value) : bool :=
  match v with
  | VNull | VUndefined => true
  | _ => false
  end.

(** [s'] can come after [s]: the catalog and the default volume are the
    same, and the effects of [s] are the first effects of [s']. *)
Definition extends (s s' : state) : Prop :=
  AudioBase s' = AudioBase s
  /\ AudioBase_DEFAULT_VOLUME s' = AudioBase_DEFAULT_VOLUME s
  /\ exists l, effects s' = (effects s ++ l)%list.

(** A computation that only ever moves to a state that extends its own. *)
Definition grows {A} (m : M A) : Prop := forall s, extends s (snd (m s)).

(** A computation that leaves the state alone. *)
Definition reads_only {A} (m : M A) : Prop := forall s, snd (m s) = s.

(** The curve point that sends its own index. *)
Definition identity_point (i : nat) : effect :=
  SetCurveForVolume (Z.of_nat i) (VNum (num_of_Z (Z.of_nat i))).

(** The default volume [load] computes from the store. *)
Definition configured_default (props : gmap string string) : number :=
  let num := parseInt (VStr (default "" (props !! "audio.volume.default"))) in
  if isNaN num then num_of_Z 60 else num.

(** Effects in which the backend is told a stream volume only right after
    that volume has been persisted. *)
Inductive paired : list effect -> Prop :=
  | paired_nil : paired nil
  | paired_store l k i vol :
      paired l ->
      paired (l ++ PropertySet k vol :: SetStreamVolume i vol :: nil)%list
  | paired_curve l i v :
      paired l -> paired (l ++ SetCurveForVolume i v :: nil)%list.

(** A computation that keeps the effects paired. *)
Definition keeps_paired {A} (m : M A) : Prop :=
  forall s, paired (effects s) -> paired (effects (snd (m s))).

(** ** A concrete backend for the examples *)

(** A curve value the sample backend accepts: a number from 0 to 100. *)
Definition in_range (v : value) : bool :=
  match v with
  | VNum n =>
      negb (isNaN n) && negb (number_ltb n (num_of_Z 0))
        && negb (number_gtb n (num_of_Z 100))
  | _ => false
  end.

Definition sample_native : NativeBackend :=
  {| STREAM_AUDIO := 0; STREAM_TTS := 1; STREAM_RING := 2;
     STREAM_VOICE_CALL := 3; STREAM_PLAYBACK := 4; STREAM_ALARM := 5;
     STREAM_SYSTEM := 6;
     setCurveForVolume_accepts := fun _ _ v => in_range v |}.

(** A backend whose ring constant is the system one, so that the ring
    call of a broadcast meets the readonly descriptor. *)
Definition shared_native : NativeBackend :=
  {| STREAM_AUDIO := 0; STREAM_TTS := 1; STREAM_RING := 6;
     STREAM_VOICE_CALL := 3; STREAM_PLAYBACK := 4; STREAM_ALARM := 5;
     STREAM_SYSTEM := 6;
     setCurveForVolume_accepts := fun _ _ v => in_range v |}.

(** The module loaded over an empty property store. *)
Definition sample_state : state := snd (load sample_native ∅ nil).

Definition shared_state : state := snd (load shared_native ∅ nil).

Definition sample_stream (stream_id : Z) (nm : string) : Stream :=
  {| id := stream_id; name := nm; readonly := VUndefined |}.

(** A curve whose point of index 3 is out of range. *)
Definition sample_curve : list value :=
  VNum (num_of_Z 0) :: VNum (num_of_Z 1) :: VNum (num_of_Z 2)
    :: VNum (num_of_Z 200) :: nil.

Definition sample_shaper (len : value) : value := VArr sample_curve.

(** [sample_state] after [setVolume(STREAM_TTS, NaN)]. *)
Definition unset_state : state :=
  snd (setVolume sample_native (VNum (num_of_Z 1) :: VNum NaN :: nil)
         sample_state).

(** A backend answer for [getStreamPlayingStatus]: only tts is playing. *)
Definition sample_playing (past : list effect) (stream_id : value) : value :=
  match stream_id with
  | VNum (Finite q) => VBool (Qeq_bool q 1)
  | _ => VBool false
  end.

(** A store that configures the default volume and the ring volume. *)
Definition sample_props : gmap string string :=
  {[ "audio.volume.default" := "35"; "audio.volume.ring" := "80" ]}.

(** A store whose default volume is a one followed by 309 zeros, which is
    past the largest double. *)
Definition overflow_props : gmap string string :=
  {[ "audio.volume.default" := Z_to_string (10 ^ 309) ]}.

(** The module loaded over that store. *)
Definition overflow_state : state := snd (load sample_native overflow_props nil).

(** ** Numbers *)

Lemma Qle_bool_inject_Z (a b : Z) : Qle_bool (inject_Z a) (inject_Z b) = (a <=? b)%Z.
Proof.
  destruct (Z.leb_spec a b) as [H|H].
  - apply Qle_bool_iff. now rewrite <- Zle_Qle.
  - destruct (Qle_bool (inject_Z a) (inject_Z b)) eqn:E; [|reflexivity].
    apply Qle_bool_iff in E. rewrite <- Zle_Qle in E. lia.
Qed.

Lemma number_ltb_Z (a b : Z) : number_ltb (num_of_Z a) (num_of_Z b) = (a <? b)%Z.
Proof.
  unfold number_ltb, num_of_Z. rewrite Qle_bool_inject_Z.
  destruct (Z.leb_spec b a), (Z.ltb_spec a b); simpl; try reflexivity; lia.
Qed.

Lemma Math_max_Z (a b : Z) : Math_max (num_of_Z a) (num_of_Z b) = num_of_Z (Z.max a b).
Proof.
  change (Math_max (num_of_Z a) (num_of_Z b))
    with (if number_ltb (num_of_Z a) (num_of_Z b) then num_of_Z b else num_of_Z a).
  rewrite number_ltb_Z. destruct (Z.ltb_spec a b); f_equal; lia.
Qed.

Lemma Math_min_Z (a b : Z) : Math_min (num_of_Z a) (num_of_Z b) = num_of_Z (Z.min a b).
Proof.
  change (Math_min (num_of_Z a) (num_of_Z b))
    with (if number_ltb (num_of_Z b) (num_of_Z a) then num_of_Z b else num_of_Z a).
  rewrite number_ltb_Z. destruct (Z.ltb_spec b a); f_equal; lia.
Qed.

Lemma clamped_floor_finite (q : Q) :
  clamped_floor (Finite q) = num_of_Z (Z.min 100 (Z.max 0 (Qfloor q))).
Proof.
  unfold clamped_floor, Math_floor. now rewrite Math_max_Z, Math_min_Z.
Qed.

Lemma floor_clamp (v : number) : Math_floor (clamp v) = clamped_floor v.
Proof.
  destruct v as [| | |q]; try reflexivity.
  rewrite clamped_floor_finite.
  unfold clamp, number_gtb, number_ltb, num_of_Z.
  destruct (Qle_bool q (inject_Z 100)) eqn:Hhi; simpl negb; cbv iota.
  - apply Qle_bool_iff, Qfloor_resp_le in Hhi. rewrite Qfloor_Z in Hhi.
    destruct (Qle_bool (inject_Z 0) q) eqn:Hlo; simpl negb; cbv iota.
    + apply Qle_bool_iff, Qfloor_resp_le in Hlo. rewrite Qfloor_Z in Hlo.
      unfold Math_floor, num_of_Z. do 2 f_equal. lia.
    + assert (Hlt : (Qfloor q < 0)%Z).
      { destruct (Z.lt_ge_cases (Qfloor q) 0) as [?|Hge]; [assumption|].
        exfalso. rewrite Zle_Qle in Hge.
        assert (Hq : (inject_Z 0 <= q)%Q)
          by (eapply Qle_trans; [exact Hge | apply Qfloor_le]).
        apply Qle_bool_iff in Hq. congruence. }
      unfold Math_floor, num_of_Z. rewrite Qfloor_Z. do 2 f_equal. lia.
  - assert (Hge : (100 <= Qfloor q)%Z).
    { destruct (Z.lt_ge_cases (Qfloor q) 100) as [Hlt|?]; [|assumption].
      exfalso.
      assert (Hq : (q <= inject_Z 100)%Q).
      { apply Qlt_le_weak. eapply Qlt_le_trans; [apply Qlt_floor|].
        rewrite <- Zle_Qle. lia. }
      apply Qle_bool_iff in Hq. congruence. }
    unfold Math_floor, num_of_Z. rewrite Qfloor_Z. do 2 f_equal. lia.
Qed.

(** ** Printing an integer and reading it back *)

Lemma parse_digits_uint (d : Decimal.uint) (acc : Z) :
  parse_digits 10 (NilEmpty.string_of_uint d) (Some acc)
  = Some (uint_value acc d).
Proof.
  revert acc. induction d; intros acc; simpl NilEmpty.string_of_uint;
    [reflexivity | ..];
    (etransitivity; [|apply IHd]); reflexivity.
Qed.

Lemma parse_digits_uint_start (d : Decimal.uint) :
  d <> Decimal.Nil ->
  parse_digits 10 (NilEmpty.string_of_uint d) None = Some (uint_value 0 d).
Proof.
  destruct d; intros Hd; [congruence | ..];
    simpl NilEmpty.string_of_uint;
    (etransitivity; [|apply parse_digits_uint]); reflexivity.
Qed.

Lemma uint_value_acc (d : Decimal.uint) (acc : positive) :
  uint_value (Z.pos acc) d = Z.pos (Pos.of_uint_acc d acc).
Proof.
  revert acc. induction d; intros acc; simpl; [reflexivity | ..];
    (rewrite <- IHd; f_equal; lia).
Qed.

Lemma uint_value_of_uint (d : Decimal.uint) :
  uint_value 0 d = Z.of_N (Pos.of_uint d).
Proof.
  induction d; simpl; [reflexivity | assumption | ..];
    apply uint_value_acc.
Qed.

Lemma strip_whitespace_uint (d : Decimal.uint) :
  strip_whitespace (NilEmpty.string_of_uint d) = NilEmpty.string_of_uint d.
Proof. destruct d; reflexivity. Qed.

Lemma strip_sign_uint (d : Decimal.uint) :
  strip_sign (NilEmpty.string_of_uint d) = (1%Z, NilEmpty.string_of_uint d).
Proof. destruct d; reflexivity. Qed.

Lemma has_hex_prefix_uint (d : Decimal.uint) :
  has_hex_prefix (NilEmpty.string_of_uint d) = None.
Proof. destruct d as [|d|d|d|d|d|d|d|d|d|d]; try reflexivity; destruct d; reflexivity. Qed.

Lemma parse_pos (p : positive) :
  parse_digits 10 (NilEmpty.string_of_uint (Pos.to_uint p)) None = Some (Z.pos p).
Proof.
  rewrite parse_digits_uint_start by apply Unsigned.to_uint_nonnil.
  now rewrite uint_value_of_uint, DecimalPos.Unsigned.of_to.
Qed.

Lemma round_double_small (z : Z) :
  (Z.abs z < 2 ^ 53)%Z -> round_double z = Some z.
Proof.
  intros H. unfold round_double. cbv zeta.
  now rewrite (proj2 (Z.ltb_lt _ _) H).
Qed.

Lemma double_of_Z_small (z : Z) :
  (Z.abs z < 2 ^ 53)%Z -> double_of_Z z = num_of_Z z.
Proof. intros H. unfold double_of_Z. now rewrite round_double_small. Qed.

Lemma double_of_Z_cases (z : Z) :
  double_of_Z z = PosInf \/ double_of_Z z = NegInf
  \/ exists r, double_of_Z z = num_of_Z r.
Proof.
  unfold double_of_Z. destruct (round_double z) as [r|].
  - right. right. now exists r.
  - destruct (z <? 0)%Z; auto.
Qed.

(** The decimal string of an integer parses back to the double of that
    integer, which is the integer itself below [2 ^ 53]. *)
Lemma parseInt_digits (z : Z) : parseInt (VStr (Z_to_string z)) = double_of_Z z.
Proof.
  unfold parseInt, Z_to_string. cbn [ToString].
  destruct z as [|p|p]; [reflexivity | |]; cbn [Z.to_int NilEmpty.string_of_int].
  - rewrite strip_whitespace_uint, strip_sign_uint, has_hex_prefix_uint, parse_pos.
    reflexivity.
  - change (strip_whitespace (String "-" (NilEmpty.string_of_uint (Pos.to_uint p))))
      with (String "-" (NilEmpty.string_of_uint (Pos.to_uint p))).
    cbn [strip_sign].
    rewrite has_hex_prefix_uint, parse_pos. reflexivity.
Qed.

Lemma parseInt_Z_to_string (z : Z) :
  (Z.abs z < 2 ^ 53)%Z -> parseInt (VStr (Z_to_string z)) = num_of_Z z.
Proof. intros H. rewrite parseInt_digits. now apply double_of_Z_small. Qed.

Lemma Number_toString_integer (z : Z) :
  Number_toString (num_of_Z z) = integer_string z.
Proof.
  unfold Number_toString, num_of_Z, is_integer. rewrite Qfloor_Z.
  replace (Qeq_bool (inject_Z z) (inject_Z z)) with true; [reflexivity|].
  symmetry. apply Qeq_bool_iff. reflexivity.
Qed.

Lemma integer_string_small (z : Z) :
  (Z.abs z < 2 ^ 53)%Z -> integer_string z = Z_to_string z.
Proof.
  intros H. unfold integer_string. cbv zeta.
  now rewrite (proj2 (Z.ltb_lt _ _) H).
Qed.

Lemma Number_toString_Z (z : Z) :
  (Z.abs z < 2 ^ 53)%Z -> Number_toString (num_of_Z z) = Z_to_string z.
Proof.
  intros H. rewrite Number_toString_integer. now apply integer_string_small.
Qed.

Lemma Math_floor_Z (z : Z) : Math_floor (num_of_Z z) = num_of_Z z.
Proof. unfold Math_floor, num_of_Z. now rewrite Qfloor_Z. Qed.

(** [parseInt] gives [NaN], an infinity or an integer. *)
Lemma parseInt_cases (v : value) :
  parseInt v = NaN \/ parseInt v = PosInf \/ parseInt v = NegInf
  \/ exists z, parseInt v = num_of_Z z.
Proof.
  assert (H : forall z, double_of_Z z = NaN \/ double_of_Z z = PosInf
                        \/ double_of_Z z = NegInf
                        \/ exists r, double_of_Z z = num_of_Z r).
  { intros z. destruct (double_of_Z_cases z) as [H|[H|H]]; auto. }
  unfold parseInt.
  destruct (strip_sign (strip_whitespace (ToString v))) as [sign str].
  destruct (has_hex_prefix str) as [str'|].
  - destruct (parse_digits 16 str' None); auto.
  - destruct (parse_digits 10 str None); auto.
Qed.

(** ** The strings of the large integers *)

Lemma round_double_sign (x a : Z) :
  (0 < a)%Z -> round_double x = Some a -> (0 < x)%Z.
Proof.
  intros Ha. unfold round_double. cbv zeta.
  destruct (Z.abs x <? 2 ^ 53)%Z; [now intros [= ->]|].
  set (e := (Z.log2 (Z.abs x) - 52)%Z).
  set (q := (Z.abs x / 2 ^ e)%Z).
  assert (Hp : (0 <= 2 ^ e)%Z) by (apply Z.pow_nonneg; lia).
  assert (Hq : (0 <= q)%Z) by (apply Z_div_nonneg_nonneg; lia).
  set (m := if (Z.abs x mod 2 ^ e <? 2 ^ (e - 1))%Z then q
            else if (2 ^ (e - 1) <? Z.abs x mod 2 ^ e)%Z then (q + 1)%Z
            else if Z.even q then q else (q + 1)%Z).
  assert (Hm : (0 <= m)%Z).
  { subst m. repeat match goal with |- context [if ?b then _ else _] =>
                      destruct b end; lia. }
  destruct (2 ^ 1024 <=? m * 2 ^ e)%Z; [discriminate|].
  intros [= H]. destruct x as [|x|x]; cbn [Z.sgn] in H; nia.
Qed.

Lemma reads_as_spec (a s e : Z) :
  reads_as a s e = true -> round_double (s * 10 ^ e) = Some a.
Proof.
  unfold reads_as. destruct (round_double (s * 10 ^ e)) as [r|]; [|discriminate].
  intros H. apply Z.eqb_eq in H. now subst.
Qed.

Lemma shortest_at_reads (a n k s e : Z) :
  shortest_at a n k = Some (s, e) -> reads_as a s e = true.
Proof.
  unfold shortest_at. cbv zeta.
  destruct (a / 10 ^ (n - k) + 1 =? 10 ^ k)%Z; cbn [fst snd];
    match goal with
    | |- match ?x with _ => _ end = _ -> _ => destruct x eqn:Hlo
    end;
    match goal with
    | |- match ?x with _ => _ end = _ -> _ => destruct x eqn:Hup
    end;
    repeat match goal with
           | |- (if ?b then _ else _) = _ -> _ => destruct b
           end;
    intros [= <- <-]; assumption.
Qed.

Lemma shortest_reads (fuel : nat) (a n k s e : Z) :
  is_double a = true -> shortest fuel a n k = (s, e) -> reads_as a s e = true.
Proof.
  intros Ha. revert k. induction fuel as [|fuel IH]; intros k; cbn [shortest].
  - intros [= <- <-]. unfold reads_as.
    rewrite Z.pow_0_r, Z.mul_1_r. exact Ha.
  - destruct (shortest_at a n k) as [[s' e']|] eqn:E.
    + intros [= <- <-]. now apply (shortest_at_reads a n k).
    + apply IH.
Qed.

Lemma Z_to_string_inj (a b : Z) : Z_to_string a = Z_to_string b -> a = b.
Proof.
  unfold Z_to_string. intros H.
  apply DecimalZ.to_int_inj.
  assert (Hs : Some (Z.to_int a) = Some (Z.to_int b))
    by (rewrite <- !NilEmpty.isi; now rewrite H).
  now injection Hs.
Qed.

Lemma free_of_app (c : ascii) (a b : string) :
  free_of c (a ++ b) = free_of c a && free_of c b.
Proof.
  induction a as [|x a IH]; [reflexivity|].
  simpl. rewrite IH. now rewrite andb_assoc.
Qed.

Lemma free_of_occurs (c : ascii) (a b : string) :
  free_of c (a ++ String c b) = false.
Proof.
  rewrite free_of_app. cbn [free_of]. rewrite Ascii.eqb_refl.
  now rewrite andb_false_r.
Qed.

(** Two strings cut at the first occurrence of [c] agree on both sides. *)
Lemma first_occurrence (c : ascii) (m1 m2 t1 t2 : string) :
  free_of c m1 = true -> free_of c m2 = true ->
  m1 ++ String c t1 = m2 ++ String c t2 -> m1 = m2 /\ t1 = t2.
Proof.
  revert m2. induction m1 as [|x m1 IH]; intros [|y m2]; cbn [append free_of].
  - now intros _ _ [= ->].
  - intros _ Hy [= <- _]. rewrite Ascii.eqb_refl in Hy. discriminate.
  - intros Hx _ [= -> _]. rewrite Ascii.eqb_refl in Hx. discriminate.
  - intros Hx Hy [= -> H].
    apply andb_prop in Hx as [_ Hx]. apply andb_prop in Hy as [_ Hy].
    destruct (IH m2 Hx Hy H) as [-> ->]. now split.
Qed.

(** The digits of an integer have none of the letters. *)
Lemma uint_free_of (c : ascii) (d : Decimal.uint) :
  letter c -> free_of c (NilEmpty.string_of_uint d) = true.
Proof.
  intros Hc. induction d; cbn [NilEmpty.string_of_uint free_of];
    [reflexivity | rewrite IHd, andb_true_r ..];
    destruct Hc as [->|[->|[->| ->]]]; reflexivity.
Qed.

Lemma Z_to_string_free_of (c : ascii) (z : Z) :
  letter c -> free_of c (Z_to_string z) = true.
Proof.
  intros Hc. unfold Z_to_string.
  destruct z as [|p|p]; cbn [Z.to_int NilEmpty.string_of_int free_of].
  - destruct Hc as [->|[->|[->| ->]]]; reflexivity.
  - now apply uint_free_of.
  - rewrite uint_free_of, andb_true_r by exact Hc.
    destruct Hc as [->|[->|[->| ->]]]; reflexivity.
Qed.

Lemma Z_to_string_nonempty (z : Z) : Z_to_string z <> "".
Proof.
  unfold Z_to_string.
  destruct z as [|p|p]; cbn [Z.to_int NilEmpty.string_of_int]; try discriminate.
  pose proof (Unsigned.to_uint_nonnil p) as H.
  destruct (Pos.to_uint p); [congruence | discriminate ..].
Qed.

(** The exponent form is a first character, a part without [e], and the
    exponent after [e+]. *)
Lemma exponent_string_shape (s e : Z) :
  exists c rest,
    Z_to_string s = String c rest
    /\ exponent_string s e
       = String c (match rest with
                   | EmptyString => ""
                   | _ => String "." rest
                   end
                   ++ String "e" (String "+"
                        (Z_to_string (e + Z.of_nat (String.length rest))))).
Proof.
  unfold exponent_string.
  destruct (Z_to_string s) as [|c rest] eqn:E;
    [now apply Z_to_string_nonempty in E|].
  exists c, rest. split; reflexivity.
Qed.

Lemma mantissa_free_of (c : ascii) (rest : string) :
  letter c -> free_of c rest = true ->
  free_of c match rest with
            | EmptyString => ""
            | _ => String "." rest
            end = true.
Proof.
  intros Hc Hr. destruct rest; [reflexivity|].
  cbn [free_of] in *. rewrite Hr.
  destruct Hc as [->|[->|[->| ->]]]; reflexivity.
Qed.

Lemma tail_free_of (c : ascii) (s : Z) (first : ascii) (rest : string) :
  letter c -> Z_to_string s = String first rest -> free_of c rest = true.
Proof.
  intros Hc E. pose proof (Z_to_string_free_of c s Hc) as F.
  rewrite E in F. cbn [free_of] in F. now apply andb_prop in F as [_ F].
Qed.

Lemma exponent_string_inj (s1 e1 s2 e2 : Z) :
  exponent_string s1 e1 = exponent_string s2 e2 -> s1 = s2 /\ e1 = e2.
Proof.
  assert (He : letter "e") by (left; reflexivity).
  destruct (exponent_string_shape s1 e1) as (c1 & r1 & E1 & ->).
  destruct (exponent_string_shape s2 e2) as (c2 & r2 & E2 & ->).
  intros [= -> H].
  apply first_occurrence in H as [Hm Hx].
  - assert (Hr : r1 = r2).
    { destruct r1, r2; try discriminate Hm; [reflexivity|].
      now injection Hm as -> ->. }
    subst r2. injection Hx as Hx. apply Z_to_string_inj in Hx.
    split; [|lia]. apply Z_to_string_inj. now rewrite E1, E2.
  - apply mantissa_free_of; [exact He|]. now apply (tail_free_of _ s1 c2).
  - apply mantissa_free_of; [exact He|]. now apply (tail_free_of _ s2 c2).
Qed.

Lemma exponent_string_has_e (pre : string) (s e : Z) :
  free_of "e" (pre ++ exponent_string s e) = false.
Proof.
  destruct (exponent_string_shape s e) as (c & r & _ & ->).
  rewrite free_of_app. cbn [free_of]. rewrite free_of_occurs.
  now rewrite !andb_false_r.
Qed.

(** Apart from its [e], the exponent form has none of the letters. *)
Lemma exponent_string_free_of (c : ascii) (s e : Z) :
  c = "n"%char \/ c = "x"%char \/ c = "X"%char ->
  free_of c (exponent_string s e) = true.
Proof.
  intros Hc.
  assert (Hl : letter c) by (right; exact Hc).
  destruct (exponent_string_shape s e) as (c1 & r & E & ->).
  pose proof (Z_to_string_free_of c s Hl) as F. rewrite E in F.
  cbn [free_of] in F. apply andb_prop in F as [F1 F2].
  cbn [free_of]. rewrite F1, free_of_app, mantissa_free_of by assumption.
  cbn [free_of]. rewrite Z_to_string_free_of by exact Hl.
  destruct Hc as [->|[->| ->]]; reflexivity.
Qed.

(** The first character of the digits of a positive number is a digit. *)
Lemma uint_first_digit (d : Decimal.uint) :
  d <> Decimal.Nil ->
  exists c rest k,
    NilEmpty.string_of_uint d = String c rest
    /\ digit_value 10 c = Some k
    /\ is_whitespace c = false
    /\ Ascii.eqb c "-" = false /\ Ascii.eqb c "+" = false.
Proof.
  destruct d; intros H; [congruence | ..];
    cbn [NilEmpty.string_of_uint]; do 3 eexists; repeat split.
Qed.

Lemma parse_digits_some (radix : Z) (s : string) (a : Z) :
  exists r, parse_digits radix s (Some a) = Some r.
Proof.
  revert a. induction s as [|c s IH]; intros a; cbn [parse_digits]; [eauto|].
  destruct (digit_value radix c); [apply IH | eauto].
Qed.

Lemma double_of_Z_not_NaN (z : Z) : isNaN (double_of_Z z) = false.
Proof.
  destruct (double_of_Z_cases z) as [-> | [-> | [r ->]]]; reflexivity.
Qed.

(** A digit followed by no [x] is not the hexadecimal prefix. *)
Lemma no_hex_prefix (c : ascii) (k : Z) (tail : string) :
  digit_value 10 c = Some k ->
  free_of "x" tail = true -> free_of "X" tail = true ->
  has_hex_prefix (String c tail) = None.
Proof.
  intros Hk Hx HX.
  destruct (Ascii.eqb_spec c "0") as [->|Hc].
  - destruct tail as [|c2 t]; [reflexivity|].
    cbn [free_of] in Hx, HX.
    apply andb_prop in Hx as [Hx _]. apply andb_prop in HX as [HX _].
    destruct c2 as [[] [] [] [] [] [] [] []];
      try reflexivity; discriminate.
  - destruct c as [[] [] [] [] [] [] [] []]; try reflexivity.
    now elim Hc.
Qed.

(** [parseInt] reads a number out of a string that starts, after its
    sign, with a digit that opens no hexadecimal prefix. *)
Lemma parseInt_digit_first (neg : bool) (c : ascii) (k : Z) (tail : string) :
  digit_value 10 c = Some k ->
  is_whitespace c = false ->
  Ascii.eqb c "-" = false -> Ascii.eqb c "+" = false ->
  free_of "x" tail = true -> free_of "X" tail = true ->
  isNaN (parseInt (VStr ((if neg then "-" else "") ++ String c tail))) = false.
Proof.
  intros Hk Hw Hm Hpl Hx HX.
  pose proof (no_hex_prefix c k tail Hk Hx HX) as Hhex.
  assert (Hsign : strip_sign (String c tail) = (1%Z, String c tail)).
  { destruct c as [[] [] [] [] [] [] [] []]; try reflexivity; discriminate. }
  destruct (parse_digits_some 10 tail k) as [r Hr].
  assert (Hdig : parse_digits 10 (String c tail) None = Some r).
  { cbn [parse_digits]. now rewrite Hk. }
  unfold parseInt. cbn [ToString].
  destruct neg.
  - change (strip_whitespace ("-" ++ String c tail))
      with (String "-" (String c tail)).
    cbn [strip_sign]. rewrite Hhex, Hdig. apply double_of_Z_not_NaN.
  - change ("" ++ String c tail) with (String c tail).
    cbn [strip_whitespace]. rewrite Hw, Hsign, Hhex, Hdig.
    apply double_of_Z_not_NaN.
Qed.

Lemma positive_digits (p : positive) :
  exists c rest k,
    Z_to_string (Z.pos p) = String c rest
    /\ digit_value 10 c = Some k
    /\ is_whitespace c = false
    /\ Ascii.eqb c "-" = false /\ Ascii.eqb c "+" = false.
Proof. apply uint_first_digit, Unsigned.to_uint_nonnil. Qed.

(** The three forms of the string of an integer: the digits of an integer
    that reads as it, the BigInt literal, and the exponent form. *)
Lemma integer_string_cases (z : Z) :
  (exists w, round_double (Z.abs w) = Some (Z.abs z)
             /\ Z.sgn w = Z.sgn z
             /\ integer_string z = Z_to_string w)
  \/ (z <> 0%Z /\ integer_string z = Z_to_string z ++ "n")
  \/ (exists s e, (0 < s)%Z /\ z <> 0%Z
                  /\ round_double (s * 10 ^ e) = Some (Z.abs z)
                  /\ integer_string z
                     = (if (z <? 0)%Z then "-" else "") ++ exponent_string s e).
Proof.
  unfold integer_string. cbv zeta.
  destruct (Z.ltb_spec (Z.abs z) (2 ^ 53)) as [Hs|Hb].
  - left. exists z. split; [apply round_double_small; lia|]. now split.
  - assert (Hz : z <> 0%Z) by lia.
    destruct (is_double (Z.abs z)) eqn:Hd; [|right; left; now split].
    destruct (shortest _ _ _ _) as [s e] eqn:E.
    apply shortest_reads, reads_as_spec in E; [|exact Hd].
    assert (Hp : (0 < s * 10 ^ e)%Z)
      by (apply (round_double_sign _ (Z.abs z)); [lia | exact E]).
    assert (Hs : (0 < s)%Z).
    { assert (0 <= 10 ^ e)%Z by (apply Z.pow_nonneg; lia). nia. }
    destruct (_ <=? 21)%Z.
    + left. exists (Z.sgn z * (s * 10 ^ e))%Z.
      destruct z as [|p|p]; [congruence | |]; cbn [Z.sgn].
      * rewrite Z.mul_1_l. rewrite (Z.abs_eq (s * 10 ^ e)) by lia.
        split; [exact E|]. split; [now apply Z.sgn_pos | reflexivity].
      * replace (-1 * (s * 10 ^ e))%Z with (- (s * 10 ^ e))%Z by lia.
        rewrite Z.abs_opp, (Z.abs_eq (s * 10 ^ e)) by lia.
        split; [exact E|]. split; [apply Z.sgn_neg; lia | reflexivity].
    + right. right. exists s, e. repeat split; assumption.
Qed.

(** Whatever integer is printed, [parseInt] reads a number out of it. *)
Lemma printed_integer_parses (z : Z) :
  isNaN (parseInt (VStr (integer_string z))) = false.
Proof.
  assert (Hx : letter "x") by (right; right; left; reflexivity).
  assert (HX : letter "X") by (right; right; right; reflexivity).
  destruct (integer_string_cases z)
    as [(w & _ & _ & ->) | [[Hz ->] | (s & e & Hs & _ & _ & ->)]].
  - rewrite parseInt_digits. apply double_of_Z_not_NaN.
  - destruct z as [|p|p]; [congruence | |];
      destruct (positive_digits p) as (c & rest & k & E & Hk & Hw & Hm & Hpl).
    + rewrite E.
      apply (parseInt_digit_first false c k (rest ++ "n") Hk Hw Hm Hpl);
        rewrite free_of_app, (tail_free_of _ (Z.pos p) c rest) by assumption;
        reflexivity.
    + change (Z_to_string (Z.neg p)) with ("-" ++ Z_to_string (Z.pos p)).
      rewrite E.
      apply (parseInt_digit_first true c k (rest ++ "n") Hk Hw Hm Hpl);
        rewrite free_of_app, (tail_free_of _ (Z.pos p) c rest) by assumption;
        reflexivity.
  - destruct s as [|p|p]; try lia.
    destruct (positive_digits p) as (c & rest & k & E & Hk & Hw & Hm & Hpl).
    assert (Fx : free_of "x" (exponent_string (Z.pos p) e) = true)
      by (apply exponent_string_free_of; auto).
    assert (FX : free_of "X" (exponent_string (Z.pos p) e) = true)
      by (apply exponent_string_free_of; auto).
    destruct (exponent_string_shape (Z.pos p) e) as (c' & rest' & E' & Hshape).
    rewrite E in E'. injection E' as <- <-. rewrite Hshape in *.
    cbn [free_of] in Fx, FX.
    apply andb_prop in Fx as [_ Fx]. apply andb_prop in FX as [_ FX].
    now apply (parseInt_digit_first (z <? 0)%Z c k _ Hk Hw Hm Hpl).
Qed.

Lemma integer_string_inj (a b : Z) :
  integer_string a = integer_string b -> a = b.
Proof.
  assert (He : letter "e") by (left; reflexivity).
  assert (Hn : letter "n") by (right; left; reflexivity).
  assert (Hsign : forall z, free_of "n" (if (z <? 0)%Z then "-" else "") = true)
    by (intros z; now destruct (z <? 0)%Z).
  destruct (integer_string_cases a)
    as [(w1 & R1 & S1 & ->) | [[Z1 ->] | (s1 & e1 & P1 & Z1 & R1 & ->)]];
    destruct (integer_string_cases b)
      as [(w2 & R2 & S2 & ->) | [[Z2 ->] | (s2 & e2 & P2 & Z2 & R2 & ->)]];
    intros H.
  - apply Z_to_string_inj in H. subst w2.
    assert (Z.abs a = Z.abs b) by congruence. lia.
  - pose proof (Z_to_string_free_of "n" w1 Hn) as F. rewrite H in F.
    now rewrite free_of_occurs in F.
  - pose proof (Z_to_string_free_of "e" w1 He) as F. rewrite H in F.
    now rewrite exponent_string_has_e in F.
  - pose proof (Z_to_string_free_of "n" w2 Hn) as F. rewrite <- H in F.
    now rewrite free_of_occurs in F.
  - apply first_occurrence in H as [H _];
      [now apply Z_to_string_inj | now apply Z_to_string_free_of ..].
  - pose proof (free_of_occurs "n" (Z_to_string a) "") as F. rewrite H in F.
    rewrite free_of_app, Hsign, exponent_string_free_of in F by auto.
    discriminate F.
  - pose proof (Z_to_string_free_of "e" w2 He) as F. rewrite <- H in F.
    now rewrite exponent_string_has_e in F.
  - pose proof (free_of_occurs "n" (Z_to_string b) "") as F. rewrite <- H in F.
    rewrite free_of_app, Hsign, exponent_string_free_of in F by auto.
    discriminate F.
  - assert (Hhead : forall s e, (0 < s)%Z ->
              forall t, exponent_string s e <> String "-" t).
    { intros s e Hs t.
      destruct s as [|p|p]; try lia.
      destruct (positive_digits p) as (c & r & k & E & _ & _ & Hm & _).
      destruct (exponent_string_shape (Z.pos p) e) as (c' & r' & E' & ->).
      rewrite E in E'. injection E' as <- <-.
      intros [= -> _]. discriminate Hm. }
    assert (Hsame : exponent_string s1 e1 = exponent_string s2 e2 ->
                    Z.abs a = Z.abs b).
    { intros E. apply exponent_string_inj in E as [-> ->]. congruence. }
    destruct (Z.ltb_spec a 0) as [La|La], (Z.ltb_spec b 0) as [Lb|Lb];
      cbv [String.append] in H.
    + injection H as H. apply Hsame in H. lia.
    + symmetry in H. now apply Hhead in H.
    + now apply Hhead in H.
    + apply Hsame in H. lia.
Qed.

(** ** [setVolume] on one stream *)

Section SetVolumeFacts.

Variable native : NativeBackend.

Lemma _storeVolume_descriptor (s : state) (stream : Stream) (vol : number) :
  _storeVolume (Some (Descriptor stream)) vol s
  = (Normal VUndefined, after_store s stream (Math_floor vol)).
Proof.
  unfold _storeVolume, bind, lift, ret, property_set, native_setStreamVolume,
    perform, after_store; simpl.
  now rewrite <- app_assoc.
Qed.

(** A call with a stream argument that is not [null] makes no call to
    [setVolume] itself: any positive bound gives the same result. *)
Lemma setVolume_fuel_one (fuel : nat) (s : state) (type : value)
    (stream : Stream) (v : number) :
  type <> VNull ->
  AudioBase_get s type = Some (Descriptor stream) ->
  setVolume_fuel native (S fuel) (type :: VNum v :: nil) s
  = if ToBoolean (readonly stream)
    then (Throw (Error ("stream type " ++ quote ++ name stream ++ quote
                          ++ " is readonly")), s)
    else (Normal VUndefined, after_store s stream (Math_floor (clamp v))).
Proof.
  intros Hnull Hget.
  cbn [setVolume_fuel length Nat.eqb arg nth].
  unfold bind at 1. unfold get_state at 1.
  rewrite Hget. cbn [entry_truthy negb]. rewrite andb_false_r.
  fold (clamp v).
  destruct (is_null type) eqn:Hn; [destruct type; discriminate || congruence|].
  unfold bind at 1. unfold get_state at 1. rewrite Hget.
  change (field "readonly" (Some (Descriptor stream)))
    with (Normal (A:=value) (readonly stream)).
  change (field "name" (Some (Descriptor stream)))
    with (Normal (A:=value) (VStr (name stream))).
  unfold bind, lift, throw.
  destruct (ToBoolean (readonly stream)); [reflexivity|].
  apply _storeVolume_descriptor.
Qed.

(** C1.  For a stream of the catalog that is not readonly and any number
    [v], [setVolume(stream, v)] succeeds, writes to the property store,
    under the key of the stream, the string of
    [min(100, max(0, floor(v)))], and forwards that number with the id of
    the stream to the native backend; nothing else changes.  For a finite
    [v] the number is the integer [min 100 (max 0 (floor v))], persisted as
    its decimal digits. *)
Theorem setVolume_clamps_then_floors (s : state) (type : value)
    (stream : Stream) (v : number) :
  type <> VNull ->
  AudioBase_get s type = Some (Descriptor stream) ->
  ToBoolean (readonly stream) = false ->
  setVolume native (type :: VNum v :: nil) s
    = (Normal VUndefined, after_store s stream (clamped_floor v))
  /\ (forall q, v = Finite q ->
        clamped_floor v = num_of_Z (Z.min 100 (Z.max 0 (Qfloor q)))
        /\ Number_toString (clamped_floor v)
           = Z_to_string (Z.min 100 (Z.max 0 (Qfloor q)))).
Proof.
  intros Hnull Hget Hro. split.
  - unfold setVolume. rewrite (setVolume_fuel_one 1 s type stream v Hnull Hget).
    rewrite Hro, floor_clamp. reflexivity.
  - intros q ->. rewrite clamped_floor_finite. split; [reflexivity|].
    apply Number_toString_Z. lia.
Qed.

(** C9.  With [vol = NaN] on a stream that is not readonly, [setVolume]
    does not fail: [NaN] passes the [typeof] test, both comparisons are
    false, the floor of [NaN] is [NaN], and [NaN] is what is persisted (as
    the string [NaN]) and forwarded to the native backend. *)
Theorem setVolume_NaN_is_stored (s : state) (type : value) (stream : Stream) :
  type <> VNull ->
  AudioBase_get s type = Some (Descriptor stream) ->
  ToBoolean (readonly stream) = false ->
  typeof (VNum NaN) = "number"
  /\ clamp NaN = NaN
  /\ Math_floor NaN = NaN
  /\ setVolume native (type :: VNum NaN :: nil) s
     = (Normal VUndefined,
        {| AudioBase_DEFAULT_VOLUME := AudioBase_DEFAULT_VOLUME s;
           AudioBase := AudioBase s;
           property := <[key stream := "NaN"]> (property s);
           effects := effects s
                        ++ PropertySet (VStr (key stream)) NaN
                        :: SetStreamVolume (VNum (num_of_Z (id stream))) NaN
                        :: nil |}).
Proof.
  intros Hnull Hget Hro. repeat split.
  unfold setVolume. rewrite (setVolume_fuel_one 1 s type stream NaN Hnull Hget).
  rewrite Hro. reflexivity.
Qed.

(** A stream that is not readonly: the clamped and floored volume is stored. *)
Lemma setVolume_stores (s : state) (type : value)
    (stream : Stream) (v : number) :
  type <> VNull ->
  AudioBase_get s type = Some (Descriptor stream) ->
  ToBoolean (readonly stream) = false ->
  setVolume native (type :: VNum v :: nil) s
  = (Normal VUndefined, after_store s stream (Math_floor (clamp v))).
Proof.
  intros Hnull Hget Hro.
  unfold setVolume. rewrite (setVolume_fuel_one 1 s type stream v Hnull Hget).
  now rewrite Hro.
Qed.

(** A readonly stream: the call throws and the state stays as it was. *)
Lemma setVolume_readonly (s : state) (type : value) (stream : Stream)
    (v : number) :
  type <> VNull ->
  AudioBase_get s type = Some (Descriptor stream) ->
  ToBoolean (readonly stream) = true ->
  setVolume native (type :: VNum v :: nil) s
  = (Throw (Error ("stream type " ++ quote ++ name stream ++ quote
                     ++ " is readonly")), s).
Proof.
  intros Hnull Hget Hro.
  unfold setVolume. rewrite (setVolume_fuel_one 1 s type stream v Hnull Hget).
  now rewrite Hro.
Qed.

End SetVolumeFacts.

(** ** [defineStream], [init] and loading the module *)

Lemma member_options (options : value) :
  member (if ToBoolean options then options else VObj nil) "readonly"
  = Normal (default VUndefined
              (own_property (if ToBoolean options then options else VObj nil)
                 "readonly")).
Proof.
  destruct (ToBoolean options) eqn:E; [|reflexivity].
  destruct options; try discriminate; reflexivity.
Qed.

Lemma defineStream_run (stream_id : Z) (nm : string) (options : value)
    (s : state) :
  defineStream stream_id nm options s = (Normal tt, defined s stream_id nm options).
Proof.
  unfold defineStream. unfold bind at 1. unfold lift at 1.
  rewrite member_options.
  fold (readonly_option options).
  unfold bind at 1. unfold AudioBase_set at 1.
  unfold bind at 1. unfold _getVolume at 1.
  change (field "key" (Some (Descriptor
            {| id := stream_id; name := nm; readonly := readonly_option options |})))
    with (Normal (A:=value) (VStr ("audio.volume." ++ nm))).
  unfold bind at 1. unfold lift at 1.
  unfold bind at 1. unfold property_get at 1.
  cbn [property ToString].
  unfold defined, persisted_volume.
  destruct (isNaN (parseInt (VStr (default "" (property s !! ("audio.volume." ++ nm))))));
    unfold ret at 1; cbn [is_false].
  - unfold bind at 1. unfold get_state at 1.
    unfold bind at 1. rewrite _storeVolume_descriptor. reflexivity.
  - reflexivity.
Qed.

Lemma init_run (native : NativeBackend) (s : state) :
  init native s = (Normal tt, initialised native s).
Proof.
  unfold init, initialised, bind.
  now rewrite !defineStream_run.
Qed.

Lemma has_volume_parses (props : gmap string string) (nm : string) :
  has_volume props nm <-> isNaN (persisted_volume props nm) = false.
Proof.
  unfold has_volume, persisted_volume. split.
  - intros (str & -> & Hstr). exact Hstr.
  - destruct (props !! ("audio.volume." ++ nm)) as [str|]; [eauto | discriminate].
Qed.

Lemma defined_default (s : state) (stream_id : Z) (nm : string) (o : value) :
  AudioBase_DEFAULT_VOLUME (defined s stream_id nm o) = AudioBase_DEFAULT_VOLUME s.
Proof. unfold defined. now destruct (isNaN _). Qed.

(** A finite default, once floored and printed, parses: as itself below
    [10 ^ 21], and as its first digit from there on. *)
Lemma stored_default_parses (d : number) :
  isFinite d = true ->
  isNaN (parseInt (VStr (Number_toString (Math_floor d)))) = false.
Proof.
  destruct d as [| | |q]; try discriminate. intros _. cbn [Math_floor].
  rewrite Number_toString_integer. apply printed_integer_parses.
Qed.

Lemma defined_has_volume (s : state) (stream_id : Z) (nm : string) (o : value) :
  isFinite (AudioBase_DEFAULT_VOLUME s) = true ->
  has_volume (property (defined s stream_id nm o)) nm.
Proof.
  intros Hz. unfold defined.
  destruct (isNaN (persisted_volume (property s) nm)) eqn:E.
  - exists (Number_toString (Math_floor (AudioBase_DEFAULT_VOLUME s))).
    split; [apply lookup_insert_eq | now apply stored_default_parses].
  - now apply has_volume_parses.
Qed.

Lemma defined_keeps_volume (s : state) (stream_id : Z) (nm nm' : string)
    (o : value) :
  isFinite (AudioBase_DEFAULT_VOLUME s) = true ->
  has_volume (property s) nm' ->
  has_volume (property (defined s stream_id nm o)) nm'.
Proof.
  intros Hz Hv. unfold defined.
  destruct (isNaN (persisted_volume (property s) nm)) eqn:E; [|exact Hv].
  destruct (decide ("audio.volume." ++ nm = "audio.volume." ++ nm')) as [Heq|Hne].
  - exists (Number_toString (Math_floor (AudioBase_DEFAULT_VOLUME s))).
    split; [cbn; unfold key; cbn; rewrite Heq; apply lookup_insert_eq
           | now apply stored_default_parses].
  - destruct Hv as (str & Hl & Hp). exists str. split; [|exact Hp].
    cbn. unfold key; cbn. now rewrite lookup_insert_ne.
Qed.

Lemma defined_writes_nothing (s : state) (stream_id : Z) (nm : string)
    (o : value) :
  has_volume (property s) nm ->
  property (defined s stream_id nm o) = property s
  /\ effects (defined s stream_id nm o) = effects s.
Proof.
  intros Hv. apply has_volume_parses in Hv. unfold defined. now rewrite Hv.
Qed.

Lemma defined_step (s : state) (stream_id : Z) (nm : string) (o : value)
    (l : list string) :
  isFinite (AudioBase_DEFAULT_VOLUME s) = true
  /\ Forall (has_volume (property s)) l ->
  isFinite (AudioBase_DEFAULT_VOLUME (defined s stream_id nm o)) = true
  /\ Forall (has_volume (property (defined s stream_id nm o))) (nm :: l).
Proof.
  intros [Hd Hl]. split; [now rewrite defined_default|].
  constructor; [now apply defined_has_volume|].
  eapply Forall_impl; [exact Hl|].
  intros nm' Hnm'. now apply defined_keeps_volume.
Qed.

Lemma defined_idle (s : state) (stream_id : Z) (nm : string) (o : value)
    (props : gmap string string) (past : list effect) :
  has_volume props nm ->
  property s = props /\ effects s = past ->
  property (defined s stream_id nm o) = props
  /\ effects (defined s stream_id nm o) = past.
Proof.
  intros Hv [<- <-]. now apply defined_writes_nothing.
Qed.

Lemma initialised_default (native : NativeBackend) (s : state) :
  AudioBase_DEFAULT_VOLUME (initialised native s) = AudioBase_DEFAULT_VOLUME s.
Proof.
  unfold initialised.
  repeat (etransitivity; [apply defined_default|]). reflexivity.
Qed.

Lemma initialised_has_volumes (native : NativeBackend) (s : state) :
  isFinite (AudioBase_DEFAULT_VOLUME s) = true ->
  Forall (has_volume (property (initialised native s))) stream_names.
Proof.
  intros Hd.
  assert (H : Forall (has_volume (property (initialised native s)))
                (rev stream_names)).
  { unfold initialised.
    do 7 (apply defined_step; try (split; [exact Hd | constructor])). }
  apply Forall_rev in H. now rewrite rev_involutive in H.
Qed.

Lemma initialised_writes_nothing (native : NativeBackend) (s : state) :
  Forall (has_volume (property s)) stream_names ->
  property (initialised native s) = property s
  /\ effects (initialised native s) = effects s.
Proof.
  intros H. unfold stream_names in H.
  repeat match goal with
         | H : Forall _ (_ :: _) |- _ => apply Forall_cons_iff in H as [? H]
         end.
  unfold initialised.
  do 7 (apply defined_idle; [assumption|]).
  split; reflexivity.
Qed.

Lemma load_run (native : NativeBackend) (props : gmap string string)
    (past : list effect) :
  load native props past = (Normal tt, initialised native (fresh props past)).
Proof. unfold load. cbn. apply init_run. Qed.

Lemma fresh_default (props : gmap string string) (past : list effect) :
  AudioBase_DEFAULT_VOLUME (fresh props past) = configured_default props.
Proof. reflexivity. Qed.

Lemma defined_AudioBase (s : state) (stream_id : Z) (nm : string) (o : value) :
  AudioBase (defined s stream_id nm o)
  = <[stream_key stream_id :=
        {| id := stream_id; name := nm; readonly := readonly_option o |}]>
      (AudioBase s).
Proof. unfold defined. now destruct (isNaN _). Qed.

Lemma loaded_system (native : NativeBackend) (props : gmap string string)
    (past : list effect) :
  AudioBase (snd (load native props past)) !! stream_key (STREAM_SYSTEM native)
  = Some (system_stream native).
Proof.
  rewrite load_run. cbn [snd]. unfold initialised.
  rewrite defined_AudioBase. apply lookup_insert_eq.
Qed.

Lemma AudioBase_get_descriptor (s : state) (stream_id : Z) (stream : Stream) :
  AudioBase s !! stream_key stream_id = Some stream ->
  AudioBase_get s (VNum (num_of_Z stream_id)) = Some (Descriptor stream).
Proof.
  intros H. unfold AudioBase_get. fold (stream_key stream_id). now rewrite H.
Qed.

(** With a descriptor behind the stream argument, anything but a number as
    volume is refused, and the state stays as it was. *)
Lemma setVolume_not_a_number (native : NativeBackend) (s : state)
    (type vol : value) (stream : Stream) :
  AudioBase_get s type = Some (Descriptor stream) ->
  typeof vol <> "number" ->
  setVolume native (type :: vol :: nil) s
  = (Throw (TypeError "vol must be a number"), s).
Proof.
  intros Hget Hvol. unfold setVolume.
  cbn [setVolume_fuel length Nat.eqb arg nth].
  unfold bind at 1. unfold get_state at 1.
  rewrite Hget. cbn [entry_truthy negb]. rewrite andb_false_r.
  destruct vol; try reflexivity. now elim Hvol.
Qed.

(** C3.  In every state whose catalog is the one [init] builds, and for
    every number [v], [setVolume] on the system stream throws the readonly
    error, and the state after the call is the state before it: nothing is
    written to the property store and nothing is forwarded.  A volume that
    is not a number is refused as well, by the test on its type, and
    nothing changes either. *)
Theorem setVolume_system_readonly (native : NativeBackend)
    (props : gmap string string) (past : list effect) (s : state) (v : number) :
  AudioBase s = AudioBase (snd (load native props past)) ->
  setVolume native (VNum (num_of_Z (STREAM_SYSTEM native)) :: VNum v :: nil) s
    = (Throw (Error ("stream type " ++ quote ++ "system" ++ quote
                       ++ " is readonly")), s)
  /\ (forall vol, exists e,
        setVolume native
          (VNum (num_of_Z (STREAM_SYSTEM native)) :: vol :: nil) s
        = (Throw e, s)).
Proof.
  intros Hcat.
  assert (Hget : AudioBase_get s (VNum (num_of_Z (STREAM_SYSTEM native)))
                 = Some (Descriptor (system_stream native))).
  { apply AudioBase_get_descriptor. rewrite Hcat. apply loaded_system. }
  assert (Hnum : forall n,
            setVolume native
              (VNum (num_of_Z (STREAM_SYSTEM native)) :: VNum n :: nil) s
            = (Throw (Error ("stream type " ++ quote ++ "system" ++ quote
                               ++ " is readonly")), s)).
  { intros n.
    apply (setVolume_readonly native s _ (system_stream native) n);
      [discriminate | exact Hget | reflexivity]. }
  split; [apply Hnum|].
  intros vol.
  destruct (string_dec (typeof vol) "number") as [Hty|Hty].
  - destruct vol; try discriminate Hty. eexists. apply Hnum.
  - eexists. apply (setVolume_not_a_number native s _ vol _ Hget Hty).
Qed.

Lemma load_result (native : NativeBackend) (props : gmap string string)
    (past : list effect) :
  isFinite (configured_default props) = true
  \/ Forall (has_volume props) stream_names ->
  fst (load native props past) = Normal tt
  /\ Forall (has_volume (property (snd (load native props past)))) stream_names.
Proof.
  intros H. rewrite load_run. split; [reflexivity|]. cbn [snd].
  destruct H as [H|H].
  - now apply (initialised_has_volumes native (fresh props past)).
  - destruct (initialised_writes_nothing native (fresh props past) H) as [-> _].
    exact H.
Qed.

Lemma init_again (native : NativeBackend) (s : state) :
  Forall (has_volume (property s)) stream_names ->
  exists s2, init native s = (Normal tt, s2)
             /\ property s2 = property s /\ effects s2 = effects s.
Proof.
  intros H. exists (initialised native s). split; [apply init_run|].
  now apply initialised_writes_nothing.
Qed.

Lemma load_again (native : NativeBackend) (s : state) :
  Forall (has_volume (property s)) stream_names ->
  exists s2, load native (property s) (effects s) = (Normal tt, s2)
             /\ property s2 = property s /\ effects s2 = effects s.
Proof.
  intros H. eexists. split; [apply load_run|].
  apply (initialised_writes_nothing native (fresh (property s) (effects s))).
  exact H.
Qed.

Lemma defineStream_writes (s : state) (stream_id : Z) (nm : string)
    (options : value) :
  exists s', defineStream stream_id nm options s = (Normal tt, s')
    /\ if isNaN (persisted_volume (property s) nm)
       then property s'
            = <["audio.volume." ++ nm :=
                  Number_toString (Math_floor (AudioBase_DEFAULT_VOLUME s))]>
                (property s)
            /\ effects s'
               = (effects s
                    ++ PropertySet (VStr ("audio.volume." ++ nm))
                         (Math_floor (AudioBase_DEFAULT_VOLUME s))
                    :: SetStreamVolume (VNum (num_of_Z stream_id))
                         (Math_floor (AudioBase_DEFAULT_VOLUME s))
                    :: nil)%list
       else property s' = property s /\ effects s' = effects s.
Proof.
  eexists. split; [apply defineStream_run|].
  unfold defined.
  destruct (isNaN (persisted_volume (property s) nm)); split; reflexivity.
Qed.

(** C7.  When the configured default is finite, or every stream has a
    persisted volume that parses to begin with, loading the module runs
    [init] to completion, after which each of the seven streams has a
    persisted volume that parses; running [init] again, or loading the
    module again over the resulting store, leaves the property store and
    the list of effects as they were.  In every state, [defineStream]
    writes the floored default, once to the store and once to the backend,
    exactly when the persisted value of its stream parses as [NaN], and
    writes nothing otherwise. *)
Theorem init_persists_defaults_once (native : NativeBackend)
    (props : gmap string string) (past : list effect) :
  isFinite (configured_default props) = true
  \/ Forall (has_volume props) stream_names ->
  let s1 := snd (load native props past) in
  fst (load native props past) = Normal tt
  /\ Forall (has_volume (property s1)) stream_names
  /\ (exists s2, init native s1 = (Normal tt, s2)
                 /\ property s2 = property s1 /\ effects s2 = effects s1)
  /\ (exists s2, load native (property s1) (effects s1) = (Normal tt, s2)
                 /\ property s2 = property s1 /\ effects s2 = effects s1)
  /\ (forall s stream_id nm options,
        exists s', defineStream stream_id nm options s = (Normal tt, s')
          /\ if isNaN (persisted_volume (property s) nm)
             then property s'
                  = <["audio.volume." ++ nm :=
                        Number_toString (Math_floor (AudioBase_DEFAULT_VOLUME s))]>
                      (property s)
                  /\ effects s'
                     = (effects s
                          ++ PropertySet (VStr ("audio.volume." ++ nm))
                               (Math_floor (AudioBase_DEFAULT_VOLUME s))
                          :: SetStreamVolume (VNum (num_of_Z stream_id))
                               (Math_floor (AudioBase_DEFAULT_VOLUME s))
                          :: nil)%list
             else property s' = property s /\ effects s' = effects s).
Proof.
  intros Hd s1. subst s1.
  destruct (load_result native props past Hd) as [Hrun Hall].
  split; [exact Hrun|]. split; [exact Hall|].
  split; [apply init_again, Hall|].
  split; [apply load_again, Hall|].
  intros s stream_id nm options. apply defineStream_writes.
Qed.

(** ** [setVolumeShaper] *)

Section ShaperFacts.

Variable native : NativeBackend.

Local Open Scope list_scope.

Lemma native_setCurveForVolume_run (s : state) (items : list value) (i : nat) :
  native_setCurveForVolume native (Z.of_nat i)
    (default VUndefined (nth_error items (Z.to_nat (Z.of_nat i)))) s
  = (Normal (setCurveForVolume_accepts native (effects s) (Z.of_nat i)
               (default VUndefined (nth_error items i))),
     with_effects s (effects s ++ curve_point items i :: nil)).
Proof. rewrite Nat2Z.id. reflexivity. Qed.

Lemma curve_points_snoc (items : list value) (from count : nat) :
  curve_points items from (S count)
  = curve_points items from count ++ curve_point items (from + count) :: nil.
Proof. unfold curve_points. now rewrite seq_S, map_app. Qed.

Lemma curve_points_cons (items : list value) (from count : nat) :
  curve_points items from (S count)
  = curve_point items from :: curve_points items (S from) count.
Proof. reflexivity. Qed.

(** The loop from index [i] on, when every remaining point is accepted. *)
Lemma curve_loop_all (items : list value) (count i : nat) (s : state) :
  (forall j, i <= j < i + count ->
     setCurveForVolume_accepts native
       (effects s ++ curve_points items i (j - i)) (Z.of_nat j)
       (default VUndefined (nth_error items j)) = true) ->
  curve_loop native count (Z.of_nat i) items s
  = (Normal (VBool true),
     with_effects s (effects s ++ curve_points items i count)).
Proof.
  revert i s. induction count as [|count IH]; intros i s Hacc.
  - cbn. unfold ret, with_effects, curve_points. cbn. rewrite app_nil_r.
    now destruct s.
  - cbn [curve_loop]. unfold bind at 1.
    rewrite native_setCurveForVolume_run.
    pose proof (Hacc i ltac:(lia)) as Hi.
    rewrite Nat.sub_diag in Hi. unfold curve_points in Hi at 1. cbn in Hi.
    rewrite app_nil_r in Hi. rewrite Hi.
    replace (Z.of_nat i + 1)%Z with (Z.of_nat (S i)) by lia.
    rewrite IH.
    + unfold with_effects. cbn. rewrite <- app_assoc. reflexivity.
    + intros j Hj. cbn [effects with_effects]. rewrite <- app_assoc.
      specialize (Hacc j ltac:(lia)).
      replace (j - i) with (S (j - S i)) in Hacc by lia.
      rewrite curve_points_cons in Hacc. exact Hacc.
Qed.

(** The loop from index [i] on, when the point [k] is the first refused. *)
Lemma curve_loop_refused (items : list value) (count i k : nat) (s : state) :
  i <= k < i + count ->
  (forall j, i <= j < k ->
     setCurveForVolume_accepts native
       (effects s ++ curve_points items i (j - i)) (Z.of_nat j)
       (default VUndefined (nth_error items j)) = true) ->
  setCurveForVolume_accepts native
    (effects s ++ curve_points items i (k - i)) (Z.of_nat k)
    (default VUndefined (nth_error items k)) = false ->
  curve_loop native count (Z.of_nat i) items s
  = (Throw (RangeError "out of range when set volume shape."),
     with_effects s (effects s ++ curve_points items i (S (k - i)))).
Proof.
  revert i s. induction count as [|count IH]; intros i s Hk Hacc Hrej; [lia|].
  cbn [curve_loop]. unfold bind at 1.
  rewrite native_setCurveForVolume_run.
  destruct (Nat.eq_dec i k) as [->|Hne].
  - rewrite Nat.sub_diag in *. unfold curve_points in Hrej at 1. cbn in Hrej.
    rewrite app_nil_r in Hrej. rewrite Hrej. reflexivity.
  - pose proof (Hacc i ltac:(lia)) as Hi.
    rewrite Nat.sub_diag in Hi. unfold curve_points in Hi at 1. cbn in Hi.
    rewrite app_nil_r in Hi. rewrite Hi.
    replace (Z.of_nat i + 1)%Z with (Z.of_nat (S i)) by lia.
    rewrite (IH (S i)).
    + unfold with_effects. cbn [effects]. rewrite <- app_assoc.
      replace (S (k - i)) with (S (S (k - S i))) by lia.
      rewrite (curve_points_cons items i). reflexivity.
    + lia.
    + intros j Hj. cbn [effects with_effects]. rewrite <- app_assoc.
      specialize (Hacc j ltac:(lia)).
      replace (j - i) with (S (j - S i)) in Hacc by lia.
      rewrite curve_points_cons in Hacc. exact Hacc.
    + cbn [effects with_effects]. rewrite <- app_assoc.
      replace (k - i) with (S (k - S i)) in Hrej by lia.
      rewrite curve_points_cons in Hrej. exact Hrej.
Qed.

(** C4.  [setVolumeShaper(shaper)] calls the shaper with [100].  If the
    result is not an array, it throws the [Error] about the shape and the
    state is untouched.  Otherwise it sends the points for the indices
    [0, 1, ..., 100] in that order: if the backend accepts all 101 it
    returns [true]; if the point for index [k] is the first the backend
    refuses, it throws the [RangeError] at once, and the points for
    [0, ..., k] stay among the effects. *)
Theorem setVolumeShaper_forwards_curve (shaper : value -> value) (s : state) :
  match shaper (VNum (num_of_Z 100)) with
  | VArr items =>
      ((forall i, i <= 100 -> point_accepted native (effects s) items i = true) ->
       setVolumeShaper native shaper s
       = (Normal (VBool true),
          with_effects s (effects s ++ curve_points items 0 101)))
      /\ (forall k, k <= 100 ->
            (forall i, i < k ->
               point_accepted native (effects s) items i = true) ->
            point_accepted native (effects s) items k = false ->
            setVolumeShaper native shaper s
            = (Throw (RangeError "out of range when set volume shape."),
               with_effects s (effects s ++ curve_points items 0 (S k))))
  | _ =>
      setVolumeShaper native shaper s
      = (Throw (Error
           "shaper function should return an array with 100 elements."), s)
  end.
Proof.
  unfold setVolumeShaper.
  destruct (shaper (VNum (num_of_Z 100))) as [| | | | |items| |];
    try reflexivity.
  change (Z.to_nat (100 + 1)) with 101.
  split.
  - intros Hacc. apply (curve_loop_all items 101 0 s).
    intros j Hj. rewrite Nat.sub_0_r. apply Hacc. lia.
  - intros k Hk Hacc Hrej.
    replace (S k) with (S (k - 0)) by lia.
    apply (curve_loop_refused items 101 0 k s).
    + lia.
    + intros j Hj. rewrite Nat.sub_0_r. apply Hacc. lia.
    + rewrite Nat.sub_0_r. exact Hrej.
Qed.

End ShaperFacts.

(** ** Keys of [AudioBase] *)

Lemma numeric_head_app (a b : string) :
  numeric_head a = true -> numeric_head (a ++ b) = true.
Proof. destruct a; [discriminate | intros H; exact H]. Qed.

Lemma uint_head (d : Decimal.uint) :
  d <> Decimal.Nil -> numeric_head (NilEmpty.string_of_uint d) = true.
Proof. destruct d; intros H; [congruence | reflexivity ..]. Qed.

Lemma Z_to_string_head (z : Z) : numeric_head (Z_to_string z) = true.
Proof.
  destruct z as [|p|p]; [reflexivity | | reflexivity].
  apply uint_head, Unsigned.to_uint_nonnil.
Qed.

Lemma integer_string_head (z : Z) : numeric_head (integer_string z) = true.
Proof.
  destruct (integer_string_cases z)
    as [(w & _ & _ & ->) | [[_ ->] | (s & e & _ & _ & _ & ->)]].
  - apply Z_to_string_head.
  - apply numeric_head_app, Z_to_string_head.
  - destruct (z <? 0)%Z; [reflexivity|].
    destruct (exponent_string_shape s e) as (c & r & E & ->).
    pose proof (Z_to_string_head s) as H. rewrite E in H. exact H.
Qed.

Lemma Number_toString_head (n : number) : numeric_head (Number_toString n) = true.
Proof.
  destruct n as [| | |q]; try reflexivity.
  unfold Number_toString.
  destruct (is_integer q); [apply integer_string_head|].
  destruct (Qle_bool 0 q); [|reflexivity].
  apply (numeric_head_app (Z_to_string (Qfloor (Qabs q)))), Z_to_string_head.
Qed.

Lemma numeric_head_no_member (k : string) :
  numeric_head k = true ->
  String.eqb k "DEFAULT_VOLUME" = false /\ Object_prototype k = None.
Proof.
  destruct k as [|c k]; [discriminate|].
  destruct c as [[] [] [] [] [] [] [] []]; intros H;
    try discriminate H; split; reflexivity.
Qed.

(** A number names neither [DEFAULT_VOLUME] nor an inherited member: it
    reaches the catalog or nothing. *)
Lemma AudioBase_get_number (s : state) (n : number) :
  AudioBase s !! ToString (VNum n) = None -> AudioBase_get s (VNum n) = None.
Proof.
  intros H. unfold AudioBase_get. rewrite H.
  destruct (numeric_head_no_member (ToString (VNum n))) as [-> ->];
    [apply Number_toString_head | reflexivity].
Qed.

Lemma stream_key_eq (z : Z) : stream_key z = integer_string z.
Proof. apply Number_toString_integer. Qed.

(** Two stream ids have the same key only when they are the same. *)
Lemma stream_key_inj (a b : Z) : stream_key a = stream_key b -> a = b.
Proof. rewrite !stream_key_eq. apply integer_string_inj. Qed.

Lemma initialised_AudioBase (native : NativeBackend) (s : state) :
  AudioBase (initialised native s)
  = foldl (fun m d => <[stream_key (id d) := d]> m) (AudioBase s)
      (catalog native).
Proof.
  unfold initialised. rewrite !defined_AudioBase. reflexivity.
Qed.

(** When the seven stream constants are distinct, each of them leads to its
    own descriptor. *)
Lemma loaded_catalog (native : NativeBackend) (props : gmap string string)
    (past : list effect) :
  NoDup (stream_ids native) ->
  Forall (fun d => AudioBase (snd (load native props past)) !! stream_key (id d)
                   = Some d)
    (catalog native).
Proof.
  intros Hnd. rewrite load_run. cbn [snd]. rewrite initialised_AudioBase.
  generalize (AudioBase (fresh props past)). intros m.
  unfold stream_ids in Hnd.
  repeat (apply NoDup_cons in Hnd as [? Hnd]).
  repeat match goal with
         | H : _ ∉ _ :: _ |- _ => apply not_elem_of_cons in H as [? H]
         end.
  unfold catalog. cbn [foldl id].
  repeat constructor; cbn [id];
    repeat first
      [ apply lookup_insert_eq
      | rewrite lookup_insert_ne
          by (let E := fresh in intros E; apply stream_key_inj in E; congruence) ].
Qed.

(** ** [getVolume] *)

Section GetVolumeFacts.

Variable native : NativeBackend.

Lemma _getVolume_descriptor (s : state) (stream : Stream) :
  _getVolume (Some (Descriptor stream)) s
  = (Normal (reading (property s) (name stream)), s).
Proof.
  unfold _getVolume.
  change (field "key" (Some (Descriptor stream)))
    with (Normal (A:=value) (VStr (key stream))).
  unfold bind, lift, property_get, reading, persisted_volume, key. cbn [ToString].
  now destruct (isNaN _).
Qed.

Lemma getVolume_omitted (s : state) (tts : Stream) :
  AudioBase s !! stream_key (STREAM_TTS native) = Some tts ->
  getVolume native nil s = (Normal (reading (property s) (name tts)), s).
Proof.
  intros H. unfold getVolume. cbn [arg nth].
  unfold bind at 1. unfold get_state at 1.
  rewrite (AudioBase_get_descriptor s _ tts H).
  apply _getVolume_descriptor.
Qed.

Lemma getVolume_unknown (s : state) (stream : value) :
  stream <> VUndefined ->
  AudioBase_get s stream = None ->
  getVolume native (stream :: nil) s
  = (Throw (TypeError "invalid stream type"), s).
Proof.
  intros Hu H. unfold getVolume. cbn [arg nth].
  unfold bind at 1. unfold get_state at 1. rewrite H.
  destruct stream; try reflexivity. congruence.
Qed.

Lemma getVolume_known (s : state) (stream : value) (d : Stream) :
  stream <> VUndefined ->
  AudioBase_get s stream = Some (Descriptor d) ->
  getVolume native (stream :: nil) s
  = (Normal (reading (property s) (name d)), s).
Proof.
  intros Hu H. unfold getVolume. cbn [arg nth].
  unfold bind at 1. unfold get_state at 1. rewrite H.
  destruct stream; try apply _getVolume_descriptor. congruence.
Qed.

(** C5.  In a state whose catalog is the one [init] builds from distinct
    stream constants, [getVolume()] reads the persisted volume of the tts
    stream.  In any state, [getVolume(x)] throws [invalid stream type]
    when [AudioBase[x]] is [undefined], which for a number [x] means that
    [x] is not a key of the catalog; and for a stream of the catalog whose
    persisted string does not parse, it returns [false] and leaves the
    state alone. *)
Theorem getVolume_default_unknown_unset (s : state) :
  (forall props past,
     NoDup (stream_ids native) ->
     AudioBase s = AudioBase (snd (load native props past)) ->
     getVolume native nil s = (Normal (reading (property s) "tts"), s))
  /\ (forall stream,
        stream <> VUndefined -> AudioBase_get s stream = None ->
        getVolume native (stream :: nil) s
        = (Throw (TypeError "invalid stream type"), s))
  /\ (forall n,
        AudioBase s !! ToString (VNum n) = None ->
        getVolume native (VNum n :: nil) s
        = (Throw (TypeError "invalid stream type"), s))
  /\ (forall stream d,
        stream <> VUndefined ->
        AudioBase_get s stream = Some (Descriptor d) ->
        isNaN (persisted_volume (property s) (name d)) = true ->
        getVolume native (stream :: nil) s = (Normal (VBool false), s)).
Proof.
  split; [|split; [|split]].
  - intros props past Hnd Hcat.
    pose proof (loaded_catalog native props past Hnd) as Hall.
    unfold catalog in Hall.
    apply Forall_cons in Hall as [_ Hall]. apply Forall_cons in Hall as [Htts _].
    rewrite <- Hcat in Htts. cbn [id] in Htts.
    apply (getVolume_omitted s _ Htts).
  - apply getVolume_unknown.
  - intros n H. apply getVolume_unknown; [discriminate|].
    now apply AudioBase_get_number.
  - intros stream d Hu H Hnan.
    rewrite (getVolume_known s stream d Hu H). unfold reading. now rewrite Hnan.
Qed.

End GetVolumeFacts.

(** ** [setVolume] with a falsy stream argument *)

Section FalsyTypeFacts.

Variable native : NativeBackend.

(** A falsy value names neither [DEFAULT_VOLUME] nor an inherited member. *)
Lemma AudioBase_get_falsy (s : state) (type : value) :
  ToBoolean type = false ->
  AudioBase s !! ToString type = None -> AudioBase_get s type = None.
Proof.
  intros Hf H. destruct type as [| |[|]|n|str|l|l|f]; try discriminate Hf;
    try (unfold AudioBase_get; rewrite H; reflexivity).
  - now apply AudioBase_get_number.
  - cbn in Hf. apply negb_false_iff, String.eqb_eq in Hf. subst str.
    unfold AudioBase_get. rewrite H. reflexivity.
Qed.

(** C10.  With two arguments, a falsy stream argument other than [null]
    that is not a key of the catalog skips the test that throws
    [invalid stream type]: the call fails when [readonly] is read from the
    missing entry, with the engine's own [TypeError], and changes nothing.
    A truthy argument for which [AudioBase] has nothing does throw
    [invalid stream type]. *)
Theorem setVolume_falsy_type_skips_check (s : state) (type : value)
    (v : number) :
  ToBoolean type = false ->
  type <> VNull ->
  AudioBase s !! ToString type = None ->
  setVolume native (type :: VNum v :: nil) s
    = (Throw (EngineTypeError "readonly"), s)
  /\ (forall type' vol,
        ToBoolean type' = true -> AudioBase_get s type' = None ->
        setVolume native (type' :: vol :: nil) s
        = (Throw (TypeError "invalid stream type"), s)).
Proof.
  intros Hfalsy Hnull Hkey.
  pose proof (AudioBase_get_falsy s type Hfalsy Hkey) as Hget. split.
  - unfold setVolume.
    cbn [setVolume_fuel length Nat.eqb arg nth].
    unfold bind at 1. unfold get_state at 1.
    rewrite Hfalsy. cbn [andb].
    destruct (is_null type) eqn:Hn; [destruct type; discriminate || congruence|].
    unfold bind at 1. unfold get_state at 1. rewrite Hget.
    reflexivity.
  - intros type' vol Ht Hg. unfold setVolume.
    cbn [setVolume_fuel length Nat.eqb arg nth].
    unfold bind at 1. unfold get_state at 1.
    rewrite Ht, Hg. reflexivity.
Qed.

End FalsyTypeFacts.

(** ** [setVolume] without a stream argument *)

Section BroadcastFacts.

Variable native : NativeBackend.

Local Open Scope list_scope.

Lemma clamp_clamp (v : number) : clamp (clamp v) = clamp v.
Proof.
  unfold clamp at 2 3.
  destruct (number_gtb v (num_of_Z 100)) eqn:Hhi; [reflexivity|].
  destruct (number_ltb v (num_of_Z 0)) eqn:Hlo; [reflexivity|].
  unfold clamp. now rewrite Hhi, Hlo.
Qed.

(** With a stream argument that is not [null], the bound does not matter. *)
Lemma setVolume_fuel_stream (f f' : nat) (type vol : value) (s : state) :
  is_null type = false ->
  setVolume_fuel native (S f) (type :: vol :: nil) s
  = setVolume_fuel native (S f') (type :: vol :: nil) s.
Proof.
  intros Hn. cbn [setVolume_fuel length Nat.eqb arg nth].
  unfold bind, get_state.
  destruct (ToBoolean type && negb (entry_truthy (AudioBase_get s type)));
    [reflexivity|].
  destruct vol; try reflexivity. now rewrite Hn.
Qed.

Lemma sequence_app_throw (pre post : list (M value)) (m : M value)
    (s s' s'' : state) (u : value) (e : exn) :
  sequence_ pre s = (Normal u, s') ->
  m s' = (Throw e, s'') ->
  sequence_ (pre ++ m :: post) s = (Throw e, s'').
Proof.
  revert s. induction pre as [|m0 pre IH]; intros s Hpre Hm.
  - cbn in Hpre. unfold ret in Hpre. injection Hpre as _ <-.
    cbn. unfold bind. now rewrite Hm.
  - cbn in *. unfold bind in *.
    destruct (m0 s) as [[a| |] s0]; try discriminate.
    now apply IH.
Qed.

Lemma setVolume_fuel_omitted (f : nat) (s : state) (v : number) :
  setVolume_fuel native (S f) (VNum v :: nil) s
  = (setVolume_fuel native f
       (VNum (num_of_Z (STREAM_AUDIO native)) :: VNum (clamp v) :: nil);;;
     setVolume_fuel native f
       (VNum (num_of_Z (STREAM_PLAYBACK native)) :: VNum (clamp v) :: nil);;;
     setVolume_fuel native f
       (VNum (num_of_Z (STREAM_TTS native)) :: VNum (clamp v) :: nil);;;
     setVolume_fuel native f
       (VNum (num_of_Z (STREAM_RING native)) :: VNum (clamp v) :: nil);;;
     ret VUndefined) s.
Proof. reflexivity. Qed.

Lemma setVolume_broadcast (s : state) (v : number) :
  setVolume native (VNum v :: nil) s = sequence_ (sub_calls native (clamp v)) s.
Proof.
  unfold setVolume at 1. rewrite setVolume_fuel_omitted.
  unfold sub_calls, sequence_, setVolume. cbn [map fold_right].
  unfold bind.
  repeat (rewrite (setVolume_fuel_stream 0 1) by reflexivity;
          match goal with
          | |- context [setVolume_fuel native 2 ?a ?s] =>
              destruct (setVolume_fuel native 2 a s) as [[?| |] ?];
              try reflexivity
          end).
Qed.

Lemma setVolume_fuel_any (f g : nat) (args : list value) (s : state) :
  setVolume_fuel native (S (S f)) args s = setVolume_fuel native (S (S g)) args s.
Proof.
  remember (S f) as f1 eqn:Hf. remember (S g) as g1 eqn:Hg.
  cbn [setVolume_fuel].
  destruct (if Nat.eqb (length args) 1 then (VNull, arg 0 args)
            else (arg 0 args, arg 1 args)) as [type vol].
  unfold bind, get_state.
  destruct (ToBoolean type && negb (entry_truthy (AudioBase_get s type)));
    [reflexivity|].
  destruct vol; try reflexivity.
  destruct (is_null type); [|reflexivity].
  subst f1 g1.
  repeat (rewrite (setVolume_fuel_stream f g) by reflexivity;
          match goal with
          | |- context [setVolume_fuel native (S g) ?a ?s] =>
              destruct (setVolume_fuel native (S g) a s) as [[?| |] ?];
              try reflexivity
          end).
Qed.

(** The bound [setVolume] gives itself is enough: a larger one changes
    nothing. *)
Lemma setVolume_fuel_enough (f : nat) (args : list value) (s : state) :
  setVolume_fuel native (S (S f)) args s = setVolume native args s.
Proof. apply (setVolume_fuel_any f 0). Qed.

Lemma sub_call_stores (s : state) (stream_id : Z) (stream : Stream)
    (v : number) (k : value -> M value) :
  AudioBase s !! stream_key stream_id = Some stream ->
  ToBoolean (readonly stream) = false ->
  bind (setVolume native (VNum (num_of_Z stream_id) :: VNum (clamp v) :: nil)) k s
  = k VUndefined (after_store s stream (clamped_floor v)).
Proof.
  intros Hget Hro. unfold bind.
  rewrite (setVolume_stores native s _ stream (clamp v));
    [ | discriminate | now apply AudioBase_get_descriptor | exact Hro ].
  now rewrite clamp_clamp, floor_clamp.
Qed.

Lemma broadcast_stores (s : state) (v : number) (audio playback tts ring : Stream) :
  AudioBase s !! stream_key (STREAM_AUDIO native) = Some audio ->
  AudioBase s !! stream_key (STREAM_PLAYBACK native) = Some playback ->
  AudioBase s !! stream_key (STREAM_TTS native) = Some tts ->
  AudioBase s !! stream_key (STREAM_RING native) = Some ring ->
  ToBoolean (readonly audio) = false ->
  ToBoolean (readonly playback) = false ->
  ToBoolean (readonly tts) = false ->
  ToBoolean (readonly ring) = false ->
  setVolume native (VNum v :: nil) s
  = (Normal VUndefined,
     after_store
       (after_store
          (after_store (after_store s audio (clamped_floor v))
             playback (clamped_floor v))
          tts (clamped_floor v))
       ring (clamped_floor v)).
Proof.
  intros Ha Hp Ht Hr Ra Rp Rt Rr.
  rewrite setVolume_broadcast. unfold sub_calls, sequence_.
  cbn [map fold_right].
  set (x := clamped_floor v).
  rewrite (sub_call_stores s _ audio v _ Ha Ra). cbv beta.
  rewrite (sub_call_stores (after_store s audio x) _ playback v _ Hp Rp).
  cbv beta.
  rewrite (sub_call_stores (after_store (after_store s audio x) playback x)
             _ tts v _ Ht Rt).
  cbv beta.
  rewrite (sub_call_stores
             (after_store (after_store (after_store s audio x) playback x) tts x)
             _ ring v _ Hr Rr).
  reflexivity.
Qed.

(** A call for one stream that throws leaves the state as it found it. *)
Lemma setVolume_throw_unchanged (type vol : value) (s s' : state) (e : exn) :
  is_null type = false ->
  setVolume native (type :: vol :: nil) s = (Throw e, s') -> s' = s.
Proof.
  intros Hn. unfold setVolume. rewrite (setVolume_fuel_stream 1 0) by exact Hn.
  cbn [setVolume_fuel length Nat.eqb arg nth].
  unfold bind at 1. unfold get_state at 1.
  destruct (ToBoolean type && negb (entry_truthy (AudioBase_get s type))).
  { unfold throw. now intros [= _ <-]. }
  destruct vol as [| | |n| | | |]; try (unfold throw; now intros [= _ <-]).
  rewrite Hn. unfold bind at 1. unfold get_state at 1.
  destruct (AudioBase_get s type) as [[stream|pv]|].
  - change (field "readonly" (Some (Descriptor stream)))
      with (Normal (A:=value) (readonly stream)).
    change (field "name" (Some (Descriptor stream)))
      with (Normal (A:=value) (VStr (name stream))).
    unfold bind at 1. unfold lift at 1.
    destruct (ToBoolean (readonly stream)).
    + unfold bind, lift, throw. now intros [= _ <-].
    + rewrite _storeVolume_descriptor. discriminate.
  - destruct pv; cbn; discriminate.
  - cbn. now intros [= _ <-].
Qed.

(** [setVolume] always comes to an end within its bound. *)
Lemma setVolume_stream_total (type vol : value) (s : state) :
  is_null type = false ->
  fst (setVolume native (type :: vol :: nil) s) <> OutOfFuel.
Proof.
  intros Hn. unfold setVolume. rewrite (setVolume_fuel_stream 1 0) by exact Hn.
  cbn [setVolume_fuel length Nat.eqb arg nth].
  unfold bind at 1. unfold get_state at 1.
  destruct (ToBoolean type && negb (entry_truthy (AudioBase_get s type)));
    [discriminate|].
  destruct vol as [| | |n| | | |]; try discriminate.
  rewrite Hn. unfold bind at 1. unfold get_state at 1.
  destruct (AudioBase_get s type) as [[stream|pv]|].
  - change (field "readonly" (Some (Descriptor stream)))
      with (Normal (A:=value) (readonly stream)).
    change (field "name" (Some (Descriptor stream)))
      with (Normal (A:=value) (VStr (name stream))).
    unfold bind at 1. unfold lift at 1.
    destruct (ToBoolean (readonly stream)).
    + discriminate.
    + rewrite _storeVolume_descriptor. discriminate.
  - destruct pv; cbn; discriminate.
  - discriminate.
Qed.

Lemma setVolume_total (args : list value) (s : state) :
  fst (setVolume native args s) <> OutOfFuel.
Proof.
  unfold setVolume. change 2 with (S 1). remember 1 as f eqn:Hf.
  assert (Hsub : forall stream_id vol s0,
            fst (setVolume_fuel native f
                   (VNum (num_of_Z stream_id) :: VNum vol :: nil) s0)
            <> OutOfFuel).
  { intros stream_id vol s0. subst f.
    rewrite (setVolume_fuel_stream 0 1) by reflexivity.
    now apply setVolume_stream_total. }
  cbn [setVolume_fuel].
  destruct (if Nat.eqb (length args) 1 then (VNull, arg 0 args)
            else (arg 0 args, arg 1 args)) as [type vol].
  unfold bind at 1. unfold get_state at 1.
  destruct (ToBoolean type && negb (entry_truthy (AudioBase_get s type)));
    [discriminate|].
  destruct vol as [| | |n| | | |]; try discriminate.
  destruct (is_null type) eqn:Hn.
  - unfold bind.
    repeat match goal with
           | |- context [setVolume_fuel native f ?a ?s0] =>
               let H := fresh in
               pose proof (Hsub _ _ s0 : fst (setVolume_fuel native f a s0)
                                         <> OutOfFuel) as H;
               destruct (setVolume_fuel native f a s0) as [[?| |] ?];
               [ clear H | discriminate | now elim H ]
           end.
    discriminate.
  - unfold bind at 1. unfold get_state at 1.
    destruct (AudioBase_get s type) as [[stream|pv]|].
    + change (field "readonly" (Some (Descriptor stream)))
        with (Normal (A:=value) (readonly stream)).
      change (field "name" (Some (Descriptor stream)))
        with (Normal (A:=value) (VStr (name stream))).
      unfold bind at 1. unfold lift at 1.
      destruct (ToBoolean (readonly stream)).
      * discriminate.
      * rewrite _storeVolume_descriptor. discriminate.
    + destruct pv; cbn; discriminate.
    + discriminate.
Qed.


(** C6.  [setVolume(v)] with the stream left out is the four calls
    [setVolume(STREAM_AUDIO, v')], [setVolume(STREAM_PLAYBACK, v')],
    [setVolume(STREAM_TTS, v')] and [setVolume(STREAM_RING, v')] run in
    that order, [v'] being the clamped volume, each with its own checks.
    When one of them throws after others have returned, it leaves the
    state as it found it, and the whole call throws with it in that state,
    the one in which the earlier calls have persisted and forwarded their
    volumes.  Over the catalog [init] builds
    from distinct stream constants all four succeed, and the only changes
    are the four stores, for audio, playback, tts and ring. *)
Theorem setVolume_omitted_stream (s : state) (v : number) :
  setVolume native (VNum v :: nil) s = sequence_ (sub_calls native (clamp v)) s
  /\ (forall pre m post u e s' s'',
        sub_calls native (clamp v) = pre ++ m :: post ->
        sequence_ pre s = (Normal u, s') ->
        m s' = (Throw e, s'') ->
        s'' = s' /\ setVolume native (VNum v :: nil) s = (Throw e, s'))
  /\ (forall props past audio playback tts ring,
        NoDup (stream_ids native) ->
        AudioBase s = AudioBase (snd (load native props past)) ->
        audio = {| id := STREAM_AUDIO native; name := "audio";
                   readonly := VUndefined |} ->
        playback = {| id := STREAM_PLAYBACK native; name := "playback";
                      readonly := VUndefined |} ->
        tts = {| id := STREAM_TTS native; name := "tts";
                 readonly := VUndefined |} ->
        ring = {| id := STREAM_RING native; name := "ring";
                  readonly := VUndefined |} ->
        setVolume native (VNum v :: nil) s
        = (Normal VUndefined,
           after_store
             (after_store
                (after_store (after_store s audio (clamped_floor v))
                   playback (clamped_floor v))
                tts (clamped_floor v))
             ring (clamped_floor v))).
Proof.
  split; [apply setVolume_broadcast|]. split.
  - intros pre m post u e s' s'' Hsub Hpre Hm.
    assert (Hs : s'' = s').
    { assert (Hin : In m (sub_calls native (clamp v)))
        by (rewrite Hsub; apply in_elt).
      apply in_map_iff in Hin as (stream_id & <- & _).
      now apply setVolume_throw_unchanged in Hm. }
    subst s''. split; [reflexivity|].
    rewrite setVolume_broadcast, Hsub.
    now apply (sequence_app_throw pre post m s s' s' u e).
  - intros props past audio playback tts ring Hnd Hcat -> -> -> ->.
    pose proof (loaded_catalog native props past Hnd) as Hall.
    rewrite <- Hcat in Hall. unfold catalog in Hall.
    repeat match goal with
           | H : Forall _ (_ :: _) |- _ => apply Forall_cons in H as [? H]
           end.
    cbn [id] in *.
    apply broadcast_stores; solve [assumption | reflexivity].
Qed.

End BroadcastFacts.

(** ** [@yoda/util] *)

Section UtilFacts.

Local Open Scope list_scope.

Lemma member_normal (node : value) (k : string) :
  nullish node = false ->
  member node k = Normal (default VUndefined (own_property node k)).
Proof. destruct node; intros H; try discriminate H; reflexivity. Qed.

Lemma resolve_normal (segs : list string) (node : value) :
  exists v, Util.resolve node segs = Normal v.
Proof.
  revert node. induction segs as [|k rest IH]; intros node; [now exists node|].
  destruct node; cbn [Util.resolve member]; eauto.
Qed.

Lemma resolve_nullish (node : value) (segs : list string) :
  nullish node = true -> Util.resolve node segs = Normal node.
Proof. destruct node, segs; intros H; try discriminate H; reflexivity. Qed.

Lemma resolve_step (node : value) (k : string) (rest : list string) :
  nullish node = false ->
  Util.resolve node (k :: rest)
  = Util.resolve (default VUndefined (own_property node k)) rest.
Proof. destruct node; intros H; try discriminate H; reflexivity. Qed.

Lemma own_property_container (node : value) (k : string) (v : value) :
  own_property node k = Some v -> nullish node = false.
Proof. destruct node; intros H; try discriminate H; reflexivity. Qed.

Lemma resolve_walks (c : value) (pre post : list string) (node : value) :
  Util.walks c pre node ->
  Util.resolve c (pre ++ post) = Util.resolve node post.
Proof.
  induction 1 as [c|c k c' segs v Hk Hw IH]; [reflexivity|].
  cbn [app]. rewrite resolve_step by (eapply own_property_container; eauto).
  now rewrite Hk.
Qed.

Lemma get_resolve (c p d : value) :
  nullish c = false ->
  Util.get c p d
  = match Util.resolve c (Util.path_segments p) with
    | Normal VUndefined => Normal d
    | other => other
    end.
Proof. destruct c; intros H; try discriminate H; reflexivity. Qed.

(** C2.  Let [c] be a container that is neither [null] nor "no value".
    If the keys of a prefix of the path are all present and lead to
    [null], [get] returns [null], whatever the default and whatever keys
    follow.  If they lead to an object or array that lacks the next key, or
    to a scalar with a key still to read, [get] returns the default.  In
    every case [get] returns what the walk gives, except that "no value"
    is replaced by the default: [null] is never replaced. *)
Theorem get_null_is_kept (c p d : value) :
  nullish c = false ->
  (forall pre post,
     Util.path_segments p = pre ++ post ->
     Util.walks c pre VNull ->
     Util.get c p d = Normal VNull)
  /\ (forall pre k post node,
        Util.path_segments p = pre ++ k :: post ->
        Util.walks c pre node ->
        (Util.is_container node = true /\ own_property node k = None)
        \/ Util.is_scalar node = true ->
        Util.get c p d = Normal d)
  /\ (exists r,
        Util.resolve c (Util.path_segments p) = Normal r
        /\ Util.get c p d = Normal (match r with VUndefined => d | _ => r end)).
Proof.
  intros Hc. rewrite (get_resolve c p d Hc). split; [|split].
  - intros pre post -> Hw. rewrite (resolve_walks c pre post VNull Hw).
    now rewrite resolve_nullish.
  - intros pre k post node -> Hw Hnode.
    rewrite (resolve_walks c pre (k :: post) node Hw).
    assert (Hn : nullish node = false /\ own_property node k = None).
    { destruct Hnode as [[Hcont Hk]|Hsc]; destruct node;
        try discriminate; auto. }
    destruct Hn as [Hn Hk]. rewrite (resolve_step node k post Hn), Hk.
    now rewrite resolve_nullish.
  - destruct (resolve_normal (Util.path_segments p) c) as [r ->].
    exists r. split; [reflexivity|]. now destruct r.
Qed.

Lemma copy_keys_normal (c : value) (keys : list value) :
  nullish c = false -> exists fields, Util.copy_keys c keys = Normal fields.
Proof.
  intros Hc. induction keys as [|k rest [fields IH]]; [now eexists|].
  cbn [Util.copy_keys]. rewrite (member_normal c _ Hc), IH. now eexists.
Qed.

(** C8.  [get] returns a value for every container, path and default, and
    returns the default when the container is [null] or "no value";
    [pick] returns a value for every container and returns [null] (or
    "no value") as it is; [startsWith] returns a boolean for every value
    and returns [false] for every value that is not a string.  None of
    them ever throws. *)
Theorem util_never_raises :
  (forall c p d, exists v, Util.get c p d = Normal v)
  /\ (forall c p d, nullish c = true -> Util.get c p d = Normal d)
  /\ (forall c keys, exists v, Util.pick c keys = Normal v)
  /\ (forall keys, Util.pick VNull keys = Normal VNull)
  /\ (forall v pre, exists b, Util.startsWith v pre = Normal (VBool b))
  /\ (forall v pre, typeof v <> "string" ->
        Util.startsWith v pre = Normal (VBool false)).
Proof.
  repeat split.
  - intros c p d. destruct (nullish c) eqn:Hc.
    + exists d. destruct c; try discriminate Hc; reflexivity.
    + rewrite (get_resolve c p d Hc).
      destruct (resolve_normal (Util.path_segments p) c) as [r ->].
      destruct r; eauto.
  - intros c p d Hc. destruct c; try discriminate Hc; reflexivity.
  - intros c keys. destruct (nullish c) eqn:Hc.
    + exists c. destruct c; try discriminate Hc; reflexivity.
    + destruct (copy_keys_normal c keys Hc) as [fields Hf].
      exists (VObj fields). unfold Util.pick. rewrite Hf.
      destruct c; try discriminate Hc; reflexivity.
  - intros v pre. destruct v; eexists; reflexivity.
  - intros v pre Hv. destruct v; try reflexivity. now elim Hv.
Qed.

End UtilFacts.

(** ** Concrete runs *)

Section Runs.

Local Open Scope list_scope.

(** The cases of the unit tests of [@yoda/util]. *)
Example get_value :
  Util.get (VObj (("foo", VStr "bar") :: nil)) (VStr "foo") VUndefined
  = Normal (VStr "bar").
Proof. reflexivity. Qed.

Example get_nested_value :
  Util.get (VObj (("nested", VObj (("foo", VStr "bar") :: nil)) :: nil))
    (VStr "nested.foo") VUndefined
  = Normal (VStr "bar").
Proof. reflexivity. Qed.

Example get_default_value :
  Util.get (VObj nil) (VStr "foo") (VStr "bar") = Normal (VStr "bar").
Proof. reflexivity. Qed.

Example get_array_item :
  Util.get (VArr (VStr "foo" :: VStr "bar" :: nil)) (VStr "1") VUndefined
  = Normal (VStr "bar").
Proof. reflexivity. Qed.

Example get_array_item_by_index :
  Util.get (VArr (VStr "foo" :: VStr "bar" :: nil)) (VNum (num_of_Z 1))
    VUndefined
  = Normal (VStr "bar").
Proof. reflexivity. Qed.

Example get_nil_in_the_middle :
  Util.get
    (VObj (("nested", VObj (("foo", VObj (("foo", VStr "bar") :: nil)) :: nil))
             :: nil))
    (VStr "nested.bar.foo") VUndefined
  = Normal VUndefined.
Proof. reflexivity. Qed.

Example get_literal_value :
  Util.get (VObj (("foo", VNum (num_of_Z 1)) :: nil)) (VStr "foo.bar") VUndefined
  = Normal VUndefined.
Proof. reflexivity. Qed.

Example get_breaks_on_null :
  Util.get (VObj (("foo", VNull) :: nil)) (VStr "foo.bar") VUndefined
  = Normal VNull.
Proof. reflexivity. Qed.

Example pick_keys :
  Util.pick (VObj (("foo", VStr "bar") :: ("bar", VStr "foo") :: nil))
    (VStr "foo" :: nil)
  = Normal (VObj (("foo", VStr "bar") :: nil)).
Proof. reflexivity. Qed.

Example pick_nil : Util.pick VNull (VStr "foo" :: nil) = Normal VNull.
Proof. reflexivity. Qed.

Example startsWith_nil : Util.startsWith VNull VUndefined = Normal (VBool false).
Proof. reflexivity. Qed.

Example startsWith_object :
  Util.startsWith (VObj nil) VUndefined = Normal (VBool false).
Proof. reflexivity. Qed.

Example startsWith_normal :
  Util.startsWith (VStr "foobar") (VStr "foo") = Normal (VBool true).
Proof. reflexivity. Qed.

Example startsWith_whole :
  Util.startsWith (VStr "foobar") (VStr "foobar") = Normal (VBool true).
Proof. reflexivity. Qed.

Example startsWith_no_match :
  Util.startsWith (VStr "foobar") (VStr "bar") = Normal (VBool false).
Proof. reflexivity. Qed.

(** Conversions. *)
Example parseInt_42 : parseInt (VStr "  42px") = num_of_Z 42.
Proof. reflexivity. Qed.

Example parseInt_hex : parseInt (VStr "-0x1f") = num_of_Z (-31).
Proof. reflexivity. Qed.

Example parseInt_empty : parseInt (VStr "") = NaN.
Proof. reflexivity. Qed.

Example toString_fraction : Number_toString (Finite (-5 # 4)) = "-1.25"%string.
Proof. reflexivity. Qed.

Example toString_array :
  ToString (VArr (VNum (num_of_Z 1) :: VNull :: VStr "a" :: nil)) = "1,,a"%string.
Proof. reflexivity. Qed.

(** The audio module over an empty store. *)
Example load_defaults :
  map_to_list (property sample_state)
  = ("audio.volume.system", "60") :: ("audio.volume.audio", "60")
      :: ("audio.volume.alarm", "60") :: ("audio.volume.voiceCall", "60")
      :: ("audio.volume.ring", "60") :: ("audio.volume.tts", "60")
      :: ("audio.volume.playback", "60") :: nil.
Proof. vm_compute. reflexivity. Qed.

Example load_configured_default :
  property (snd (load sample_native {["audio.volume.default" := "35"]} nil))
    !! "audio.volume.ring"
  = Some "35"%string.
Proof. vm_compute. reflexivity. Qed.

Example setVolume_150 :
  property (snd (setVolume sample_native
                   (VNum (num_of_Z 1) :: VNum (num_of_Z 150) :: nil)
                   sample_state))
    !! "audio.volume.tts"
  = Some "100"%string.
Proof. vm_compute. reflexivity. Qed.

Example setVolume_minus_10 :
  property (snd (setVolume sample_native
                   (VNum (num_of_Z 1) :: VNum (num_of_Z (-10)) :: nil)
                   sample_state))
    !! "audio.volume.tts"
  = Some "0"%string.
Proof. vm_compute. reflexivity. Qed.

Example setVolume_fraction :
  property (snd (setVolume sample_native
                   (VNum (num_of_Z 1) :: VNum (Finite (61 # 2)) :: nil)
                   sample_state))
    !! "audio.volume.tts"
  = Some "30"%string.
Proof. vm_compute. reflexivity. Qed.

Example setVolume_string_volume :
  setVolume sample_native (VNum (num_of_Z 1) :: VStr "30" :: nil) sample_state
  = (Throw (TypeError "vol must be a number"), sample_state).
Proof. vm_compute. reflexivity. Qed.

Example getVolume_9999 :
  fst (getVolume sample_native (VNum (num_of_Z 9999) :: nil) sample_state)
  = Throw (TypeError "invalid stream type").
Proof. vm_compute. reflexivity. Qed.

Example getStreamName_9999 :
  fst (getStreamName (VNum (num_of_Z 9999)) sample_state) = Normal VUndefined.
Proof. vm_compute. reflexivity. Qed.

Example getStreamName_tts :
  fst (getStreamName (VNum (num_of_Z 1)) sample_state) = Normal (VStr "tts").
Proof. vm_compute. reflexivity. Qed.

Example setVolumeShaper_linear :
  fst (setVolumeShaper sample_native LINEAR_RAMP sample_state)
  = Normal (VBool true)
  /\ length (effects (snd (setVolumeShaper sample_native LINEAR_RAMP
                             sample_state)))
     = length (effects sample_state) + 101.
Proof. vm_compute. split; reflexivity. Qed.

(** A string can name a member of [AudioBase] that is not a stream; a
    number cannot. *)
Example AudioBase_member_name :
  AudioBase_get sample_state (VStr "toString") = Some (Plain (VFun "toString"))
  /\ AudioBase_get sample_state (VStr "DEFAULT_VOLUME")
     = Some (Plain (VNum (num_of_Z 60))).
Proof. vm_compute. split; reflexivity. Qed.

(** *** The theorems at concrete inputs *)

Lemma setVolume_clamps_then_floors_witness :
  VNum (num_of_Z 1) <> VNull
  /\ AudioBase_get sample_state (VNum (num_of_Z 1))
     = Some (Descriptor (sample_stream 1 "tts"))
  /\ ToBoolean (readonly (sample_stream 1 "tts")) = false
  /\ setVolume sample_native
       (VNum (num_of_Z 1) :: VNum (Finite (301 # 2)) :: nil) sample_state
     = (Normal VUndefined,
        after_store sample_state (sample_stream 1 "tts") (num_of_Z 100)).
Proof.
  assert (H1 : VNum (num_of_Z 1) <> VNull) by discriminate.
  assert (H2 : AudioBase_get sample_state (VNum (num_of_Z 1))
               = Some (Descriptor (sample_stream 1 "tts")))
    by (vm_compute; reflexivity).
  assert (H3 : ToBoolean (readonly (sample_stream 1 "tts")) = false)
    by reflexivity.
  split; [exact H1|]. split; [exact H2|]. split; [exact H3|].
  exact (proj1 (setVolume_clamps_then_floors sample_native sample_state _ _
                  (Finite (301 # 2)) H1 H2 H3)).
Defined.

Lemma setVolume_NaN_is_stored_witness :
  AudioBase_get sample_state (VNum (num_of_Z 1))
  = Some (Descriptor (sample_stream 1 "tts"))
  /\ (let r := setVolume sample_native (VNum (num_of_Z 1) :: VNum NaN :: nil)
                 sample_state in
      fst r = Normal VUndefined
      /\ property (snd r) !! "audio.volume.tts" = Some "NaN"%string).
Proof.
  assert (H1 : VNum (num_of_Z 1) <> VNull) by discriminate.
  assert (H2 : AudioBase_get sample_state (VNum (num_of_Z 1))
               = Some (Descriptor (sample_stream 1 "tts")))
    by (vm_compute; reflexivity).
  assert (H3 : ToBoolean (readonly (sample_stream 1 "tts")) = false)
    by reflexivity.
  split; [exact H2|].
  destruct (setVolume_NaN_is_stored sample_native sample_state _ _ H1 H2 H3)
    as (_ & _ & _ & ->).
  split; [reflexivity | apply lookup_insert_eq].
Defined.

Lemma setVolume_system_readonly_witness :
  AudioBase sample_state = AudioBase (snd (load sample_native ∅ nil))
  /\ setVolume sample_native (VNum (num_of_Z 6) :: VNum (num_of_Z 50) :: nil)
       sample_state
     = (Throw (Error ("stream type " +:+ quote +:+ "system" +:+ quote
                        +:+ " is readonly")), sample_state).
Proof.
  split; [reflexivity|].
  apply (proj1 (setVolume_system_readonly sample_native ∅ nil sample_state
                  (num_of_Z 50) eq_refl)).
Defined.

Lemma setVolumeShaper_forwards_curve_witness :
  point_accepted sample_native (effects sample_state) sample_curve 3 = false
  /\ setVolumeShaper sample_native sample_shaper sample_state
     = (Throw (RangeError "out of range when set volume shape."),
        with_effects sample_state
          (effects sample_state ++ curve_points sample_curve 0 4)).
Proof.
  split; [reflexivity|].
  pose proof (setVolumeShaper_forwards_curve sample_native sample_shaper
                sample_state) as H.
  change (sample_shaper (VNum (num_of_Z 100))) with (VArr sample_curve) in H.
  cbv beta iota in H. destruct H as [_ H].
  apply (H 3).
  - lia.
  - intros i Hi. destruct i as [|[|[|i]]]; [reflexivity | reflexivity | reflexivity | lia].
  - reflexivity.
Defined.

Lemma getVolume_default_unknown_unset_witness :
  getVolume sample_native nil sample_state
  = (Normal (VNum (num_of_Z 60)), sample_state)
  /\ getVolume sample_native (VNum (num_of_Z 9999) :: nil) sample_state
     = (Throw (TypeError "invalid stream type"), sample_state)
  /\ getVolume sample_native (VNum (num_of_Z 1) :: nil) unset_state
     = (Normal (VBool false), unset_state).
Proof.
  split; [|split].
  - apply (proj1 (getVolume_default_unknown_unset sample_native sample_state)
             ∅ nil).
    + apply (bool_decide_unpack _). vm_compute. exact I.
    + reflexivity.
  - apply (proj1 (proj2 (proj2
             (getVolume_default_unknown_unset sample_native sample_state)))).
    vm_compute. reflexivity.
  - apply (proj2 (proj2 (proj2
             (getVolume_default_unknown_unset sample_native unset_state)))
             _ (sample_stream 1 "tts")).
    + discriminate.
    + vm_compute. reflexivity.
    + vm_compute. reflexivity.
Defined.

Lemma setVolume_omitted_stream_witness :
  setVolume sample_native (VNum (num_of_Z 30) :: nil) sample_state
  = (Normal VUndefined,
     after_store
       (after_store
          (after_store
             (after_store sample_state (sample_stream 0 "audio") (num_of_Z 30))
             (sample_stream 4 "playback") (num_of_Z 30))
          (sample_stream 1 "tts") (num_of_Z 30))
       (sample_stream 2 "ring") (num_of_Z 30))
  /\ setVolume shared_native (VNum (num_of_Z 30) :: nil) shared_state
     = (Throw (Error ("stream type " +:+ quote +:+ "system" +:+ quote
                        +:+ " is readonly")),
        after_store
          (after_store
             (after_store shared_state (sample_stream 0 "audio") (num_of_Z 30))
             (sample_stream 4 "playback") (num_of_Z 30))
          (sample_stream 1 "tts") (num_of_Z 30)).
Proof.
  split.
  - apply (proj2 (proj2 (setVolume_omitted_stream sample_native sample_state
                           (num_of_Z 30))) ∅ nil);
      try reflexivity.
    apply (bool_decide_unpack _). vm_compute. exact I.
  - refine (proj2 (proj1 (proj2 (setVolume_omitted_stream shared_native
                                    shared_state (num_of_Z 30)))
             (firstn 3 (sub_calls shared_native (num_of_Z 30)))
             (setVolume shared_native
                (VNum (num_of_Z 6) :: VNum (num_of_Z 30) :: nil))
             nil VUndefined _ _
             (after_store
                (after_store
                   (after_store shared_state (sample_stream 0 "audio")
                      (num_of_Z 30))
                   (sample_stream 4 "playback") (num_of_Z 30))
                (sample_stream 1 "tts") (num_of_Z 30)) _ _ _)).
    + reflexivity.
    + vm_compute. reflexivity.
    + vm_compute. reflexivity.
Defined.

Lemma get_null_is_kept_witness :
  nullish (VObj (("foo", VNull) :: nil)) = false
  /\ Util.path_segments (VStr "foo.bar") = ("foo" :: nil) ++ ("bar" :: nil)
  /\ Util.walks (VObj (("foo", VNull) :: nil)) ("foo" :: nil) VNull
  /\ Util.get (VObj (("foo", VNull) :: nil)) (VStr "foo.bar") (VStr "X")
     = Normal VNull.
Proof.
  assert (H1 : nullish (VObj (("foo", VNull) :: nil)) = false) by reflexivity.
  assert (H2 : Util.path_segments (VStr "foo.bar")
               = ("foo" :: nil) ++ ("bar" :: nil)) by reflexivity.
  assert (H3 : Util.walks (VObj (("foo", VNull) :: nil)) ("foo" :: nil) VNull).
  { apply (Util.walks_step _ "foo" VNull); [reflexivity | apply Util.walks_here]. }
  split; [exact H1|]. split; [exact H2|]. split; [exact H3|].
  exact (proj1 (get_null_is_kept _ (VStr "foo.bar") (VStr "X") H1) _ _ H2 H3).
Defined.

Lemma util_never_raises_witness :
  nullish VNull = true
  /\ Util.get VNull (VStr "foo.bar") (VStr "X") = Normal (VStr "X")
  /\ typeof (VObj nil) <> "string"%string
  /\ Util.startsWith (VObj nil) (VStr "x") = Normal (VBool false).
Proof.
  assert (H1 : nullish VNull = true) by reflexivity.
  assert (H2 : typeof (VObj nil) <> "string"%string) by discriminate.
  destruct util_never_raises as (_ & Hget & _ & _ & _ & Hsw).
  split; [exact H1|].
  split; [exact (Hget VNull (VStr "foo.bar") (VStr "X") H1)|].
  split; [exact H2|].
  exact (Hsw (VObj nil) (VStr "x") H2).
Defined.

Lemma setVolume_falsy_type_skips_check_witness :
  ToBoolean (VBool false) = false
  /\ VBool false <> VNull
  /\ AudioBase sample_state !! ToString (VBool false) = None
  /\ setVolume sample_native (VBool false :: VNum (num_of_Z 30) :: nil)
       sample_state
     = (Throw (EngineTypeError "readonly"), sample_state).
Proof.
  assert (H1 : ToBoolean (VBool false) = false) by reflexivity.
  assert (H2 : VBool false <> VNull) by discriminate.
  assert (H3 : AudioBase sample_state !! ToString (VBool false) = None)
    by (vm_compute; reflexivity).
  split; [exact H1|]. split; [exact H2|]. split; [exact H3|].
  exact (proj1 (setVolume_falsy_type_skips_check sample_native sample_state _
                  (num_of_Z 30) H1 H2 H3)).
Defined.

End Runs.

(** ** What the operations keep *)

Section Invariants.

Variable native : NativeBackend.

Local Open Scope list_scope.

Lemma extends_refl (s : state) : extends s s.
Proof. repeat split. exists nil. now rewrite app_nil_r. Qed.

Lemma extends_trans (s1 s2 s3 : state) :
  extends s1 s2 -> extends s2 s3 -> extends s1 s3.
Proof.
  intros (Ha & Hd & l & Hl) (Ha' & Hd' & l' & Hl').
  repeat split; [congruence | congruence |].
  exists (l ++ l'). now rewrite Hl', Hl, app_assoc.
Qed.

Lemma grows_ret {A} (a : A) : grows (ret a).
Proof. intros s. apply extends_refl. Qed.

Lemma grows_throw {A} (e : exn) : grows (@throw A e).
Proof. intros s. apply extends_refl. Qed.

Lemma grows_lift {A} (c : completion A) : grows (lift c).
Proof. intros s. apply extends_refl. Qed.

Lemma grows_get_state : grows get_state.
Proof. intros s. apply extends_refl. Qed.

Lemma grows_bind {A B} (m : M A) (f : A -> M B) :
  grows m -> (forall a, grows (f a)) -> grows (bind m f).
Proof.
  intros Hm Hf s. unfold bind. specialize (Hm s).
  destruct (m s) as [[a|e|] s']; cbn [snd] in *; try exact Hm.
  eapply extends_trans; [exact Hm | apply Hf].
Qed.

Lemma grows_property_set (k : value) (val : number) : grows (property_set k val).
Proof. intros s. repeat split. now eexists. Qed.

Lemma grows_perform (e : effect) : grows (perform e).
Proof. intros s. repeat split. now eexists. Qed.

Lemma grows_storeVolume (stream : option entry) (vol : number) :
  grows (_storeVolume stream vol).
Proof.
  unfold _storeVolume, native_setStreamVolume.
  repeat first [ apply grows_bind; [|intros ?] | apply grows_lift
               | apply grows_property_set | apply grows_perform
               | apply grows_ret ].
Qed.

Lemma grows_setVolume_fuel (fuel : nat) (args : list value) :
  grows (setVolume_fuel native fuel args).
Proof.
  revert args. induction fuel as [|fuel IH]; intros args.
  - intros s. apply extends_refl.
  - cbn [setVolume_fuel].
    destruct (if Nat.eqb (length args) 1 then (VNull, arg 0 args)
              else (arg 0 args, arg 1 args)) as [type vol].
    apply grows_bind; [apply grows_get_state|]. intros s0.
    destruct (ToBoolean type && negb (entry_truthy (AudioBase_get s0 type)));
      [apply grows_throw|].
    destruct vol; try apply grows_throw.
    destruct (is_null type).
    + repeat first [ apply grows_bind; [|intros ?] | apply IH | apply grows_ret ].
    + apply grows_bind; [apply grows_get_state|]. intros s1.
      apply grows_bind; [apply grows_lift|]. intros r.
      destruct (ToBoolean r).
      * apply grows_bind; [apply grows_lift|]. intros nm. apply grows_throw.
      * apply grows_storeVolume.
Qed.

Lemma grows_curve_loop (count : nat) (i : Z) (shape : list value) :
  grows (curve_loop native count i shape).
Proof.
  revert i. induction count as [|count IH]; intros i; [apply grows_ret|].
  cbn [curve_loop]. apply grows_bind.
  - intros s. repeat split. now eexists.
  - intros ok. destruct ok; [apply IH | apply grows_throw].
Qed.

(** X16.  Whatever its arguments, [setVolume] never touches the catalog or
    the default volume and never takes back an effect: the effects before
    the call are the first effects after it.  The same holds of
    [setVolumeShaper], which moreover leaves the property store alone. *)
Theorem setVolume_keeps_catalog (args : list value) (shaper : value -> value)
    (s : state) :
  extends s (snd (setVolume native args s))
  /\ extends s (snd (setVolumeShaper native shaper s))
  /\ property (snd (setVolumeShaper native shaper s)) = property s.
Proof.
  split; [apply grows_setVolume_fuel|]. split.
  - unfold setVolumeShaper.
    destruct (shaper (VNum (num_of_Z 100))); try apply grows_throw.
    apply grows_curve_loop.
  - unfold setVolumeShaper.
    destruct (shaper (VNum (num_of_Z 100))) as [| | | | |items| |];
      try reflexivity.
    generalize (Z.to_nat (100 + 1)) as count. generalize 0%Z as i.
    intros i count. revert i s.
    induction count as [|count IH]; intros i s; [reflexivity|].
    cbn [curve_loop]. unfold bind at 1.
    unfold native_setCurveForVolume, perform.
    destruct (setCurveForVolume_accepts native (effects s) i
                (default VUndefined (nth_error items (Z.to_nat i)))).
    + rewrite IH. reflexivity.
    + reflexivity.
Qed.

End Invariants.

(** ** Writing a volume and reading it back *)

Section RoundTrip.

Variable native : NativeBackend.

Lemma clamped_floor_range (v : number) :
  v <> NaN ->
  exists z, (0 <= z <= 100)%Z /\ clamped_floor v = num_of_Z z.
Proof.
  destruct v as [| | |q]; intros Hv; [congruence | | |].
  - exists 100%Z. split; [lia | reflexivity].
  - exists 0%Z. split; [lia | reflexivity].
  - exists (Z.min 100 (Z.max 0 (Qfloor q))).
    split; [lia | apply clamped_floor_finite].
Qed.

Lemma reading_after_store (s : state) (stream : Stream) (z : Z) :
  (Z.abs z < 2 ^ 53)%Z ->
  reading (property (after_store s stream (num_of_Z z))) (name stream)
  = VNum (num_of_Z z).
Proof.
  intros Hz.
  unfold reading, persisted_volume, after_store; cbn [property].
  unfold key. rewrite lookup_insert_eq. cbn [default]. cbv zeta.
  cbv [Datatypes.id].
  rewrite Number_toString_Z by lia. now rewrite parseInt_Z_to_string.
Qed.

Lemma key_inj (a b : string) :
  "audio.volume." ++ a = "audio.volume." ++ b -> a = b.
Proof. intros H. injection H as H. exact H. Qed.

Lemma reading_other_store (s : state) (stream : Stream) (vol : number)
    (nm : string) :
  nm <> name stream ->
  reading (property (after_store s stream vol)) nm = reading (property s) nm.
Proof.
  intros Hne. unfold reading, persisted_volume, after_store; cbn [property].
  rewrite lookup_insert_ne; [reflexivity|].
  unfold key. intros E. apply key_inj in E. congruence.
Qed.

Lemma AudioBase_get_extends (s s' : state) (type : value) :
  AudioBase s' = AudioBase s ->
  AudioBase_DEFAULT_VOLUME s' = AudioBase_DEFAULT_VOLUME s ->
  AudioBase_get s' type = AudioBase_get s type.
Proof. intros Ha Hd. unfold AudioBase_get. now rewrite Ha, Hd. Qed.

(** X1.  A volume written with [setVolume] is the volume [getVolume] reads
    back: on a stream that is not readonly and for a volume that is not
    [NaN], [getVolume] after [setVolume(stream, v)] returns the integer
    [min(100, max(0, floor(v)))], which lies between 0 and 100. *)
Theorem setVolume_then_getVolume (s : state) (type : value) (stream : Stream)
    (v : number) :
  type <> VNull -> type <> VUndefined ->
  AudioBase_get s type = Some (Descriptor stream) ->
  ToBoolean (readonly stream) = false ->
  v <> NaN ->
  exists z s',
    (0 <= z <= 100)%Z
    /\ clamped_floor v = num_of_Z z
    /\ setVolume native (type :: VNum v :: nil) s = (Normal VUndefined, s')
    /\ getVolume native (type :: nil) s' = (Normal (VNum (num_of_Z z)), s').
Proof.
  intros Hnull Hundef Hget Hro Hv.
  destruct (clamped_floor_range v Hv) as (z & Hz & Hcf).
  exists z, (after_store s stream (num_of_Z z)).
  split; [exact Hz|]. split; [exact Hcf|]. split.
  - rewrite (setVolume_stores native s type stream v Hnull Hget Hro).
    now rewrite floor_clamp, Hcf.
  - rewrite (getVolume_known native _ type stream Hundef).
    + now rewrite reading_after_store by lia.
    + exact Hget.
Qed.

(** X2.  [setVolume] on one stream leaves every other stream as it was:
    [getVolume] on a stream with another name returns what it returned
    before the call. *)
Theorem setVolume_leaves_other_streams (s : state) (type other : value)
    (stream stream' : Stream) (v : number) :
  type <> VNull -> other <> VUndefined ->
  AudioBase_get s type = Some (Descriptor stream) ->
  AudioBase_get s other = Some (Descriptor stream') ->
  ToBoolean (readonly stream) = false ->
  name stream' <> name stream ->
  fst (getVolume native (other :: nil)
         (snd (setVolume native (type :: VNum v :: nil) s)))
  = fst (getVolume native (other :: nil) s).
Proof.
  intros Hnull Hundef Hget Hget' Hro Hne.
  rewrite (setVolume_stores native s type stream v Hnull Hget Hro). cbn [snd].
  rewrite (getVolume_known native _ other stream' Hundef) by exact Hget'.
  rewrite (getVolume_known native s other stream' Hundef Hget'). cbn [fst].
  now rewrite reading_other_store.
Qed.

(** X3.  Of two volumes written to the same stream, the property store
    keeps the last: writing [v] and then [w] leaves the store as writing
    [w] alone does. *)
Theorem setVolume_last_write_wins (s : state) (type : value) (stream : Stream)
    (v w : number) :
  type <> VNull ->
  AudioBase_get s type = Some (Descriptor stream) ->
  ToBoolean (readonly stream) = false ->
  property (snd (setVolume native (type :: VNum w :: nil)
                   (snd (setVolume native (type :: VNum v :: nil) s))))
  = property (snd (setVolume native (type :: VNum w :: nil) s)).
Proof.
  intros Hnull Hget Hro.
  rewrite (setVolume_stores native s type stream v Hnull Hget Hro). cbn [snd].
  rewrite (setVolume_stores native _ type stream w Hnull) by assumption.
  rewrite (setVolume_stores native s type stream w Hnull Hget Hro).
  cbn [snd after_store property]. apply insert_insert_eq.
Qed.

End RoundTrip.

(** ** Arguments of the wrong kind *)

Section ArgumentFacts.

Variable native : NativeBackend.

(** With anything but a number in the volume position, [setVolume] throws
    one of its two [TypeError]s, the one about the stream first. *)
Lemma setVolume_fuel_volume_checked (f : nat) (args : list value) (s : state) :
  typeof (if Nat.eqb (length args) 1 then arg 0 args else arg 1 args)
    <> "number" ->
  setVolume_fuel native (S f) args s
  = (Throw (TypeError
       (if negb (Nat.eqb (length args) 1)
           && ToBoolean (arg 0 args)
           && negb (entry_truthy (AudioBase_get s (arg 0 args)))
        then "invalid stream type" else "vol must be a number")), s).
Proof.
  intros Hty. cbn [setVolume_fuel]. revert Hty.
  destruct (Nat.eqb (length args) 1); intros Hty; cbn [negb andb].
  - unfold bind at 1. unfold get_state at 1. cbn [ToBoolean andb].
    revert Hty. destruct (arg 0 args); intros Hty; try reflexivity.
    exfalso; apply Hty; reflexivity.
  - unfold bind at 1. unfold get_state at 1.
    destruct (ToBoolean (arg 0 args)
              && negb (entry_truthy (AudioBase_get s (arg 0 args))));
      [reflexivity|].
    revert Hty. destruct (arg 1 args); intros Hty; try reflexivity.
    exfalso; apply Hty; reflexivity.
Qed.

(** X4.  [setVolume] never converts its volume: whenever the argument in
    the volume position (the only one, or else the second) is not a number,
    the call throws a [TypeError] and the state stays as it was; called
    with no argument or with a single argument that is not a number, the
    error is [vol must be a number]. *)
Theorem setVolume_refuses_non_numbers (args : list value) (s : state) :
  typeof (if Nat.eqb (length args) 1 then arg 0 args else arg 1 args)
    <> "number" ->
  (exists msg, setVolume native args s = (Throw (TypeError msg), s))
  /\ (length args <= 1 ->
      setVolume native args s = (Throw (TypeError "vol must be a number"), s)).
Proof.
  intros Hty. unfold setVolume.
  rewrite (setVolume_fuel_volume_checked 1 args s Hty). split.
  - eauto.
  - intros Hlen. destruct args as [|a [|b rest]]; cbn [length] in *; [| |lia];
      reflexivity.
Qed.

Lemma field_name_descriptor (stream : Stream) :
  field "name" (Some (Descriptor stream)) = Normal (VStr (name stream)).
Proof. reflexivity. Qed.

Lemma getStreamName_descriptor (s : state) (type : value) (stream : Stream) :
  AudioBase_get s type = Some (Descriptor stream) ->
  getStreamName type s = (Normal (VStr (name stream)), s).
Proof.
  intros H. unfold getStreamName, bind, get_state, lift, ret. rewrite H.
  cbn [entry_truthy]. now rewrite field_name_descriptor.
Qed.

(** X5.  [getStreamName] never throws and never changes the state; it
    returns the name of the descriptor its argument leads to, and
    [undefined] for a number that is not a key of the catalog. *)
Theorem getStreamName_total (s : state) (type : value) :
  (exists v, getStreamName type s = (Normal v, s))
  /\ (forall stream,
        AudioBase_get s type = Some (Descriptor stream) ->
        getStreamName type s = (Normal (VStr (name stream)), s))
  /\ (forall n,
        type = VNum n -> AudioBase s !! ToString type = None ->
        getStreamName type s = (Normal VUndefined, s)).
Proof.
  unfold getStreamName, bind, get_state, lift, ret. split; [|split].
  - destruct (AudioBase_get s type) as [[stream|pv]|]; cbn [entry_truthy].
    + rewrite field_name_descriptor. eauto.
    + destruct (ToBoolean pv); [|eauto]. destruct pv; cbn; eauto.
    + eauto.
  - intros stream H. rewrite H. cbn [entry_truthy].
    now rewrite field_name_descriptor.
  - intros n -> Hmiss. now rewrite (AudioBase_get_number s n Hmiss).
Qed.

(** X6.  After [defineStream(id, name, options)], in any state, [id] leads
    to the new descriptor, whatever was registered under it before;
    [getStreamName(id)] returns [name]; and every other stream constant
    leads to what it led to before. *)
Theorem defineStream_registers (s : state) (stream_id : Z) (nm : string)
    (options : value) :
  let s' := snd (defineStream stream_id nm options s) in
  AudioBase_get s' (VNum (num_of_Z stream_id))
  = Some (Descriptor {| id := stream_id; name := nm;
                        readonly := readonly_option options |})
  /\ getStreamName (VNum (num_of_Z stream_id)) s' = (Normal (VStr nm), s')
  /\ (forall other,
        other <> stream_id ->
        AudioBase_get s' (VNum (num_of_Z other))
        = AudioBase_get s (VNum (num_of_Z other))).
Proof.
  intros s'. subst s'. rewrite defineStream_run. cbn [snd].
  assert (Hget : AudioBase_get (defined s stream_id nm options)
                   (VNum (num_of_Z stream_id))
                 = Some (Descriptor {| id := stream_id; name := nm;
                                       readonly := readonly_option options |})).
  { apply AudioBase_get_descriptor. rewrite defined_AudioBase.
    apply lookup_insert_eq. }
  split; [exact Hget|]. split.
  - now apply (getStreamName_descriptor _ _ _ Hget).
  - intros other Hne. unfold AudioBase_get.
    rewrite defined_AudioBase, defined_default.
    rewrite lookup_insert_ne; [reflexivity|].
    intros E. apply stream_key_inj in E. congruence.
Qed.

End ArgumentFacts.

(** ** [getPlayingStatus] *)

Section PlayingStatusFacts.

Variable native : NativeBackend.
Variable playing : list effect -> value -> value.

Lemma _getPlayingStatus_descriptor (s : state) (stream : Stream) :
  _getPlayingStatus playing (Some (Descriptor stream)) s
  = (Normal (playing (effects s) (VNum (num_of_Z (id stream)))), s).
Proof. reflexivity. Qed.

Lemma _getPlayingStatus_reads_only (e : option entry) : reads_only (_getPlayingStatus playing e).
Proof.
  intros s. unfold _getPlayingStatus, bind, lift, get_state, ret.
  destruct (field "id" e); reflexivity.
Qed.

(** X7.  [getPlayingStatus] never changes the state.  It throws
    [invalid stream type] for a number that is not a key of the catalog,
    returns the backend's answer for the id of the descriptor its argument
    leads to, and without argument asks about the stream registered under
    [STREAM_TTS]. *)
Theorem getPlayingStatus_cases (s : state) :
  (forall args, snd (getPlayingStatus native playing args s) = s)
  /\ (forall n,
        AudioBase s !! ToString (VNum n) = None ->
        getPlayingStatus native playing (VNum n :: nil) s
        = (Throw (TypeError "invalid stream type"), s))
  /\ (forall stream d,
        stream <> VUndefined ->
        AudioBase_get s stream = Some (Descriptor d) ->
        getPlayingStatus native playing (stream :: nil) s
        = (Normal (playing (effects s) (VNum (num_of_Z (id d)))), s))
  /\ (forall d,
        AudioBase s !! stream_key (STREAM_TTS native) = Some d ->
        getPlayingStatus native playing nil s
        = getPlayingStatus native playing
            (VNum (num_of_Z (STREAM_TTS native)) :: nil) s).
Proof.
  split; [|split; [|split]].
  - intros args. unfold getPlayingStatus.
    unfold bind at 1. unfold get_state at 1.
    destruct (arg 0 args); try apply _getPlayingStatus_reads_only;
      (destruct (negb (entry_truthy _));
       [reflexivity | apply _getPlayingStatus_reads_only]).
  - intros n Hmiss. unfold getPlayingStatus. cbn [arg nth].
    unfold bind at 1. unfold get_state at 1.
    now rewrite (AudioBase_get_number s n Hmiss).
  - intros stream d Hu Hget. unfold getPlayingStatus. cbn [arg nth].
    unfold bind at 1. unfold get_state at 1. rewrite Hget.
    destruct stream; try apply _getPlayingStatus_descriptor. congruence.
  - intros d Hd. unfold getPlayingStatus. cbn [arg nth].
    unfold bind at 1 2. unfold get_state at 1 2.
    rewrite (AudioBase_get_descriptor s _ d Hd). reflexivity.
Qed.

End PlayingStatusFacts.

(** ** Curves *)

Section CurveFacts.

Variable native : NativeBackend.

Local Open Scope list_scope.

(** The value read at index [i] of a shape. *)
Lemma curve_loop_ext (a b : list value) (count : nat) (i : nat) (s : state) :
  (forall j, i <= j < i + count ->
     default VUndefined (nth_error a j) = default VUndefined (nth_error b j)) ->
  curve_loop native count (Z.of_nat i) a s
  = curve_loop native count (Z.of_nat i) b s.
Proof.
  revert i s. induction count as [|count IH]; intros i s Hab; [reflexivity|].
  cbn [curve_loop]. unfold bind. rewrite Nat2Z.id.
  rewrite (Hab i) by lia.
  destruct (native_setCurveForVolume native (Z.of_nat i)
              (default VUndefined (nth_error b i)) s) as [[[|]| |] s'];
    try reflexivity.
  replace (Z.of_nat i + 1)%Z with (Z.of_nat (S i)) by lia.
  apply IH. intros j Hj. apply Hab. lia.
Qed.

(** X8.  [setVolumeShaper] looks at the indices 0 to 100 of the shape and
    at nothing else, an index past the end reading as [undefined]: two
    shapers whose arrays agree there give the same result.  So elements
    after the 101st are ignored, and a shorter array behaves as if it were
    filled up with [undefined]. *)
Theorem setVolumeShaper_reads_101 (f g : value -> value) (a b : list value)
    (s : state) :
  f (VNum (num_of_Z 100)) = VArr a ->
  g (VNum (num_of_Z 100)) = VArr b ->
  (forall i, i <= 100 ->
     default VUndefined (nth_error a i) = default VUndefined (nth_error b i)) ->
  setVolumeShaper native f s = setVolumeShaper native g s
  /\ setVolumeShaper native f s
     = setVolumeShaper native (fun _ => VArr (firstn 101 a)) s
  /\ (forall k,
        setVolumeShaper native f s
        = setVolumeShaper native (fun _ => VArr (a ++ repeat VUndefined k)) s).
Proof.
  intros Hf Hg Hab. unfold setVolumeShaper. rewrite Hf, Hg.
  change (Z.to_nat (100 + 1)) with 101. change 0%Z with (Z.of_nat 0).
  split; [|split].
  - apply curve_loop_ext. intros j Hj. apply Hab. lia.
  - apply curve_loop_ext. intros j Hj.
    now rewrite nth_error_firstn, (proj2 (Nat.ltb_lt j 101)) by lia.
  - intros k. apply curve_loop_ext. intros j Hj.
    destruct (Nat.lt_ge_cases j (length a)) as [Hlt|Hge].
    + now rewrite nth_error_app1.
    + rewrite nth_error_app2 by exact Hge.
      rewrite (proj2 (nth_error_None a j)) by exact Hge.
      destruct (nth_error (repeat VUndefined k) (j - length a)) as [x|] eqn:E;
        [|reflexivity].
      apply nth_error_In, repeat_spec in E. now subst x.
Qed.

Lemma LINEAR_RAMP_nat (n : nat) :
  LINEAR_RAMP (VNum (num_of_Z (Z.of_nat n)))
  = VArr (map (fun i => VNum (num_of_Z (Z.of_nat i))) (seq 0 (S n))).
Proof.
  unfold LINEAR_RAMP, num_of_Z. rewrite Qfloor_Z.
  replace (Z.to_nat (Z.of_nat n + 1)) with (S n) by lia. reflexivity.
Qed.

Lemma ramp_point (n i : nat) :
  i <= n ->
  curve_point (map (fun i => VNum (num_of_Z (Z.of_nat i))) (seq 0 (S n))) i
  = identity_point i.
Proof.
  intros Hi. unfold curve_point, identity_point.
  rewrite nth_error_map, nth_error_seq.
  now rewrite (proj2 (Nat.ltb_lt i (S n))) by lia.
Qed.

Lemma ramp_points (n k : nat) :
  k <= S n ->
  curve_points (map (fun i => VNum (num_of_Z (Z.of_nat i))) (seq 0 (S n))) 0 k
  = map identity_point (seq 0 k).
Proof.
  intros Hk. unfold curve_points. apply map_ext_in.
  intros i Hi. apply in_seq in Hi. apply ramp_point. lia.
Qed.

Lemma ramp_nth (n i : nat) :
  i <= n ->
  default VUndefined
    (nth_error (map (fun i => VNum (num_of_Z (Z.of_nat i))) (seq 0 (S n))) i)
  = VNum (num_of_Z (Z.of_nat i)).
Proof.
  intros Hi. rewrite nth_error_map, nth_error_seq.
  now rewrite (proj2 (Nat.ltb_lt i (S n))) by lia.
Qed.

Lemma ramp_loop_all (n : nat) (s : state) :
  (forall i, i <= n ->
     setCurveForVolume_accepts native
       (effects s ++ map identity_point (seq 0 i)) (Z.of_nat i)
       (VNum (num_of_Z (Z.of_nat i))) = true) ->
  curve_loop native (S n) 0%Z
    (map (fun i => VNum (num_of_Z (Z.of_nat i))) (seq 0 (S n))) s
  = (Normal (VBool true),
     with_effects s (effects s ++ map identity_point (seq 0 (S n)))).
Proof.
  intros Hacc. rewrite <- (ramp_points n (S n)) by lia.
  apply (curve_loop_all native _ (S n) 0 s).
  intros j Hj. rewrite Nat.sub_0_r, ramp_points, ramp_nth by lia.
  apply Hacc. lia.
Qed.

Lemma ramp_loop_refused (n k : nat) (s : state) :
  k <= n ->
  (forall i, i < k ->
     setCurveForVolume_accepts native
       (effects s ++ map identity_point (seq 0 i)) (Z.of_nat i)
       (VNum (num_of_Z (Z.of_nat i))) = true) ->
  setCurveForVolume_accepts native
    (effects s ++ map identity_point (seq 0 k)) (Z.of_nat k)
    (VNum (num_of_Z (Z.of_nat k))) = false ->
  curve_loop native (S n) 0%Z
    (map (fun i => VNum (num_of_Z (Z.of_nat i))) (seq 0 (S n))) s
  = (Throw (RangeError "out of range when set volume shape."),
     with_effects s (effects s ++ map identity_point (seq 0 (S k)))).
Proof.
  intros Hk Hacc Hrej. rewrite <- (ramp_points n (S k)) by lia.
  replace (S k) with (S (k - 0)) by lia.
  apply (curve_loop_refused native _ (S n) 0 k s).
  - lia.
  - intros j Hj. rewrite Nat.sub_0_r, ramp_points, ramp_nth by lia.
    apply Hacc. lia.
  - rewrite Nat.sub_0_r, ramp_points, ramp_nth by lia. exact Hrej.
Qed.

(** X9.  [LINEAR_RAMP(n)] is the array [0, 1, ..., n], and a negative
    length gives the empty array.  With it, [setVolumeShaper] never fails
    on the shape: each point it sends carries its own index, all 101 of
    them when the backend accepts them, and up to the first one the backend
    refuses otherwise. *)
Theorem setVolumeShaper_LINEAR_RAMP (s : state) :
  (forall n : nat,
     exists items,
       LINEAR_RAMP (VNum (num_of_Z (Z.of_nat n))) = VArr items
       /\ length items = S n
       /\ forall i, i <= n ->
            nth_error items i = Some (VNum (num_of_Z (Z.of_nat i))))
  /\ (forall q, (q < 0)%Q -> LINEAR_RAMP (VNum (Finite q)) = VArr nil)
  /\ ((forall i, i <= 100 ->
         setCurveForVolume_accepts native
           (effects s ++ map identity_point (seq 0 i)) (Z.of_nat i)
           (VNum (num_of_Z (Z.of_nat i))) = true) ->
      setVolumeShaper native LINEAR_RAMP s
      = (Normal (VBool true),
         with_effects s (effects s ++ map identity_point (seq 0 101))))
  /\ (forall k, k <= 100 ->
        (forall i, i < k ->
           setCurveForVolume_accepts native
             (effects s ++ map identity_point (seq 0 i)) (Z.of_nat i)
             (VNum (num_of_Z (Z.of_nat i))) = true) ->
        setCurveForVolume_accepts native
          (effects s ++ map identity_point (seq 0 k)) (Z.of_nat k)
          (VNum (num_of_Z (Z.of_nat k))) = false ->
        setVolumeShaper native LINEAR_RAMP s
        = (Throw (RangeError "out of range when set volume shape."),
           with_effects s (effects s ++ map identity_point (seq 0 (S k))))).
Proof.
  split; [|split; [|split]].
  - intros n. eexists. split; [apply LINEAR_RAMP_nat|]. split.
    + now rewrite length_map, length_seq.
    + intros i Hi. rewrite nth_error_map, nth_error_seq.
      now rewrite (proj2 (Nat.ltb_lt i (S n))) by lia.
  - intros q Hq. unfold LINEAR_RAMP.
    assert (Hfl : (Qfloor q < 0)%Z).
    { destruct (Z.lt_ge_cases (Qfloor q) 0) as [?|Hge]; [assumption|].
      exfalso. rewrite Zle_Qle in Hge.
      apply (Qlt_irrefl q). eapply Qlt_le_trans; [exact Hq|].
      eapply Qle_trans; [exact Hge | apply Qfloor_le]. }
    replace (Z.to_nat (Qfloor q + 1)) with 0 by lia. reflexivity.
  - intros Hacc. unfold setVolumeShaper.
    change (VNum (num_of_Z 100)) with (VNum (num_of_Z (Z.of_nat 100))).
    rewrite LINEAR_RAMP_nat.
    apply (ramp_loop_all 100 s Hacc).
  - intros k Hk Hacc Hrej. unfold setVolumeShaper.
    change (VNum (num_of_Z 100)) with (VNum (num_of_Z (Z.of_nat 100))).
    rewrite LINEAR_RAMP_nat.
    apply (ramp_loop_refused 100 k s Hk Hacc Hrej).
Qed.

End CurveFacts.

(** ** The store after loading *)

Section LoadFacts.

Variable native : NativeBackend.

Local Open Scope list_scope.

Lemma defined_property_lookup (s : state) (stream_id : Z) (nm : string)
    (o : value) (k : string) :
  property (defined s stream_id nm o) !! k
  = if decide (k = ("audio.volume." ++ nm)%string)
    then (if isNaN (persisted_volume (property s) nm)
          then Some (Number_toString (Math_floor (AudioBase_DEFAULT_VOLUME s)))
          else property s !! k)
    else property s !! k.
Proof.
  unfold defined.
  destruct (isNaN (persisted_volume (property s) nm)).
  - cbn [after_store with_stream property key name].
    destruct (decide (k = ("audio.volume." ++ nm)%string)) as [->|Hne].
    + apply lookup_insert_eq.
    + now rewrite lookup_insert_ne.
  - now destruct (decide _).
Qed.

Lemma persisted_volume_lookup (p1 p2 : gmap string string) (nm : string) :
  p1 !! ("audio.volume." ++ nm)%string = p2 !! ("audio.volume." ++ nm)%string ->
  persisted_volume p1 nm = persisted_volume p2 nm.
Proof. unfold persisted_volume. now intros ->. Qed.

Lemma defined_lookup_other (s : state) (stream_id : Z) (nm other : string)
    (o : value) :
  other <> nm ->
  property (defined s stream_id nm o) !! ("audio.volume." ++ other)%string
  = property s !! ("audio.volume." ++ other)%string.
Proof.
  intros Hne. rewrite defined_property_lookup.
  destruct (decide _) as [E|]; [|reflexivity].
  apply key_inj in E. congruence.
Qed.

Lemma defined_lookup_own (s : state) (stream_id : Z) (nm : string) (o : value) :
  property (defined s stream_id nm o) !! ("audio.volume." ++ nm)%string
  = if isNaN (persisted_volume (property s) nm)
    then Some (Number_toString (Math_floor (AudioBase_DEFAULT_VOLUME s)))
    else property s !! ("audio.volume." ++ nm)%string.
Proof. rewrite defined_property_lookup. now rewrite decide_True. Qed.

Lemma defined_persisted_other (s : state) (stream_id : Z) (nm other : string)
    (o : value) :
  other <> nm ->
  persisted_volume (property (defined s stream_id nm o)) other
  = persisted_volume (property s) other.
Proof.
  intros Hne. apply persisted_volume_lookup. now apply defined_lookup_other.
Qed.

(** Every stream key of the store after [init], in terms of the store
    before it. *)
Lemma initialised_lookup (s : state) (nm : string) :
  In nm stream_names ->
  property (initialised native s) !! ("audio.volume." ++ nm)%string
  = if isNaN (persisted_volume (property s) nm)
    then Some (Number_toString (Math_floor (AudioBase_DEFAULT_VOLUME s)))
    else property s !! ("audio.volume." ++ nm)%string.
Proof.
  intros Hin. unfold initialised.
  unfold stream_names in Hin. cbn [In] in Hin.
  destruct Hin as [<-|[<-|[<-|[<-|[<-|[<-|[<-|[]]]]]]]];
    rewrite ?defined_lookup_other by discriminate;
    rewrite defined_lookup_own;
    rewrite ?defined_default;
    rewrite ?defined_persisted_other by discriminate;
    rewrite ?defined_lookup_other by discriminate;
    reflexivity.
Qed.

(** A key that is not a stream key is not touched by [init]. *)
Lemma initialised_lookup_other (s : state) (k : string) :
  (forall nm, In nm stream_names -> k <> ("audio.volume." ++ nm)%string) ->
  property (initialised native s) !! k = property s !! k.
Proof.
  intros Hk. unfold initialised.
  repeat (rewrite defined_property_lookup;
          rewrite decide_False
            by (apply Hk; unfold stream_names; cbn [In]; tauto)).
  reflexivity.
Qed.

Lemma configured_default_fresh (props : gmap string string) (past : list effect) :
  AudioBase_DEFAULT_VOLUME (fresh props past) = configured_default props.
Proof. reflexivity. Qed.

(** The configured default is an integer or an infinity: flooring it
    changes nothing. *)
Lemma configured_default_floor (props : gmap string string) :
  Math_floor (configured_default props) = configured_default props.
Proof.
  unfold configured_default. cbv zeta.
  destruct (parseInt_cases
              (VStr (default ""%string (props !! "audio.volume.default"%string))))
    as [-> | [-> | [-> | [z ->]]]]; try reflexivity; apply Math_floor_Z.
Qed.

(** X10.  What loading leaves in the store.  A stream whose persisted
    volume parses keeps its string; every other stream gets the configured
    default; and a key that belongs to no stream is not touched.  The
    configured default is what [parseInt] makes of [audio.volume.default],
    with no clamping: for the digits of an integer, the double nearest to
    it, which below [2 ^ 53] is the integer itself and is stored as the
    same digits; and 60 when that key does not parse. *)
Theorem load_stores_default (props : gmap string string) (past : list effect) :
  let s1 := snd (load native props past) in
  (forall nm, In nm stream_names ->
     property s1 !! ("audio.volume." ++ nm)%string
     = if isNaN (persisted_volume props nm)
       then Some (Number_toString (configured_default props))
       else props !! ("audio.volume." ++ nm)%string)
  /\ (forall k,
        (forall nm, In nm stream_names -> k <> ("audio.volume." ++ nm)%string) ->
        property s1 !! k = props !! k)
  /\ (forall z,
        props !! "audio.volume.default"%string = Some (Z_to_string z) ->
        configured_default props = double_of_Z z
        /\ ((Z.abs z < 2 ^ 53)%Z ->
            Number_toString (configured_default props) = Z_to_string z))
  /\ (isNaN (parseInt (VStr (default ""%string
                               (props !! "audio.volume.default"%string)))) = true ->
      Number_toString (configured_default props) = "60"%string).
Proof.
  intros s1. subst s1. rewrite load_run. cbn [snd].
  split; [|split; [|split]].
  - intros nm Hin. rewrite (initialised_lookup (fresh props past) nm Hin).
    rewrite configured_default_fresh.
    now rewrite configured_default_floor.
  - intros k Hk. now rewrite (initialised_lookup_other (fresh props past) k Hk).
  - intros z Hz.
    assert (Hd : configured_default props = double_of_Z z).
    { unfold configured_default. rewrite Hz. cbn [default].
      cbv [Datatypes.id]. rewrite parseInt_digits.
      now rewrite double_of_Z_not_NaN. }
    split; [exact Hd|]. intros Hsmall.
    rewrite Hd, double_of_Z_small by exact Hsmall.
    apply Number_toString_Z. lia.
  - intros Hnan. unfold configured_default. now rewrite Hnan.
Qed.

End LoadFacts.

(** ** The catalog after loading *)

Section CatalogFacts.

Variable native : NativeBackend.

Local Open Scope list_scope.

Lemma catalog_names (d : Stream) :
  In d (catalog native) -> In (name d) stream_names.
Proof.
  unfold catalog, stream_names. cbn [In].
  intros [<-|[<-|[<-|[<-|[<-|[<-|[<-|[]]]]]]]]; cbn [name]; tauto.
Qed.

Lemma catalog_get (props : gmap string string) (past : list effect)
    (s : state) (d : Stream) :
  NoDup (stream_ids native) ->
  AudioBase s = AudioBase (snd (load native props past)) ->
  In d (catalog native) ->
  AudioBase_get s (VNum (num_of_Z (id d))) = Some (Descriptor d).
Proof.
  intros Hnd Hcat Hin. apply AudioBase_get_descriptor. rewrite Hcat.
  pose proof (loaded_catalog native props past Hnd) as Hall.
  rewrite List.Forall_forall in Hall. now apply Hall.
Qed.

Lemma reading_has_volume (props : gmap string string) (nm : string) :
  has_volume props nm ->
  exists n, reading props nm = VNum n /\ isNaN n = false.
Proof.
  intros Hv. apply has_volume_parses in Hv. unfold reading. rewrite Hv.
  now exists (persisted_volume props nm).
Qed.

(** X11.  Right after loading, with distinct stream constants and a
    configured default that is finite (or a store that has a volume for
    every stream already), [getVolume] returns a number for each of the
    seven streams, never the [false] that stands for a missing volume; for
    a stream the store had no valid volume for, that number is the
    configured default when this is an integer below [2 ^ 53]. *)
Theorem getVolume_after_load (props : gmap string string) (past : list effect)
    (d : Stream) :
  NoDup (stream_ids native) ->
  In d (catalog native) ->
  isFinite (configured_default props) = true
  \/ Forall (has_volume props) stream_names ->
  let s1 := snd (load native props past) in
  (exists n, getVolume native (VNum (num_of_Z (id d)) :: nil) s1
             = (Normal (VNum n), s1)
             /\ isNaN n = false)
  /\ (forall z,
        isNaN (persisted_volume props (name d)) = true ->
        configured_default props = num_of_Z z -> (Z.abs z < 2 ^ 53)%Z ->
        getVolume native (VNum (num_of_Z (id d)) :: nil) s1
        = (Normal (VNum (num_of_Z z)), s1)).
Proof.
  intros Hnd Hin Hd s1.
  assert (Hget : AudioBase_get s1 (VNum (num_of_Z (id d))) = Some (Descriptor d))
    by (apply (catalog_get props past s1 d Hnd eq_refl Hin)).
  assert (Hu : VNum (num_of_Z (id d)) <> VUndefined) by discriminate.
  rewrite (getVolume_known native s1 _ d Hu Hget).
  split.
  - destruct (load_result native props past Hd) as [_ Hall].
    rewrite List.Forall_forall in Hall.
    destruct (reading_has_volume _ _ (Hall _ (catalog_names d Hin)))
      as (n & Hn & Hnan).
    exists n. fold s1 in Hn. now rewrite Hn.
  - intros z Hnan Hz Hsmall. f_equal. f_equal.
    unfold reading, persisted_volume. subst s1. rewrite load_run. cbn [snd].
    rewrite (initialised_lookup native (fresh props past) (name d)
               (catalog_names d Hin)).
    change (property (fresh props past)) with props. rewrite Hnan.
    rewrite configured_default_fresh, Hz.
    cbn [default]. cbv [Datatypes.id]. cbv zeta.
    rewrite Math_floor_Z, Number_toString_Z by lia.
    now rewrite parseInt_Z_to_string.
Qed.

(** X12.  Of the seven streams [init] registers, the system stream is the
    only one [setVolume] refuses: with distinct stream constants, a call
    on any of the other six stores the clamped and floored volume. *)
Theorem setVolume_on_catalog (props : gmap string string) (past : list effect)
    (s : state) (d : Stream) (v : number) :
  NoDup (stream_ids native) ->
  AudioBase s = AudioBase (snd (load native props past)) ->
  In d (catalog native) ->
  setVolume native (VNum (num_of_Z (id d)) :: VNum v :: nil) s
  = if String.eqb (name d) "system"
    then (Throw (Error ("stream type " +:+ quote +:+ "system" +:+ quote
                          +:+ " is readonly")), s)
    else (Normal VUndefined, after_store s d (clamped_floor v)).
Proof.
  intros Hnd Hcat Hin.
  pose proof (catalog_get props past s d Hnd Hcat Hin) as Hget.
  assert (Hn : VNum (num_of_Z (id d)) <> VNull) by discriminate.
  unfold catalog in Hin. cbn [In] in Hin.
  destruct Hin as [<-|[<-|[<-|[<-|[<-|[<-|[<-|[]]]]]]]]; cbn [name String.eqb];
    try (rewrite (setVolume_stores native s _ _ v Hn Hget eq_refl);
         now rewrite floor_clamp).
  apply (setVolume_readonly native s _ _ v Hn Hget eq_refl).
Qed.

Lemma reading_after_store_cases (s : state) (stream : Stream) (z : Z)
    (nm : string) :
  (Z.abs z < 2 ^ 53)%Z ->
  reading (property (after_store s stream (num_of_Z z))) nm
  = if String.eqb nm (name stream) then VNum (num_of_Z z)
    else reading (property s) nm.
Proof.
  intros Hz. destruct (String.eqb_spec nm (name stream)) as [->|Hne].
  - now apply reading_after_store.
  - now apply reading_other_store.
Qed.

(** X13.  A volume set without a stream reaches audio, playback, tts and
    ring, where [getVolume] then reads it, and no other stream: voiceCall,
    alarm and system read as before. *)
Theorem setVolume_broadcast_reach (props : gmap string string)
    (past : list effect) (s : state) (d : Stream) (v : number) :
  NoDup (stream_ids native) ->
  AudioBase s = AudioBase (snd (load native props past)) ->
  In d (catalog native) ->
  v <> NaN ->
  let s' := snd (setVolume native (VNum v :: nil) s) in
  fst (getVolume native (VNum (num_of_Z (id d)) :: nil) s')
  = if existsb (String.eqb (name d)) ("audio" :: "playback" :: "tts" :: "ring" :: nil)%string
    then Normal (VNum (clamped_floor v))
    else fst (getVolume native (VNum (num_of_Z (id d)) :: nil) s).
Proof.
  intros Hnd Hcat Hin Hv s'.
  assert (Hall : forall d0, In d0 (catalog native) ->
            AudioBase s !! stream_key (id d0) = Some d0).
  { intros d0 H0. rewrite Hcat.
    pose proof (loaded_catalog native props past Hnd) as Hall.
    rewrite List.Forall_forall in Hall. now apply Hall. }
  set (audio := {| id := STREAM_AUDIO native; name := "audio";
                   readonly := VUndefined |}).
  set (playback := {| id := STREAM_PLAYBACK native; name := "playback";
                      readonly := VUndefined |}).
  set (tts := {| id := STREAM_TTS native; name := "tts";
                 readonly := VUndefined |}).
  set (ring := {| id := STREAM_RING native; name := "ring";
                  readonly := VUndefined |}).
  assert (Ha : In audio (catalog native)) by (unfold catalog; cbn [In]; tauto).
  assert (Hp : In playback (catalog native)) by (unfold catalog; cbn [In]; tauto).
  assert (Ht : In tts (catalog native)) by (unfold catalog; cbn [In]; tauto).
  assert (Hr : In ring (catalog native)) by (unfold catalog; cbn [In]; tauto).
  assert (Hs' : s' = after_store
                  (after_store
                     (after_store (after_store s audio (clamped_floor v))
                        playback (clamped_floor v))
                     tts (clamped_floor v))
                  ring (clamped_floor v)).
  { subst s'.
    now rewrite (broadcast_stores native s v audio playback tts ring
                   (Hall _ Ha) (Hall _ Hp) (Hall _ Ht) (Hall _ Hr)
                   eq_refl eq_refl eq_refl eq_refl). }
  assert (Hu : VNum (num_of_Z (id d)) <> VUndefined) by discriminate.
  pose proof (AudioBase_get_descriptor s _ d (Hall d Hin)) as Hget.
  assert (Hget' : AudioBase_get s' (VNum (num_of_Z (id d))) = Some (Descriptor d)).
  { rewrite Hs'. exact Hget. }
  rewrite (getVolume_known native s' _ d Hu Hget').
  rewrite (getVolume_known native s _ d Hu Hget). cbn [fst].
  destruct (clamped_floor_range v Hv) as (z & Hrange & Hz).
  rewrite Hs', Hz. rewrite !reading_after_store_cases by lia.
  subst audio playback tts ring. cbn [name].
  clear Hs' Hget' Hget Hall Hcat Ha Hp Ht Hr. clearbody s'.
  unfold catalog in Hin. cbn [In] in Hin.
  destruct Hin as [<-|[<-|[<-|[<-|[<-|[<-|[<-|[]]]]]]]]; reflexivity.
Qed.

End CatalogFacts.

(** ** Store and backend stay in step *)

Section PairedFacts.

Variable native : NativeBackend.

Local Open Scope list_scope.

Lemma keeps_paired_bind {A B} (m : M A) (f : A -> M B) :
  keeps_paired m -> (forall a, keeps_paired (f a)) -> keeps_paired (bind m f).
Proof.
  intros Hm Hf s Hs. unfold bind. specialize (Hm s Hs).
  destruct (m s) as [[a|e|] s']; cbn [snd] in *; try exact Hm.
  now apply Hf.
Qed.

Lemma keeps_paired_same {A} (m : M A) : reads_only m -> keeps_paired m.
Proof. intros Hm s Hs. now rewrite Hm. Qed.

Lemma keeps_paired_storeVolume (stream : option entry) (vol : number) :
  keeps_paired (_storeVolume stream vol).
Proof.
  intros s Hs. unfold _storeVolume, bind, lift.
  destruct (field "key" stream) as [k|e|] eqn:Hk; try exact Hs.
  cbn [property_set fst snd].
  assert (Hid : exists i, field "id" stream = Normal i).
  { destruct stream as [[d|[]]|]; try discriminate Hk; cbn; eauto. }
  destruct Hid as [i ->]. cbn. rewrite <- app_assoc. now constructor.
Qed.

Lemma keeps_paired_setVolume_fuel (fuel : nat) (args : list value) :
  keeps_paired (setVolume_fuel native fuel args).
Proof.
  revert args. induction fuel as [|fuel IH]; intros args.
  - now apply keeps_paired_same.
  - cbn [setVolume_fuel].
    destruct (if Nat.eqb (length args) 1 then (VNull, arg 0 args)
              else (arg 0 args, arg 1 args)) as [type vol].
    apply keeps_paired_bind; [now apply keeps_paired_same|]. intros s0.
    destruct (ToBoolean type && negb (entry_truthy (AudioBase_get s0 type)));
      [now apply keeps_paired_same|].
    destruct vol; try (now apply keeps_paired_same).
    destruct (is_null type).
    + repeat first [ apply keeps_paired_bind; [|intros ?] | apply IH
                   | now apply keeps_paired_same ].
    + apply keeps_paired_bind; [now apply keeps_paired_same|]. intros s1.
      apply keeps_paired_bind; [now apply keeps_paired_same|]. intros r.
      destruct (ToBoolean r).
      * apply keeps_paired_bind; [now apply keeps_paired_same|]. intros nm.
        now apply keeps_paired_same.
      * apply keeps_paired_storeVolume.
Qed.

Lemma keeps_paired_curve_loop (count : nat) (i : Z) (shape : list value) :
  keeps_paired (curve_loop native count i shape).
Proof.
  revert i. induction count as [|count IH]; intros i;
    [now apply keeps_paired_same|].
  cbn [curve_loop]. apply keeps_paired_bind.
  - intros s Hs. cbn. now constructor.
  - intros ok. destruct ok; [apply IH | now apply keeps_paired_same].
Qed.

Lemma paired_defined (s : state) (stream_id : Z) (nm : string) (o : value) :
  paired (effects s) -> paired (effects (defined s stream_id nm o)).
Proof.
  intros Hs. unfold defined. destruct (isNaN _); [|exact Hs].
  cbn. now constructor.
Qed.

(** X14.  The backend is never told a stream volume that was not persisted
    just before: if the effects are paired when the module is loaded, they
    are paired after loading and after every [setVolume] and
    [setVolumeShaper], whatever the arguments and whether or not the call
    throws. *)
Theorem store_and_backend_in_step (props : gmap string string)
    (past : list effect) (s : state) (args : list value)
    (shaper : value -> value) :
  (paired past -> paired (effects (snd (load native props past))))
  /\ (paired (effects s) ->
      paired (effects (snd (setVolume native args s)))
      /\ paired (effects (snd (setVolumeShaper native shaper s)))).
Proof.
  split.
  - intros Hp. rewrite load_run. cbn [snd]. unfold initialised.
    repeat apply paired_defined. exact Hp.
  - intros Hs. split.
    + now apply keeps_paired_setVolume_fuel.
    + unfold setVolumeShaper.
      destruct (shaper (VNum (num_of_Z 100))); try exact Hs.
      now apply keeps_paired_curve_loop.
Qed.

(** X15.  [getVolume] only reads: it leaves the state as it is whatever
    its argument, and what it returns is [false], an integer, or an
    infinity, which is what [parseInt] makes of digits past the largest
    double. *)
Theorem getVolume_reads_integers (args : list value) (s : state) :
  snd (getVolume native args s) = s
  /\ (forall v, fst (getVolume native args s) = Normal v ->
        v = VBool false \/ (exists z, v = VNum (num_of_Z z))
        \/ v = VNum PosInf \/ v = VNum NegInf).
Proof.
  assert (Hget : forall e,
            snd (_getVolume e s) = s
            /\ (forall v, fst (_getVolume e s) = Normal v ->
                  v = VBool false \/ (exists z, v = VNum (num_of_Z z))
                  \/ v = VNum PosInf \/ v = VNum NegInf)).
  { intros e. unfold _getVolume, bind, lift, property_get.
    destruct (field "key" e) as [k| |]; cbn [fst snd];
      [|split; [reflexivity | discriminate] ..].
    destruct (parseInt_cases (VStr (default ""%string
                                      (property s !! ToString k))))
      as [-> | [-> | [-> | [z ->]]]];
      cbn [isNaN num_of_Z ret fst snd];
      (split; [reflexivity|]); intros v [= <-]; eauto. }
  unfold getVolume. unfold bind at 1 2. unfold get_state at 1 2.
  destruct (arg 0 args); try apply Hget;
    (destruct (negb (entry_truthy _));
     [split; [reflexivity | discriminate] | apply Hget]).
Qed.

End PairedFacts.

(** ** The further theorems at concrete inputs *)

Section MoreRuns.

Local Open Scope list_scope.

Lemma sample_ids_distinct : NoDup (stream_ids sample_native).
Proof. apply (bool_decide_unpack _). vm_compute. exact I. Qed.

Lemma sample_tts_get :
  AudioBase_get sample_state (VNum (num_of_Z 1))
  = Some (Descriptor (sample_stream 1 "tts")).
Proof. vm_compute. reflexivity. Qed.

Lemma sample_ring_get :
  AudioBase_get sample_state (VNum (num_of_Z 2))
  = Some (Descriptor (sample_stream 2 "ring")).
Proof. vm_compute. reflexivity. Qed.

Lemma setVolume_then_getVolume_witness :
  exists z s',
    (0 <= z <= 100)%Z
    /\ clamped_floor (Finite (301 # 2)) = num_of_Z z
    /\ setVolume sample_native
         (VNum (num_of_Z 1) :: VNum (Finite (301 # 2)) :: nil) sample_state
       = (Normal VUndefined, s')
    /\ getVolume sample_native (VNum (num_of_Z 1) :: nil) s'
       = (Normal (VNum (num_of_Z z)), s').
Proof.
  apply (setVolume_then_getVolume sample_native sample_state _
           (sample_stream 1 "tts")).
  - discriminate.
  - discriminate.
  - exact sample_tts_get.
  - reflexivity.
  - discriminate.
Defined.

Lemma setVolume_leaves_other_streams_witness :
  fst (getVolume sample_native (VNum (num_of_Z 2) :: nil)
         (snd (setVolume sample_native
                 (VNum (num_of_Z 1) :: VNum (num_of_Z 30) :: nil) sample_state)))
  = fst (getVolume sample_native (VNum (num_of_Z 2) :: nil) sample_state).
Proof.
  apply (setVolume_leaves_other_streams sample_native sample_state _ _
           (sample_stream 1 "tts") (sample_stream 2 "ring")).
  - discriminate.
  - discriminate.
  - exact sample_tts_get.
  - exact sample_ring_get.
  - reflexivity.
  - discriminate.
Defined.

Lemma setVolume_last_write_wins_witness :
  property (snd (setVolume sample_native
                   (VNum (num_of_Z 1) :: VNum (num_of_Z 70) :: nil)
                   (snd (setVolume sample_native
                           (VNum (num_of_Z 1) :: VNum (num_of_Z 30) :: nil)
                           sample_state))))
  = property (snd (setVolume sample_native
                     (VNum (num_of_Z 1) :: VNum (num_of_Z 70) :: nil)
                     sample_state)).
Proof.
  apply (setVolume_last_write_wins sample_native sample_state _
           (sample_stream 1 "tts")).
  - discriminate.
  - exact sample_tts_get.
  - reflexivity.
Defined.

Lemma setVolume_refuses_non_numbers_witness :
  typeof (VStr "30") <> "number"%string
  /\ setVolume sample_native (VStr "30" :: nil) sample_state
     = (Throw (TypeError "vol must be a number"), sample_state).
Proof.
  assert (H : typeof (if Nat.eqb (length (VStr "30" :: nil)) 1
                      then arg 0 (VStr "30" :: nil)
                      else arg 1 (VStr "30" :: nil)) <> "number"%string)
    by discriminate.
  split; [exact H|].
  apply (proj2 (setVolume_refuses_non_numbers sample_native (VStr "30" :: nil)
                  sample_state H)).
  cbn [length]. lia.
Defined.

Lemma getStreamName_total_witness :
  getStreamName (VNum (num_of_Z 1)) sample_state
    = (Normal (VStr "tts"), sample_state)
  /\ getStreamName (VNum (num_of_Z 9999)) sample_state
     = (Normal VUndefined, sample_state).
Proof.
  split.
  - apply (proj1 (proj2 (getStreamName_total sample_state (VNum (num_of_Z 1))))
             (sample_stream 1 "tts")).
    exact sample_tts_get.
  - apply (proj2 (proj2 (getStreamName_total sample_state
                           (VNum (num_of_Z 9999)))) (num_of_Z 9999)).
    + reflexivity.
    + vm_compute. reflexivity.
Defined.

Lemma defineStream_registers_witness :
  2%Z <> 1%Z
  /\ AudioBase_get
       (snd (defineStream 1 "voice" VUndefined sample_state))
       (VNum (num_of_Z 2))
     = AudioBase_get sample_state (VNum (num_of_Z 2)).
Proof.
  assert (H : 2%Z <> 1%Z) by lia.
  split; [exact H|].
  exact (proj2 (proj2 (defineStream_registers sample_state 1 "voice"
                         VUndefined)) 2%Z H).
Defined.

Lemma getPlayingStatus_cases_witness :
  getPlayingStatus sample_native sample_playing
    (VNum (num_of_Z 1) :: nil) sample_state
    = (Normal (VBool true), sample_state)
  /\ getPlayingStatus sample_native sample_playing
       (VNum (num_of_Z 9999) :: nil) sample_state
     = (Throw (TypeError "invalid stream type"), sample_state).
Proof.
  destruct (getPlayingStatus_cases sample_native sample_playing sample_state)
    as (_ & Hunknown & Hknown & _).
  split.
  - apply (Hknown _ (sample_stream 1 "tts")).
    + discriminate.
    + exact sample_tts_get.
  - apply Hunknown. vm_compute. reflexivity.
Defined.

Lemma setVolumeShaper_reads_101_witness :
  setVolumeShaper sample_native sample_shaper sample_state
  = setVolumeShaper sample_native
      (fun _ => VArr (sample_curve ++ repeat VUndefined 97)) sample_state.
Proof.
  apply (proj2 (proj2 (setVolumeShaper_reads_101 sample_native sample_shaper
                         sample_shaper sample_curve sample_curve sample_state
                         eq_refl eq_refl (fun i _ => eq_refl)))).
Defined.

Lemma sample_accepts_ramp (past : list effect) (i : nat) :
  i <= 100 ->
  setCurveForVolume_accepts sample_native past (Z.of_nat i)
    (VNum (num_of_Z (Z.of_nat i))) = true.
Proof.
  intros Hi. cbn [setCurveForVolume_accepts sample_native in_range isNaN
                    num_of_Z negb andb].
  unfold number_gtb. fold (num_of_Z (Z.of_nat i)). rewrite !number_ltb_Z.
  destruct (Z.ltb_spec (Z.of_nat i) 0), (Z.ltb_spec 100 (Z.of_nat i));
    try reflexivity; lia.
Qed.

Lemma setVolumeShaper_LINEAR_RAMP_witness :
  setVolumeShaper sample_native LINEAR_RAMP sample_state
  = (Normal (VBool true),
     with_effects sample_state
       (effects sample_state ++ map identity_point (seq 0 101))).
Proof.
  apply (proj1 (proj2 (proj2 (setVolumeShaper_LINEAR_RAMP sample_native
                                sample_state)))).
  intros i Hi. apply sample_accepts_ramp. exact Hi.
Defined.

Lemma load_stores_default_witness :
  property (snd (load sample_native sample_props nil)) !! "audio.volume.tts"%string
    = Some "35"%string
  /\ property (snd (load sample_native sample_props nil)) !! "audio.volume.ring"%string
     = Some "80"%string.
Proof.
  destruct (load_stores_default sample_native sample_props nil) as (Hs & _).
  assert (Htts : In "tts"%string stream_names)
    by (unfold stream_names; cbn [In]; tauto).
  assert (Hring : In "ring"%string stream_names)
    by (unfold stream_names; cbn [In]; tauto).
  split.
  - refine (eq_trans (Hs "tts"%string Htts) _). vm_compute. reflexivity.
  - refine (eq_trans (Hs "ring"%string Hring) _). vm_compute. reflexivity.
Defined.

Lemma getVolume_after_load_witness :
  In (sample_stream 1 "tts") (catalog sample_native)
  /\ isFinite (configured_default sample_props) = true
  /\ getVolume sample_native (VNum (num_of_Z 1) :: nil)
       (snd (load sample_native sample_props nil))
     = (Normal (VNum (num_of_Z 35)), snd (load sample_native sample_props nil)).
Proof.
  assert (Hin : In (sample_stream 1 "tts") (catalog sample_native))
    by (unfold catalog; cbn [In]; tauto).
  assert (Hfin : isFinite (configured_default sample_props) = true)
    by (vm_compute; reflexivity).
  split; [exact Hin|]. split; [exact Hfin|].
  apply (proj2 (getVolume_after_load sample_native sample_props nil
                  (sample_stream 1 "tts") sample_ids_distinct Hin
                  (or_introl Hfin)) 35%Z).
  - vm_compute. reflexivity.
  - vm_compute. reflexivity.
  - lia.
Defined.

Lemma setVolume_on_catalog_witness :
  setVolume sample_native (VNum (num_of_Z 5) :: VNum (num_of_Z 150) :: nil)
    sample_state
  = (Normal VUndefined,
     after_store sample_state (sample_stream 5 "alarm") (num_of_Z 100)).
Proof.
  apply (setVolume_on_catalog sample_native ∅ nil sample_state
           (sample_stream 5 "alarm") (num_of_Z 150) sample_ids_distinct eq_refl).
  unfold catalog; cbn [In]; tauto.
Defined.

Lemma setVolume_broadcast_reach_witness :
  fst (getVolume sample_native (VNum (num_of_Z 5) :: nil)
         (snd (setVolume sample_native (VNum (num_of_Z 30) :: nil) sample_state)))
  = fst (getVolume sample_native (VNum (num_of_Z 5) :: nil) sample_state).
Proof.
  apply (setVolume_broadcast_reach sample_native ∅ nil sample_state
           (sample_stream 5 "alarm") (num_of_Z 30) sample_ids_distinct eq_refl).
  - unfold catalog; cbn [In]; tauto.
  - discriminate.
Defined.

Lemma store_and_backend_in_step_witness :
  paired nil
  /\ paired (effects (snd (load sample_native ∅ nil))).
Proof.
  assert (H : paired nil) by constructor.
  split; [exact H|].
  exact (proj1 (store_and_backend_in_step sample_native ∅ nil sample_state nil
                  sample_shaper) H).
Defined.

Lemma getVolume_reads_integers_witness :
  fst (getVolume sample_native (VNum (num_of_Z 1) :: nil) unset_state)
    = Normal (VBool false)
  /\ (VBool false = VBool false \/ (exists z, VBool false = VNum (num_of_Z z))
      \/ VBool false = VNum PosInf \/ VBool false = VNum NegInf).
Proof.
  assert (H : fst (getVolume sample_native (VNum (num_of_Z 1) :: nil) unset_state)
              = Normal (VBool false)) by (vm_compute; reflexivity).
  split; [exact H|].
  exact (proj2 (getVolume_reads_integers sample_native _ unset_state) _ H).
Defined.

End MoreRuns.

(** ** A call for one stream is all or nothing *)

Section AllOrNothing.

Variable native : NativeBackend.

Local Open Scope list_scope.

Lemma _storeVolume_some (e : entry) (vol : number) (s : state) :
  exists k i,
    field "key" (Some e) = Normal k
    /\ field "id" (Some e) = Normal i
    /\ _storeVolume (Some e) vol s
       = (Normal VUndefined,
          {| AudioBase_DEFAULT_VOLUME := AudioBase_DEFAULT_VOLUME s;
             AudioBase := AudioBase s;
             property := <[ToString k := Number_toString (Math_floor vol)]>
                           (property s);
             effects := effects s
                          ++ PropertySet k (Math_floor vol)
                          :: SetStreamVolume i (Math_floor vol) :: nil |}).
Proof.
  destruct e as [d|pv].
  - exists (VStr (key d)), (VNum (num_of_Z (id d))).
    split; [reflexivity|]. split; [reflexivity|].
    apply _storeVolume_descriptor.
  - exists VUndefined, VUndefined.
    unfold _storeVolume, bind, lift, ret, property_set, native_setStreamVolume,
      perform.
    destruct pv; cbn; rewrite <- app_assoc; repeat split.
Qed.

(** X17.  A [setVolume] call that names a stream is all or nothing.  Either
    it throws, and the state is exactly what it was; or the volume is a
    number [v] and the stream argument leads to an entry of [AudioBase],
    and the call returns [undefined] having done one write to the store,
    under the [key] of that entry, followed by one call to the backend,
    with its [id], both with [min(100, max(0, floor(v)))], and nothing
    else. *)
Theorem setVolume_all_or_nothing (type vol : value) (s : state) :
  is_null type = false ->
  (exists e, setVolume native (type :: vol :: nil) s = (Throw e, s))
  \/ (exists v e k i,
        vol = VNum v
        /\ AudioBase_get s type = Some e
        /\ field "key" (Some e) = Normal k
        /\ field "id" (Some e) = Normal i
        /\ setVolume native (type :: vol :: nil) s
           = (Normal VUndefined,
              {| AudioBase_DEFAULT_VOLUME := AudioBase_DEFAULT_VOLUME s;
                 AudioBase := AudioBase s;
                 property :=
                   <[ToString k := Number_toString (clamped_floor v)]>
                     (property s);
                 effects :=
                   effects s
                     ++ PropertySet k (clamped_floor v)
                     :: SetStreamVolume i (clamped_floor v) :: nil |})).
Proof.
  intros Hn.
  enough (H : forall res, setVolume native (type :: vol :: nil) s = res ->
            (exists e, res = (Throw e, s))
            \/ (exists v e k i,
                  vol = VNum v
                  /\ AudioBase_get s type = Some e
                  /\ field "key" (Some e) = Normal k
                  /\ field "id" (Some e) = Normal i
                  /\ res
                     = (Normal VUndefined,
                        {| AudioBase_DEFAULT_VOLUME := AudioBase_DEFAULT_VOLUME s;
                           AudioBase := AudioBase s;
                           property :=
                             <[ToString k := Number_toString (clamped_floor v)]>
                               (property s);
                           effects :=
                             effects s
                               ++ PropertySet k (clamped_floor v)
                               :: SetStreamVolume i (clamped_floor v) :: nil |})))
    by exact (H _ eq_refl).
  intros res. unfold setVolume.
  rewrite (setVolume_fuel_stream native 1 0) by exact Hn.
  cbn [setVolume_fuel length Nat.eqb arg nth].
  unfold bind at 1. unfold get_state at 1.
  destruct (ToBoolean type && negb (entry_truthy (AudioBase_get s type))).
  { intros <-. left. eexists. reflexivity. }
  destruct vol as [| | |n| | | |];
    try (intros <-; left; eexists; reflexivity).
  fold (clamp n). rewrite Hn. unfold bind at 1. unfold get_state at 1.
  destruct (AudioBase_get s type) as [e|] eqn:Hget.
  2:{ intros <-. left. eexists. reflexivity. }
  assert (Hro : exists r, field "readonly" (Some e) = Normal r).
  { destruct e as [d|[]]; cbn; eauto. }
  destruct Hro as [r ->]. unfold bind at 1. unfold lift at 1.
  destruct (ToBoolean r).
  - assert (Hnm : exists x, field "name" (Some e) = Normal x).
    { destruct e as [d|[]]; cbn; eauto. }
    destruct Hnm as [x ->]. intros <-. left. eexists. reflexivity.
  - destruct (_storeVolume_some e (clamp n) s) as (k & i & Hk & Hi & ->).
    intros <-. right. exists n, e, k, i. rewrite floor_clamp.
    split; [reflexivity|]. split; [reflexivity|].
    split; [exact Hk|]. split; [exact Hi|]. reflexivity.
Qed.

End AllOrNothing.

Section AllOrNothingRun.

Lemma setVolume_all_or_nothing_witness :
  is_null (VNum (num_of_Z 1)) = false
  /\ property (snd (setVolume sample_native
                      (VNum (num_of_Z 1) :: VNum (num_of_Z 250) :: nil)
                      sample_state))
       !! "audio.volume.tts"
     = Some "100".
Proof.
  assert (H : is_null (VNum (num_of_Z 1)) = false) by reflexivity.
  split; [exact H|].
  destruct (setVolume_all_or_nothing sample_native (VNum (num_of_Z 1))
              (VNum (num_of_Z 250)) sample_state H)
    as [[e He] | (v & e & k & i & Hv & Hg & Hk & Hi & ->)].
  - apply (f_equal fst) in He. vm_compute in He. discriminate He.
  - injection Hv as <-.
    rewrite sample_tts_get in Hg. injection Hg as <-.
    injection Hk as <-. cbn [snd property ToString key name sample_stream].
    rewrite lookup_insert_eq. vm_compute. reflexivity.
Defined.

End AllOrNothingRun.

(** ** Doubles at the edges, and a default past them *)

Section OverflowRuns.

Local Open Scope list_scope.

(** The names [AudioBase] inherits are there, and are no streams. *)
Example AudioBase_inherited_names :
  entry_truthy (AudioBase_get sample_state (VStr "__proto__")) = true
  /\ getStreamName (VStr "__proto__") sample_state
     = (Normal VUndefined, sample_state)
  /\ getStreamName (VStr "__defineGetter__") sample_state
     = (Normal (VStr "__defineGetter__"), sample_state)
  /\ AudioBase_get sample_state (VStr "6") = AudioBase_get sample_state (VNum (num_of_Z 6)).
Proof. repeat split. Qed.

Example parseInt_rounds_to_even :
  parseInt (VStr "9007199254740993") = num_of_Z 9007199254740992
  /\ parseInt (VStr "9007199254740995") = num_of_Z 9007199254740996.
Proof. split; vm_compute; reflexivity. Qed.

Example parseInt_overflows :
  parseInt (VStr (Z_to_string (10 ^ 309))) = PosInf
  /\ parseInt (VStr (Z_to_string (- 10 ^ 309))) = NegInf
  /\ isFinite (parseInt (VStr (Z_to_string (10 ^ 308)))) = true.
Proof. repeat split; vm_compute; reflexivity. Qed.

Example toString_exponent_form :
  Number_toString (num_of_Z (10 ^ 21 - 2 ^ 17)) = "999999999999999900000"
  /\ Number_toString (num_of_Z (10 ^ 21)) = "1e+21"
  /\ Number_toString (num_of_Z (2 ^ 70)) = "1.1805916207174113e+21"
  /\ Number_toString (num_of_Z (- 2 ^ 100)) = "-1.2676506002282294e+30"
  /\ Number_toString (parseInt (VStr "100000000000000000000000")) = "1e+23".
Proof. repeat split; vm_compute; reflexivity. Qed.

Example parseInt_of_exponent_form :
  parseInt (VStr (Number_toString (num_of_Z (10 ^ 21)))) = num_of_Z 1.
Proof. vm_compute. reflexivity. Qed.

(** A default of [10 ^ 21] is stored as [1e+21], which reads back as 1:
    the streams have a volume, though not the configured one. *)
Example load_default_1e21 :
  fst (getVolume sample_native (VNum (num_of_Z 1) :: nil)
         (snd (load sample_native
                 {[ "audio.volume.default" := Z_to_string (10 ^ 21) ]} nil)))
  = Normal (VNum (num_of_Z 1)).
Proof. vm_compute. reflexivity. Qed.

Lemma init_persists_defaults_once_witness :
  (isFinite (configured_default sample_props) = true
   \/ Forall (has_volume sample_props) stream_names)
  /\ Forall (has_volume (property (snd (load sample_native sample_props nil))))
       stream_names.
Proof.
  assert (H : isFinite (configured_default sample_props) = true
              \/ Forall (has_volume sample_props) stream_names)
    by (left; vm_compute; reflexivity).
  split; [exact H|].
  exact (proj1 (proj2 (init_persists_defaults_once sample_native sample_props
                         nil H))).
Defined.

(** C7 as it was stated, without a condition on the default, fails over a
    store whose default overflows.  Loading succeeds, but the default is
    [Infinity]; it is stored as the string [Infinity], which parses as
    [NaN]: the streams have no volume that parses after [init], and
    running [init] again writes all seven once more. *)
Lemma init_persists_defaults_once_counterexample :
  fst (load sample_native overflow_props nil) = Normal tt
  /\ configured_default overflow_props = PosInf
  /\ property overflow_state !! "audio.volume.tts" = Some "Infinity"
  /\ getVolume sample_native (VNum (num_of_Z 1) :: nil) overflow_state
     = (Normal (VBool false), overflow_state)
  /\ ~ Forall (has_volume (property overflow_state)) stream_names
  /\ ~ (exists s2, init sample_native overflow_state = (Normal tt, s2)
                   /\ property s2 = property overflow_state
                   /\ effects s2 = effects overflow_state)
  /\ length (effects overflow_state) = 14
  /\ length (effects (snd (init sample_native overflow_state))) = 28.
Proof.
  assert (Htts : property overflow_state !! "audio.volume.tts" = Some "Infinity")
    by (vm_compute; reflexivity).
  assert (L1 : length (effects overflow_state) = 14)
    by (vm_compute; reflexivity).
  assert (L2 : length (effects (snd (init sample_native overflow_state))) = 28)
    by (vm_compute; reflexivity).
  split; [now rewrite load_run|].
  split; [vm_compute; reflexivity|].
  split; [exact Htts|].
  split.
  { assert (Hu : VNum (num_of_Z 1) <> VUndefined) by discriminate.
    assert (Hg : AudioBase_get overflow_state (VNum (num_of_Z 1))
                 = Some (Descriptor (sample_stream 1 "tts")))
      by (vm_compute; reflexivity).
    assert (Hread : reading (property overflow_state) "tts" = VBool false)
      by (vm_compute; reflexivity).
    rewrite (getVolume_known sample_native overflow_state _ _ Hu Hg).
    cbn [name sample_stream]. now rewrite Hread. }
  split.
  { intros H. rewrite List.Forall_forall in H.
    destruct (H "tts") as (str & Hl & Hp);
      [unfold stream_names; cbn [In]; tauto|].
    change ("audio.volume." +:+ "tts") with "audio.volume.tts" in Hl.
    rewrite Htts in Hl. injection Hl as <-. discriminate Hp. }
  split; [|split; [exact L1 | exact L2]].
  intros (s2 & Hrun & _ & Heff).
  apply (f_equal snd) in Hrun. cbn [snd] in Hrun. subst s2.
  rewrite Heff in L2. rewrite L1 in L2. discriminate L2.
Qed.

End OverflowRuns.
